(** * The session layer of the ORM ([pkg/orm/orm.go]), embedded in Rocq

    The file follows the Go source function by function.  Go values that the
    session layer inspects through [reflect] are modelled by a small value
    language over a heap of addressable objects, so that pointer arguments,
    write-back into the caller's record and aliasing between records are the
    ones of the program.  Everything the session layer calls but that lives in
    other files of the package (the dialect adapter [DbBaser], the model
    registry, the query set, the transaction handle) is taken as a parameter
    of the development. *)

From Stdlib Require Import ZArith String List Lia.
From stdpp Require Import base option list gmap strings.

Set Warnings "-register-all".
Local Open Scope string_scope.
Local Open Scope list_scope.
Local Open Scope Z_scope.

(** ** Go values *)

Definition loc := positive.
Definition path := list nat.
Definition addr : Type := loc * path.

(** Integer types: the sized ones and the platform word ([int], [uint]). *)
Inductive isize := Sz8 | Sz16 | Sz32 | Sz64 | SzWord.

Definition bits (s : isize) : Z :=
  match s with
  | Sz8 => 8 | Sz16 => 16 | Sz32 => 32 | Sz64 => 64 | SzWord => 64
  end.

Inductive gtype :=
| TBool
| TInt (s : isize)
| TUint (s : isize)
| TString
| TStruct (name : string)
| TPtr (elem : gtype)
| TSlice (elem : gtype)
| TArray (len : nat) (elem : gtype).

(** [VNil] is the nil interface; every other value has a dynamic type.
    A pointer carries its element type (a nil pointer is still typed) and a
    slice is the list of the addresses of its elements. *)
Inductive value :=
| VNil
| VBool (b : bool)
| VInt (s : isize) (n : Z)
| VUint (s : isize) (n : Z)
| VString (str : string)
| VStruct (name : string) (fields : list value)
| VPtr (elem : gtype) (target : option addr)
| VSlice (elem : gtype) (cells : list addr)
| VArray (elem : gtype) (elems : list value).

Inductive Kind :=
| Invalid | Bool | Int | Uint | String | Struct | Ptr | Slice | Array.

Definition kind_of (v : value) : Kind :=
  match v with
  | VNil => Invalid
  | VBool _ => Bool
  | VInt _ _ => Int
  | VUint _ _ => Uint
  | VString _ => String
  | VStruct _ _ => Struct
  | VPtr _ _ => Ptr
  | VSlice _ _ => Slice
  | VArray _ _ => Array
  end.

Definition type_of (v : value) : option gtype :=
  match v with
  | VNil => None
  | VBool _ => Some TBool
  | VInt s _ => Some (TInt s)
  | VUint s _ => Some (TUint s)
  | VString _ => Some TString
  | VStruct n _ => Some (TStruct n)
  | VPtr t _ => Some (TPtr t)
  | VSlice t _ => Some (TSlice t)
  | VArray t vs => Some (TArray (length vs) t)
  end.

(** Conversions between integer types wrap around. *)
Definition wrap_unsigned (w : Z) (x : Z) : Z := x mod 2 ^ w.

Definition wrap_signed (w : Z) (x : Z) : Z :=
  let m := x mod 2 ^ w in
  if m <? 2 ^ (w - 1) then m else m - 2 ^ w.

Definition to_uint64 (x : Z) : Z := wrap_unsigned 64 x.
Definition to_int64 (x : Z) : Z := wrap_signed 64 x.

(** ** The heap *)

Fixpoint value_at (p : path) (v : value) : option value :=
  match p with
  | [] => Some v
  | i :: p' =>
      match v with
      | VStruct _ fs => fs !! i ≫= value_at p'
      | VArray _ vs => vs !! i ≫= value_at p'
      | _ => None
      end
  end.

Fixpoint value_set_at (p : path) (new : value) (v : value) : option value :=
  match p with
  | [] => Some new
  | i :: p' =>
      match v with
      | VStruct n fs =>
          f ← fs !! i; f' ← value_set_at p' new f; Some (VStruct n (<[i:=f']> fs))
      | VArray t vs =>
          f ← vs !! i; f' ← value_set_at p' new f; Some (VArray t (<[i:=f']> vs))
      | _ => None
      end
  end.

Abbreviation heap := (gmap loc value).

Definition load (h : heap) (a : addr) : option value :=
  h !! a.1 ≫= value_at a.2.

Definition store (h : heap) (a : addr) (v : value) : option heap :=
  o ← h !! a.1; o' ← value_set_at a.2 v o; Some (<[a.1:=o']> h).

(** ** Errors, panics and outcomes *)

Inductive error :=
| ErrTxDone
| ErrMultiRows
| ErrNoRows
| ErrStmtClosed
| ErrArgs
| ErrNotImplement
| ErrMissPK
| ctx_Canceled
| ctx_DeadlineExceeded
| Errorf (msg : string).

Definition error_eqb (a b : error) : bool :=
  match a, b with
  | ErrTxDone, ErrTxDone | ErrMultiRows, ErrMultiRows | ErrNoRows, ErrNoRows
  | ErrStmtClosed, ErrStmtClosed | ErrArgs, ErrArgs
  | ErrNotImplement, ErrNotImplement | ErrMissPK, ErrMissPK
  | ctx_Canceled, ctx_Canceled | ctx_DeadlineExceeded, ctx_DeadlineExceeded => true
  | Errorf m, Errorf m' => String.eqb m m'
  | _, _ => false
  end.

(** What a Go [panic] carries: an error value, a runtime or [reflect] message,
    or any value a caller's function panics with. *)
Inductive panic_value :=
| PanicError (e : error)
| PanicRuntime (msg : string)
| PanicValue (v : value).

(** [Timeout] is the verdict of a recursive call that ran out of fuel. *)
Inductive outcome (A : Type) :=
| Ret (a : A)
| Panic (p : panic_value)
| Timeout.
Arguments Ret {A} a.
Arguments Panic {A} p.
Arguments Timeout {A}.

Definition obind {A B} (o : outcome A) (k : A → outcome B) : outcome B :=
  match o with
  | Ret a => k a
  | Panic p => Panic p
  | Timeout => Timeout
  end.

(** A helper that returns or panics, and always does one of the two. *)
Definition result (A : Type) : Type := (A + panic_value)%type.

Definition of_result {A} (r : result A) : outcome A :=
  match r with
  | inl a => Ret a
  | inr p => Panic p
  end.

Notation "'try' x := c 'in' k" := (obind c (fun x => k))
  (at level 10, x name, c at level 100, k at level 200).

(** ** [reflect.Value] *)

(** A [reflect.Value] is the zero Value, a copy that is not addressable, or a
    reference to addressable storage, which is read through the heap. *)
Inductive rvalue :=
| RZero
| RCopy (v : value)
| RAddr (a : addr).

Definition rv_get (h : heap) (rv : rvalue) : option value :=
  match rv with
  | RZero => None
  | RCopy v => Some v
  | RAddr a => load h a
  end.

Definition reflect_ValueOf (i : value) : rvalue :=
  match i with
  | VNil => RZero
  | _ => RCopy i
  end.

Definition rv_Kind (h : heap) (rv : rvalue) : Kind :=
  match rv_get h rv with
  | Some v => kind_of v
  | None => Invalid
  end.

Definition reflect_Indirect (h : heap) (v : rvalue) : rvalue :=
  match rv_get h v with
  | Some (VPtr _ (Some a)) => RAddr a
  | Some (VPtr _ None) => RZero
  | _ => v
  end.

Definition rv_Type (h : heap) (rv : rvalue) : outcome gtype :=
  match rv_get h rv ≫= type_of with
  | Some t => Ret t
  | None => Panic (PanicRuntime "reflect: call of reflect.Value.Type on zero Value")
  end.

Definition rv_Interface (h : heap) (rv : rvalue) : outcome value :=
  match rv_get h rv with
  | Some v => Ret v
  | None => Panic (PanicRuntime "reflect: call of reflect.Value.Interface on zero Value")
  end.

Definition rv_Len (h : heap) (rv : rvalue) : outcome nat :=
  match rv_get h rv with
  | Some (VSlice _ cells) => Ret (length cells)
  | Some (VArray _ vs) => Ret (length vs)
  | _ => Panic (PanicRuntime "reflect: call of reflect.Value.Len on a value that has no length")
  end.

Definition rv_Index (h : heap) (rv : rvalue) (i : nat) : outcome rvalue :=
  match rv_get h rv with
  | Some (VSlice _ cells) =>
      match cells !! i with
      | Some a => Ret (RAddr a)
      | None => Panic (PanicRuntime "reflect: slice index out of range")
      end
  | Some (VArray _ vs) =>
      match vs !! i with
      | Some e =>
          match rv with
          | RAddr a => Ret (RAddr (a.1, a.2 ++ [i]))
          | _ => Ret (RCopy e)
          end
      | None => Panic (PanicRuntime "reflect: array index out of range")
      end
  | _ => Panic (PanicRuntime "reflect: call of reflect.Value.Index on a value that is no sequence")
  end.

Definition rv_Field (h : heap) (rv : rvalue) (i : nat) : outcome rvalue :=
  match rv_get h rv with
  | Some (VStruct _ fs) =>
      match fs !! i with
      | Some f =>
          match rv with
          | RAddr a => Ret (RAddr (a.1, a.2 ++ [i]))
          | _ => Ret (RCopy f)
          end
      | None => Panic (PanicRuntime "reflect: Field index out of range")
      end
  | _ => Panic (PanicRuntime "reflect: call of reflect.Value.Field on a value that is no struct")
  end.

(** [FieldByIndex] walks the index path; from the second step on it goes
    through a pointer to an embedded struct. *)
Fixpoint FieldByIndex_loop (h : heap) (v : rvalue) (index : list nat) (first : bool)
  : outcome rvalue :=
  match index with
  | [] => Ret v
  | x :: rest =>
      try v' :=
        (if first then Ret v
         else match rv_get h v with
              | Some (VPtr (TStruct _) None) =>
                  Panic (PanicRuntime "reflect: indirection through nil pointer to embedded struct")
              | Some (VPtr (TStruct _) (Some a)) => Ret (RAddr a)
              | _ => Ret v
              end) in
      try f := rv_Field h v' x in
      FieldByIndex_loop h f rest false
  end.

Definition rv_FieldByIndex (h : heap) (v : rvalue) (index : list nat) : outcome rvalue :=
  match index with
  | [] =>
      match rv_Kind h v with
      | Struct => Ret v
      | _ => Panic (PanicRuntime "reflect: call of reflect.Value.FieldByIndex on a value that is no struct")
      end
  | _ => FieldByIndex_loop h v index true
  end.

Definition rv_Int (h : heap) (rv : rvalue) : outcome Z :=
  match rv_get h rv with
  | Some (VInt _ n) => Ret n
  | _ => Panic (PanicRuntime "reflect: call of reflect.Value.Int on a value that is no signed integer")
  end.

Definition rv_Uint (h : heap) (rv : rvalue) : outcome Z :=
  match rv_get h rv with
  | Some (VUint _ n) => Ret n
  | _ => Panic (PanicRuntime "reflect: call of reflect.Value.Uint on a value that is no unsigned integer")
  end.

Definition type_Elem (t : gtype) : outcome gtype :=
  match t with
  | TPtr e | TSlice e | TArray _ e => Ret e
  | _ => Panic (PanicRuntime "reflect: Elem of invalid type")
  end.

(** The setters need addressable storage of the right kind; they return the
    heap after the assignment. *)
Definition rv_SetInt (h : heap) (rv : rvalue) (x : Z) : outcome heap :=
  match rv with
  | RAddr a =>
      match load h a with
      | Some (VInt s _) =>
          match store h a (VInt s (wrap_signed (bits s) x)) with
          | Some h' => Ret h'
          | None => Panic (PanicRuntime "invalid memory address")
          end
      | _ => Panic (PanicRuntime "reflect: call of reflect.Value.SetInt on a value that is no signed integer")
      end
  | _ => Panic (PanicRuntime "reflect: reflect.Value.SetInt using unaddressable value")
  end.

Definition rv_SetUint (h : heap) (rv : rvalue) (x : Z) : outcome heap :=
  match rv with
  | RAddr a =>
      match load h a with
      | Some (VUint s _) =>
          match store h a (VUint s (wrap_unsigned (bits s) x)) with
          | Some h' => Ret h'
          | None => Panic (PanicRuntime "invalid memory address")
          end
      | _ => Panic (PanicRuntime "reflect: call of reflect.Value.SetUint on a value that is no unsigned integer")
      end
  | _ => Panic (PanicRuntime "reflect: reflect.Value.SetUint using unaddressable value")
  end.

#[global] Instance isize_eq_dec : EqDecision isize.
Proof. solve_decision. Defined.

#[global] Instance gtype_eq_dec : EqDecision gtype.
Proof. solve_decision. Defined.

(** [Set] assigns a value of the very type of the storage. *)
Definition rv_Set (h : heap) (rv : rvalue) (x : value) : outcome heap :=
  match rv with
  | RAddr a =>
      match load h a with
      | Some old =>
          if decide (type_of x = type_of old)
          then match store h a x with
               | Some h' => Ret h'
               | None => Panic (PanicRuntime "invalid memory address")
               end
          else Panic (PanicRuntime "reflect.Set: value is not assignable to type")
      | None => Panic (PanicRuntime "invalid memory address")
      end
  | _ => Panic (PanicRuntime "reflect: reflect.Value.Set using unaddressable value")
  end.

#[global] Instance Kind_eq_dec : EqDecision Kind.
Proof. solve_decision. Defined.

(** ** Model descriptors

    [modelInfo] and [fieldInfo] are declared in other files of the package;
    the records below hold the fields that [orm.go] reads.  A descriptor that
    the source reaches through a pointer is an [option] here ([None] is the
    nil pointer), and the cyclic descriptor graph is unfolded as deep as a
    call follows it. *)
Inductive fieldInfo := mkFieldInfo {
  name : string;
  column : string;
  fieldType : Z;
  fieldIndex : list nat;
  auto : bool;
  rel : bool;
  inModel : bool;
  relModelInfo : option modelInfo;
  reverseFieldInfo : option fieldInfo;
  reverseFieldInfoM2M : option fieldInfo;
  fi_mi : option modelInfo
}
with modelInfo := mkModelInfo {
  fullName : string;
  table : string;
  isThrough : bool;
  fields : fieldsT
}
with fieldsT := mkFields {
  pk : fieldInfo;
  columns : list fieldInfo
}.

(** ** Contexts, executors and sessions *)

(** [context.Context]: the background context never ends; a derived context
    ends when it, or a context it derives from, is canceled or past its
    deadline. *)
Inductive context :=
| Background
| WithCancel (parent : context) (canceled : bool)
| WithDeadline (parent : context) (expired : bool).

Fixpoint ctx_Err (ctx : context) : option error :=
  match ctx with
  | Background => None
  | WithCancel parent canceled =>
      match ctx_Err parent with
      | Some e => Some e
      | None => if canceled then Some ctx_Canceled else None
      end
  | WithDeadline parent expired =>
      match ctx_Err parent with
      | Some e => Some e
      | None => if expired then Some ctx_DeadlineExceeded else None
      end
  end.

Definition context_Background : context := Background.

Record TxOptions := { Isolation : Z; ReadOnly : bool }.

Definition sqlTx := nat.
Definition timeLoc := string.

(** The executors a session is bound to: the pooled connection, the pooled
    connection behind the query log, or an open transaction. *)
Inductive dbQuerier :=
| SqlDB (conn : nat)
| QueryLogDB (inner : dbQuerier)
| TxDB (tx : sqlTx).

Record aliasInfo := { Name : string; DriverName : string; TZ : timeLoc }.

(** The state of the database server, and the types of the package that the
    session layer only passes on. *)
Class PackageTypes := {
  DB : Type;
  Condition : Type;
  QueryM2Mer : Type;
  RawSeter : Type
}.

Section Session.

Context {PT : PackageTypes}.

(** A call that leaves the session layer runs on the database and may read
    and write the Go heap it is handed references into. *)
Definition ext (A : Type) : Type := DB → heap → outcome A * DB * heap.

(** The dialect adapter: the methods of the [dbBaser] interface that the
    session layer calls.  [InsertOrUpdate] is handed the alias, of which it
    sees the data. *)
Record dbBaser := {
  DbBaser_Read : dbQuerier → modelInfo → rvalue → timeLoc → list string → bool →
                 ext (option error);
  DbBaser_Insert : dbQuerier → modelInfo → rvalue → timeLoc → ext (Z * option error);
  DbBaser_InsertMulti : dbQuerier → modelInfo → rvalue → Z → timeLoc →
                        ext (Z * option error);
  DbBaser_InsertOrUpdate : dbQuerier → modelInfo → rvalue → aliasInfo → list string →
                           ext (Z * option error);
  DbBaser_Update : dbQuerier → modelInfo → rvalue → timeLoc → list string →
                   ext (Z * option error);
  DbBaser_Delete : dbQuerier → modelInfo → rvalue → timeLoc → list string →
                   ext (Z * option error)
}.

Record alias := { alias_info : aliasInfo; DbBaser : dbBaser }.

Record ormBase := { ormBase_alias : alias; db : dbQuerier }.

Record orm := { orm_ormBase : ormBase }.
Record txOrm := { txOrm_ormBase : ormBase }.

(** The method sets the source reaches by type assertion on the executor. *)
Record txer := {
  BeginTx : context → option TxOptions → ext (sqlTx * option error)
}.
Record txEnder := {
  txEnder_Commit : ext (option error);
  txEnder_Rollback : ext (option error)
}.

Record querySet := {
  qs_mi : option modelInfo;
  qs_cond : option Condition;
  qs_limit : Z;
  qs_offset : Z;
  qs_relDepth : Z;
  qs_orders : list string;
  qs_orm : ormBase
}.

(** ** The world and the trace

    Every call that leaves the session layer is recorded, in order, in a
    trace; the trace is ghost state that the calls themselves cannot see. *)
Inductive event :=
| EvRead (q : dbQuerier) (mi : modelInfo) (ind : rvalue) (cols : list string)
         (isForUpdate : bool)
| EvInsert (q : dbQuerier) (mi : modelInfo) (ind : rvalue)
| EvInsertMulti (q : dbQuerier) (mi : modelInfo) (sind : rvalue) (bulk : Z)
| EvInsertOrUpdate (q : dbQuerier) (mi : modelInfo) (ind : rvalue) (args : list string)
| EvUpdate (q : dbQuerier) (mi : modelInfo) (ind : rvalue) (cols : list string)
| EvDelete (q : dbQuerier) (mi : modelInfo) (ind : rvalue) (cols : list string)
| EvBeginTx (q : dbQuerier) (ctx : context) (opts : option TxOptions)
| EvCommit (q : dbQuerier)
| EvRollback (q : dbQuerier)
| EvOne (qs : querySet) (container : value)
| EvAll (qs : querySet) (container : value)
| EvLogError (format : string) (e : error) (panicked : bool).

Record world := { w_db : DB; w_heap : heap; w_trace : list event }.

Definition M (A : Type) : Type := world → outcome A * world.

Definition m_ret {A} (a : A) : M A := fun w => (Ret a, w).
Definition m_panic {A} (p : panic_value) : M A := fun w => (Panic p, w).
Definition m_timeout {A} : M A := fun w => (Timeout, w).
Definition m_lift {A} (o : outcome A) : M A := fun w => (o, w).

Definition m_bind {A B} (c : M A) (k : A → M B) : M B :=
  fun w =>
    match c w with
    | (Ret a, w') => k a w'
    | (Panic p, w') => (Panic p, w')
    | (Timeout, w') => (Timeout, w')
    end.

Definition m_heap : M heap := fun w => (Ret (w_heap w), w).

Definition m_set_heap (h : heap) : M unit :=
  fun w => (Ret tt, {| w_db := w_db w; w_heap := h; w_trace := w_trace w |}).

Definition emit (e : event) : M unit :=
  fun w => (Ret tt, {| w_db := w_db w; w_heap := w_heap w; w_trace := w_trace w ++ [e] |}).

(** An outside call: the event is recorded, then the call runs. *)
Definition call {A} (e : event) (f : ext A) : M A :=
  fun w =>
    let '(r, d, h) := f (w_db w) (w_heap w) in
    (r, {| w_db := d; w_heap := h; w_trace := w_trace w ++ [e] |}).

(** [defer]: the deferred call runs when the body returns or panics and
    sees which of the two happened; the body's return value, or its panic,
    then goes on to the caller unless the deferred call itself panics. *)
Definition m_defer {A} (body : M A) (deferred : outcome A → M unit) : M A :=
  fun w =>
    match body w with
    | (Timeout, w') => (Timeout, w')
    | (r, w') =>
        match deferred r w' with
        | (Ret _, w'') => (r, w'')
        | (Panic p, w'') => (Panic p, w'')
        | (Timeout, w'') => (Timeout, w'')
        end
    end.

End Session.

Notation "'let*' x ':=' c 'in' k" := (m_bind c (fun x => k))
  (at level 10, x name, c at level 100, k at level 200, only parsing).
Notation "'let*' ' p ':=' c 'in' k" := (m_bind c (fun x => match x with p => k end))
  (at level 10, p pattern, c at level 100, k at level 200, only parsing).

(** ** What the session layer uses from the rest of the package

    The registry: two maps from names to descriptors. *)
Record modelCacheT := {
  cache : gmap string modelInfo;
  cacheByFullName : gmap string modelInfo
}.

(** Modelled from the spec: [modelCache.get] and [modelCache.getByFullName],
    declared in another file of the package, are the lookup
    [Resolve(name) -> (ModelDescriptor, found)] of the schema registry. *)
Definition modelCache_get (mc : modelCacheT) (table : string) : option modelInfo :=
  cache mc !! table.

Definition modelCache_getByFullName (mc : modelCacheT) (name : string) : option modelInfo :=
  cacheByFullName mc !! name.

(** Constants, helpers and collaborators declared in other files of the
    package, under the names the source uses. *)
Class Package {PT : PackageTypes} := {
  modelCache : modelCacheT;
  getFullName : gtype → string;
  indirectType : option gtype → result gtype;
  nameStrategy : string → string;
  IsPositiveIntegerField : Z;
  RelForeignKey : Z;
  RelOneToOne : Z;
  RelManyToMany : Z;
  RelReverseOne : Z;
  RelReverseMany : Z;
  ExprSep : string;
  GetByAny : fieldsT → string → option fieldInfo;
  getExistPk : modelInfo → rvalue → heap → result bool;
  ToInt64 : value → result Z;
  Sprint : value → string;
  zeroValue : gtype → value;
  NewCondition : Condition;
  Condition_And : Condition → string → list value → Condition;
  newQuerySet : ormBase → option modelInfo → querySet;
  newQueryM2M : value → ormBase → modelInfo → fieldInfo → rvalue → QueryM2Mer;
  newRawSet : ormBase → string → list value → RawSeter;
  querySet_One : querySet → value → ext (option error);
  querySet_All : querySet → value → ext (Z * option error);
  as_txer : dbQuerier → option txer;
  as_txEnder : dbQuerier → option txEnder
}.

(** Package variables with the values the source gives them. *)
Definition DefaultRowsLimit : Z := -1.
Definition DefaultRelsDepth : Z := 2.

(** ** The functions of [orm.go] *)

Section Ormer.

Context {PT : PackageTypes} {PK : Package}.

Definition nil_dereference : panic_value :=
  PanicRuntime "invalid memory address or nil pointer dereference".

(** A field read through a descriptor pointer, which may be nil. *)
Definition deref {A B} (p : option A) (f : A → B) : outcome B :=
  match p with
  | Some x => Ret (f x)
  | None => Panic nil_dereference
  end.

Definition is_nil (err : option error) : bool :=
  match err with
  | None => true
  | Some _ => false
  end.

(** The calls [o.alias.DbBaser.X(o.db, ...)]. *)
Definition o_Read (o : ormBase) mi ind cols isForUpdate : M (option error) :=
  call (EvRead (db o) mi ind cols isForUpdate)
       (DbBaser_Read (DbBaser (ormBase_alias o)) (db o) mi ind
                     (TZ (alias_info (ormBase_alias o))) cols isForUpdate).

Definition o_Insert (o : ormBase) mi ind : M (Z * option error) :=
  call (EvInsert (db o) mi ind)
       (DbBaser_Insert (DbBaser (ormBase_alias o)) (db o) mi ind
                       (TZ (alias_info (ormBase_alias o)))).

Definition o_InsertMulti (o : ormBase) mi sind bulk : M (Z * option error) :=
  call (EvInsertMulti (db o) mi sind bulk)
       (DbBaser_InsertMulti (DbBaser (ormBase_alias o)) (db o) mi sind bulk
                            (TZ (alias_info (ormBase_alias o)))).

Definition o_InsertOrUpdate (o : ormBase) mi ind args : M (Z * option error) :=
  call (EvInsertOrUpdate (db o) mi ind args)
       (DbBaser_InsertOrUpdate (DbBaser (ormBase_alias o)) (db o) mi ind
                               (alias_info (ormBase_alias o)) args).

Definition o_Update (o : ormBase) mi ind cols : M (Z * option error) :=
  call (EvUpdate (db o) mi ind cols)
       (DbBaser_Update (DbBaser (ormBase_alias o)) (db o) mi ind
                       (TZ (alias_info (ormBase_alias o))) cols).

Definition o_Delete (o : ormBase) mi ind cols : M (Z * option error) :=
  call (EvDelete (db o) mi ind cols)
       (DbBaser_Delete (DbBaser (ormBase_alias o)) (db o) mi ind
                       (TZ (alias_info (ormBase_alias o))) cols).

(** get model info and model reflect value *)
Definition getMiInd (o : ormBase) (md : value) (needPtr : bool)
  : M (modelInfo * rvalue) :=
  let* h := m_heap in
  let val := reflect_ValueOf md in
  let ind := reflect_Indirect h val in
  let* typ := m_lift (rv_Type h ind) in
  if needPtr && negb (bool_decide (rv_Kind h val = Ptr)) then
    m_panic (PanicError (Errorf
      ("<Ormer> cannot use non-ptr model struct `" +:+ getFullName typ +:+ "`")))
  else
    let name := getFullName typ in
    match modelCache_getByFullName modelCache name with
    | Some mi => m_ret (mi, ind)
    | None =>
        m_panic (PanicError (Errorf
          ("<Ormer> table: `" +:+ name
           +:+ "` not found, make sure it was registered with `RegisterModel()`")))
    end.

(** get field info from model info by given field name *)
Definition getFieldInfo (o : ormBase) (mi : modelInfo) (name : string) : M fieldInfo :=
  match GetByAny (fields mi) name with
  | Some fi => m_ret fi
  | None =>
      m_panic (PanicError (Errorf
        ("<Ormer> cannot find field `" +:+ name +:+ "` for model `"
         +:+ fullName mi +:+ "`")))
  end.

(** read data to model *)
Definition ReadWithCtx (o : ormBase) (ctx : context) (md : value) (cols : list string)
  : M (option error) :=
  let* '(mi, ind) := getMiInd o md true in
  o_Read o mi ind cols false.

Definition Read (o : ormBase) (md : value) (cols : list string) : M (option error) :=
  ReadWithCtx o context_Background md cols.

(** read data to model, like Read(), but use "SELECT FOR UPDATE" form *)
Definition ReadForUpdateWithCtx (o : ormBase) (ctx : context) (md : value)
           (cols : list string) : M (option error) :=
  let* '(mi, ind) := getMiInd o md true in
  o_Read o mi ind cols true.

Definition ReadForUpdate (o : ormBase) (md : value) (cols : list string)
  : M (option error) :=
  ReadForUpdateWithCtx o context_Background md cols.

(** set auto pk field *)
Definition setPk (o : ormBase) (mi : modelInfo) (ind : rvalue) (id : Z) : M unit :=
  if auto (pk (fields mi)) then
    if Z.land (fieldType (pk (fields mi))) IsPositiveIntegerField >? 0 then
      let* h := m_heap in
      let* f := m_lift (rv_FieldByIndex h ind (fieldIndex (pk (fields mi)))) in
      let* h' := m_lift (rv_SetUint h f (to_uint64 id)) in
      m_set_heap h'
    else
      let* h := m_heap in
      let* f := m_lift (rv_FieldByIndex h ind (fieldIndex (pk (fields mi)))) in
      let* h' := m_lift (rv_SetInt h f id) in
      m_set_heap h'
  else m_ret tt.

(** insert model data to database *)
Definition InsertWithCtx (o : ormBase) (ctx : context) (md : value)
  : M (Z * option error) :=
  let* '(mi, ind) := getMiInd o md true in
  let* '(id, err) := o_Insert o mi ind in
  match err with
  | Some _ => m_ret (id, err)
  | None =>
      let* _ := setPk o mi ind id in
      m_ret (id, None)
  end.

Definition Insert (o : ormBase) (md : value) : M (Z * option error) :=
  InsertWithCtx o context_Background md.

(** Try to read a row from the database, or insert one if it doesn't exist.
    The call on the related record recurses; [fuel] bounds the depth. *)
Fixpoint ReadOrCreateWithCtx (fuel : nat) (o : ormBase) (ctx : context) (md : value)
         (col1 : string) (cols : list string) : M (bool * Z * option error) :=
  match fuel with
  | O => m_timeout
  | S fuel' =>
      let cols := col1 :: cols in
      let* '(mi, ind) := getMiInd o md true in
      let* err := o_Read o mi ind cols false in
      match err with
      | Some ErrNoRows =>
          (* Create *)
          let* '(id, err) := InsertWithCtx o ctx md in
          m_ret (is_nil err, id, err)
      | _ =>
          let* h := m_heap in
          let* vid := m_lift (rv_FieldByIndex h ind (fieldIndex (pk (fields mi)))) in
          if Z.land (fieldType (pk (fields mi))) IsPositiveIntegerField >? 0 then
            let* u := m_lift (rv_Uint h vid) in
            m_ret (false, to_int64 u, err)
          else if rel (pk (fields mi)) then
            let* v := m_lift (rv_Interface h vid) in
            match relModelInfo (pk (fields mi)) with
            | None => m_panic nil_dereference
            | Some rmi =>
                ReadOrCreateWithCtx fuel' o ctx v (name (pk (fields rmi))) []
            end
          else
            let* i := m_lift (rv_Int h vid) in
            m_ret (false, i, err)
      end
  end.

Definition ReadOrCreate (fuel : nat) (o : ormBase) (md : value) (col1 : string)
           (cols : list string) : M (bool * Z * option error) :=
  ReadOrCreateWithCtx fuel o context_Background md col1 cols.

(** insert some models to database.  The body of the one-by-one loop
    returns the error that ends the loop early, if any. *)
Definition InsertMulti_body (o : ormBase) (sind : rvalue) (i : nat) : M (option error) :=
  let* h := m_heap in
  let* e := m_lift (rv_Index h sind i) in
  let ind := reflect_Indirect h e in
  let* v := m_lift (rv_Interface h ind) in
  let* '(mi, _) := getMiInd o v false in
  let* '(id, err) := o_Insert o mi ind in
  match err with
  | Some e => m_ret (Some e)
  | None =>
      let* _ := setPk o mi ind id in
      m_ret None
  end.

(** [for i := 0; i < sind.Len(); i++]: the length is read again at every
    turn, so [fuel] bounds the number of turns. *)
Fixpoint InsertMulti_loop (fuel : nat) (o : ormBase) (sind : rvalue) (i : nat) (cnt : Z)
  : M (Z * option error) :=
  match fuel with
  | O => m_timeout
  | S fuel' =>
      let* h := m_heap in
      let* len := m_lift (rv_Len h sind) in
      if (i <? len)%nat then
        let* r := InsertMulti_body o sind i in
        match r with
        | Some err => m_ret (cnt, Some err)
        | None => InsertMulti_loop fuel' o sind (S i) (cnt + 1)
        end
      else m_ret (cnt, None)
  end.

(** The batched mode: one multi-row insert, for the descriptor of the first
    element. *)
Definition InsertMulti_batch (o : ormBase) (sind : rvalue) (bulk : Z)
  : M (Z * option error) :=
  let* h := m_heap in
  let* e := m_lift (rv_Index h sind 0%nat) in
  let* v := m_lift (rv_Interface h e) in
  let* '(mi, _) := getMiInd o v false in
  o_InsertMulti o mi sind bulk.

Definition InsertMultiWithCtx (fuel : nat) (o : ormBase) (ctx : context) (bulk : Z)
           (mds : value) : M (Z * option error) :=
  let cnt := 0 in
  let* h := m_heap in
  let sind := reflect_Indirect h (reflect_ValueOf mds) in
  match rv_Kind h sind with
  | Array | Slice =>
      let* len := m_lift (rv_Len h sind) in
      if (len =? 0)%nat then m_ret (cnt, Some ErrArgs)
      else if bulk <=? 1 then InsertMulti_loop fuel o sind 0%nat cnt
      else InsertMulti_batch o sind bulk
  | _ => m_ret (cnt, Some ErrArgs)
  end.

Definition InsertMulti (fuel : nat) (o : ormBase) (bulk : Z) (mds : value)
  : M (Z * option error) :=
  InsertMultiWithCtx fuel o context_Background bulk mds.

(** InsertOrUpdate data to database *)
Definition InsertOrUpdateWithCtx (o : ormBase) (ctx : context) (md : value)
           (colConflitAndArgs : list string) : M (Z * option error) :=
  let* '(mi, ind) := getMiInd o md true in
  let* '(id, err) := o_InsertOrUpdate o mi ind colConflitAndArgs in
  match err with
  | Some _ => m_ret (id, err)
  | None =>
      let* _ := setPk o mi ind id in
      m_ret (id, None)
  end.

Definition InsertOrUpdate (o : ormBase) (md : value) (colConflictAndArgs : list string)
  : M (Z * option error) :=
  InsertOrUpdateWithCtx o context_Background md colConflictAndArgs.

(** update model to database. cols set the columns those want to update. *)
Definition UpdateWithCtx (o : ormBase) (ctx : context) (md : value) (cols : list string)
  : M (Z * option error) :=
  let* '(mi, ind) := getMiInd o md true in
  o_Update o mi ind cols.

Definition Update (o : ormBase) (md : value) (cols : list string) : M (Z * option error) :=
  UpdateWithCtx o context_Background md cols.

(** delete model in database *)
Definition DeleteWithCtx (o : ormBase) (ctx : context) (md : value) (cols : list string)
  : M (Z * option error) :=
  let* '(mi, ind) := getMiInd o md true in
  let* '(num, err) := o_Delete o mi ind cols in
  match err with
  | Some _ => m_ret (num, err)
  | None =>
      let* _ := (if num >? 0 then setPk o mi ind 0 else m_ret tt) in
      m_ret (num, None)
  end.

Definition Delete (o : ormBase) (md : value) (cols : list string) : M (Z * option error) :=
  DeleteWithCtx o context_Background md cols.

(** create a models to models queryer *)
Definition QueryM2MWithCtx (o : ormBase) (ctx : context) (md : value) (fname : string)
  : M QueryM2Mer :=
  let* '(mi, ind) := getMiInd o md true in
  let* fi := getFieldInfo o mi fname in
  let not_m2m : M QueryM2Mer :=
    m_panic (PanicError (Errorf
      ("<Ormer.QueryM2M> model `" +:+ name fi +:+ "` . name `"
       +:+ fullName mi +:+ "` is not a m2m field"))) in
  if fieldType fi =? RelManyToMany then
    m_ret (newQueryM2M md o mi fi ind)
  else if fieldType fi =? RelReverseMany then
    let* through :=
      m_lift (try rmi := deref (reverseFieldInfo fi) fi_mi in deref rmi isThrough) in
    if through then m_ret (newQueryM2M md o mi fi ind) else not_m2m
  else not_m2m.

Definition QueryM2M (o : ormBase) (md : value) (name : string) : M QueryM2Mer :=
  QueryM2MWithCtx o context_Background md name.

(** [q.cond = c] *)
Definition set_cond (q : querySet) (c : Condition) : querySet :=
  {| qs_mi := qs_mi q; qs_cond := Some c; qs_limit := qs_limit q;
     qs_offset := qs_offset q; qs_relDepth := qs_relDepth q;
     qs_orders := qs_orders q; qs_orm := qs_orm q |}.

(** get reverse relation QuerySeter *)
Definition getReverseQs (o : ormBase) (md : value) (mi : modelInfo) (fi : fieldInfo)
  : outcome querySet :=
  if (fieldType fi =? RelReverseOne) || (fieldType fi =? RelReverseMany) then
    try through :=
      (if fieldType fi =? RelReverseMany then
         try rmi := deref (reverseFieldInfo fi) fi_mi in
         deref rmi isThrough
       else Ret false) in
    if through then
      let q := newQuerySet o (relModelInfo fi) in
      try c1 := deref (reverseFieldInfoM2M fi) column in
      try c2 := deref (reverseFieldInfo fi) column in
      Ret (set_cond q (Condition_And NewCondition (c1 +:+ ExprSep +:+ c2) [md]))
    else
      try rmi := deref (reverseFieldInfo fi) fi_mi in
      let q := newQuerySet o rmi in
      try c := deref (reverseFieldInfo fi) column in
      Ret (set_cond q (Condition_And NewCondition c [md]))
  else
    Panic (PanicError (Errorf
      ("<Ormer> name `" +:+ name fi +:+ "` for model `" +:+ fullName mi
       +:+ "` is not an available reverse field"))).

(** get relation QuerySeter *)
Definition getRelQs (o : ormBase) (md : value) (mi : modelInfo) (fi : fieldInfo)
  : outcome querySet :=
  if (fieldType fi =? RelOneToOne) || (fieldType fi =? RelForeignKey)
     || (fieldType fi =? RelManyToMany) then
    let q := set_cond (newQuerySet o (relModelInfo fi)) NewCondition in
    if fieldType fi =? RelManyToMany then
      try c1 := deref (reverseFieldInfoM2M fi) column in
      try c2 := deref (reverseFieldInfo fi) column in
      Ret (set_cond q (Condition_And NewCondition (c1 +:+ ExprSep +:+ c2) [md]))
    else
      try c := deref (reverseFieldInfo fi) column in
      Ret (set_cond q (Condition_And NewCondition c [md]))
  else
    Panic (PanicError (Errorf
      ("<Ormer> name `" +:+ name fi +:+ "` for model `" +:+ fullName mi
       +:+ "` is not an available rel field"))).

(** get QuerySeter for related models to md model *)
Definition queryRelated (o : ormBase) (md : value) (fname : string)
  : M (modelInfo * fieldInfo * rvalue * querySet) :=
  let* '(mi, ind) := getMiInd o md true in
  let* fi := getFieldInfo o mi fname in
  let* h := m_heap in
  let* exist := m_lift (of_result (getExistPk mi ind h)) in
  if negb exist then m_panic (PanicError ErrMissPK)
  else
    let* qs :=
      m_lift
        (if (fieldType fi =? RelOneToOne) || (fieldType fi =? RelForeignKey)
            || (fieldType fi =? RelManyToMany) then
           if negb (inModel fi) then Ret None
           else try q := getRelQs o md mi fi in Ret (Some q)
         else if (fieldType fi =? RelReverseOne) || (fieldType fi =? RelReverseMany) then
           if negb (inModel fi) then Ret None
           else try q := getReverseQs o md mi fi in Ret (Some q)
         else Ret None) in
    match qs with
    | None =>
        m_panic (PanicError (Errorf
          ("<Ormer> name `" +:+ Sprint md +:+ "` for model `" +:+ fname
           +:+ "` is not an available rel/reverse field")))
    | Some qs => m_ret (mi, fi, ind, qs)
    end.

(** return a QuerySeter for related models to md model. *)
Definition QueryRelatedWithCtx (o : ormBase) (ctx : context) (md : value) (fname : string)
  : M querySet :=
  (* is this api needed ? *)
  let* '(_, _, _, qs) := queryRelated o md fname in
  m_ret qs.

Definition QueryRelated (o : ormBase) (md : value) (fname : string) : M querySet :=
  QueryRelatedWithCtx o context_Background md fname.

(** [reflect.New(t)]: a pointer to fresh storage holding the zero value. *)
Definition reflect_New (t : gtype) : M value :=
  fun w =>
    let l := fresh (dom (w_heap w)) in
    (Ret (VPtr t (Some (l, []))),
     {| w_db := w_db w; w_heap := <[l:=zeroValue t]> (w_heap w); w_trace := w_trace w |}).

(** The variables that the optional arguments of [LoadRelated] set. *)
Record loadArgs := {
  la_relDepth : Z;
  la_limit : Z;
  la_offset : Z;
  la_order : string
}.

Definition LoadRelated_arg (i : nat) (arg : value) (st : loadArgs) : outcome loadArgs :=
  match i with
  | 0%nat =>
      match arg with
      | VBool v =>
          if v then
            Ret {| la_relDepth := DefaultRelsDepth; la_limit := la_limit st;
                   la_offset := la_offset st; la_order := la_order st |}
          else Ret st
      | VInt SzWord v =>
          Ret {| la_relDepth := v; la_limit := la_limit st;
                 la_offset := la_offset st; la_order := la_order st |}
      | _ => Ret st
      end
  | 1%nat =>
      try n := of_result (ToInt64 arg) in
      Ret {| la_relDepth := la_relDepth st; la_limit := n;
             la_offset := la_offset st; la_order := la_order st |}
  | 2%nat =>
      try n := of_result (ToInt64 arg) in
      Ret {| la_relDepth := la_relDepth st; la_limit := la_limit st;
             la_offset := n; la_order := la_order st |}
  | 3%nat =>
      Ret {| la_relDepth := la_relDepth st; la_limit := la_limit st;
             la_offset := la_offset st;
             la_order := match arg with VString s => s | _ => "" end |}
  | _ => Ret st
  end.

Fixpoint LoadRelated_args (i : nat) (args : list value) (st : loadArgs)
  : outcome loadArgs :=
  match args with
  | [] => Ret st
  | arg :: rest =>
      try st' := LoadRelated_arg i arg st in
      LoadRelated_args (S i) rest st'
  end.

(** [case RelOneToOne, RelForeignKey, RelReverseOne] *)
Definition is_to_one (t : Z) : bool :=
  (t =? RelOneToOne) || (t =? RelForeignKey) || (t =? RelReverseOne).

Definition rv_Addr (h : heap) (rv : rvalue) : outcome value :=
  match rv with
  | RAddr a =>
      try t := rv_Type h rv in Ret (VPtr t (Some a))
  | _ => Panic (PanicRuntime "reflect.Value.Addr of unaddressable value")
  end.

(** load related models to md model.
    args are limit, offset int and order string. *)
Definition LoadRelatedWithCtx (o : ormBase) (ctx : context) (md : value) (fname : string)
           (args : list value) : M (Z * option error) :=
  let* '(_, fi, ind, qs) := queryRelated o md fname in
  let* a := m_lift (LoadRelated_args 0 args
                      {| la_relDepth := 0; la_limit := 0; la_offset := 0; la_order := "" |}) in
  let limit := if is_to_one (fieldType fi) then 1 else la_limit a in
  let offset := if is_to_one (fieldType fi) then 0 else la_offset a in
  let qs := {| qs_mi := qs_mi qs; qs_cond := qs_cond qs;
               qs_limit := limit; qs_offset := offset; qs_relDepth := la_relDepth a;
               qs_orders := if (0 <? String.length (la_order a))%nat
                            then [la_order a] else qs_orders qs;
               qs_orm := qs_orm qs |} in
  let* h := m_heap in
  let* find := m_lift (rv_FieldByIndex h ind (fieldIndex fi)) in
  if is_to_one (fieldType fi) then
    let* ft := m_lift (rv_Type h find) in
    let* et := m_lift (type_Elem ft) in
    let* val := reflect_New et in
    let container := val in
    let* err := call (EvOne qs container) (querySet_One qs container) in
    match err with
    | None =>
        let* h := m_heap in
        let* h' := m_lift (rv_Set h find val) in
        let* _ := m_set_heap h' in
        m_ret (1, None)
    | Some _ => m_ret (0, err)
    end
  else
    let* container := m_lift (rv_Addr h find) in
    call (EvAll qs container) (querySet_All qs container).

Definition LoadRelated (o : ormBase) (md : value) (fname : string) (args : list value)
  : M (Z * option error) :=
  LoadRelatedWithCtx o context_Background md fname args.

(** return a QuerySeter for table operations.
    table name can be string or struct. *)
Definition QueryTableWithCtx (o : ormBase) (ctx : context) (ptrStructOrTableName : value)
  : M querySet :=
  let not_exists (name : string) : M querySet :=
    m_panic (PanicError (Errorf
      ("<Ormer.QueryTable> table name: `" +:+ name +:+ "` not exists"))) in
  match ptrStructOrTableName with
  | VString table =>
      let name := nameStrategy table in
      match modelCache_get modelCache name with
      | Some mi => m_ret (newQuerySet o (Some mi))
      | None => not_exists name
      end
  | _ =>
      let* typ := m_lift (of_result (indirectType (type_of ptrStructOrTableName))) in
      let name := getFullName typ in
      match modelCache_getByFullName modelCache name with
      | Some mi => m_ret (newQuerySet o (Some mi))
      | None => not_exists name
      end
  end.

Definition QueryTable (o : ormBase) (ptrStructOrTableName : value) : M querySet :=
  QueryTableWithCtx o context_Background ptrStructOrTableName.

(** return a raw query seter for raw sql string. *)
Definition RawWithCtx (o : ormBase) (ctx : context) (query : string) (args : list value)
  : RawSeter :=
  newRawSet o query args.

Definition Raw (o : ormBase) (query : string) (args : list value) : RawSeter :=
  RawWithCtx o context_Background query args.

(** ** Transactions *)

Definition BeginWithCtxAndOpts (o : orm) (ctx : context) (opts : option TxOptions)
  : M (txOrm + error) :=
  match as_txer (db (orm_ormBase o)) with
  | None =>
      m_panic (PanicRuntime "interface conversion: orm.dbQuerier is not orm.txer")
  | Some t =>
      let* '(tx, err) := call (EvBeginTx (db (orm_ormBase o)) ctx opts) (BeginTx t ctx opts) in
      match err with
      | Some e => m_ret (inr e)
      | None =>
          m_ret (inl {| txOrm_ormBase :=
                          {| ormBase_alias := ormBase_alias (orm_ormBase o);
                             db := TxDB tx |} |})
      end
  end.

Definition BeginWithCtx (o : orm) (ctx : context) : M (txOrm + error) :=
  BeginWithCtxAndOpts o ctx None.

Definition Begin (o : orm) : M (txOrm + error) :=
  BeginWithCtx o context_Background.

Definition BeginWithOpts (o : orm) (opts : option TxOptions) : M (txOrm + error) :=
  BeginWithCtxAndOpts o context_Background opts.

Definition Commit (t : txOrm) : M (option error) :=
  match as_txEnder (db (txOrm_ormBase t)) with
  | None =>
      m_panic (PanicRuntime "interface conversion: orm.dbQuerier is not orm.txEnder")
  | Some e => call (EvCommit (db (txOrm_ormBase t))) (txEnder_Commit e)
  end.

Definition Rollback (t : txOrm) : M (option error) :=
  match as_txEnder (db (txOrm_ormBase t)) with
  | None =>
      m_panic (PanicRuntime "interface conversion: orm.dbQuerier is not orm.txEnder")
  | Some e => call (EvRollback (db (txOrm_ormBase t))) (txEnder_Rollback e)
  end.

(** [logs.Error(format, e, panicked)] *)
Definition logs_Error (format : string) (e : error) (panicked : bool) : M unit :=
  emit (EvLogError format e panicked).

Definition DoTxWithCtxAndOpts (o : orm) (ctx : context) (opts : option TxOptions)
           (task : txOrm → M (option error)) : M (option error) :=
  let* b := BeginWithCtxAndOpts o ctx opts in
  match b with
  | inr err => m_ret (Some err)
  | inl _txOrm =>
      m_defer
        (task _txOrm)
        (fun r =>
           let panicked := match r with Ret _ => false | _ => true end in
           let err := match r with Ret err => err | _ => None end in
           if panicked || negb (is_nil err) then
             let* e := Rollback _txOrm in
             match e with
             | Some e => logs_Error "rollback transaction failed: %v,%v" e panicked
             | None => m_ret tt
             end
           else
             let* e := Commit _txOrm in
             match e with
             | Some e => logs_Error "commit transaction failed: %v,%v" e panicked
             | None => m_ret tt
             end)
  end.

Definition DoTxWithCtx (o : orm) (ctx : context) (task : txOrm → M (option error))
  : M (option error) :=
  DoTxWithCtxAndOpts o ctx None task.

Definition DoTx (o : orm) (task : txOrm → M (option error)) : M (option error) :=
  DoTxWithCtx o context_Background task.

Definition DoTxWithOpts (o : orm) (opts : option TxOptions)
           (task : txOrm → M (option error)) : M (option error) :=
  DoTxWithCtxAndOpts o context_Background opts task.

End Ormer.

(** ** A small instance

    An in-memory database of rows [(model, id)] behind a dialect adapter that
    hands out consecutive identities and has room for two rows, with three
    registered models: [main.User] (automatic signed identity and a one-to-one
    relation to a profile), [main.Profile] (automatic unsigned 32-bit
    identity) and [main.Badge], whose primary key is its relation to a
    profile. *)
Module Toy.

#[export] Instance types : PackageTypes := {|
  DB := list (string * Z);
  Condition := list (string * list value);
  QueryM2Mer := unit;
  RawSeter := unit
|}.

Definition TypeIntegerField : Z := 512.
Definition TypePositiveIntegerField : Z := 8192.

Definition has_row (n : string) (d : list (string * Z)) : bool :=
  existsb (fun r => String.eqb (fst r) n) d.

Definition capacity : nat := 2.

Definition memInsert (mi : modelInfo) : ext (Z * option error) :=
  fun d h =>
    if (length d <? capacity)%nat then
      let id := Z.of_nat (length d) + 1 in
      (Ret (id, None), d ++ [(fullName mi, id)], h)
    else (Ret (0, Some (Errorf "UNIQUE constraint failed")), d, h).

Definition memDb : dbBaser := {|
  DbBaser_Read := fun _ mi _ _ _ _ => fun d h =>
    (Ret (if has_row (fullName mi) d then None else Some ErrNoRows), d, h);
  DbBaser_Insert := fun _ mi _ _ => memInsert mi;
  DbBaser_InsertMulti := fun _ mi sind _ _ => fun d h =>
    match rv_Len h sind with
    | Ret n => (Ret (Z.of_nat n, None), d ++ repeat (fullName mi, 0) n, h)
    | _ => (Ret (0, Some ErrArgs), d, h)
    end;
  DbBaser_InsertOrUpdate := fun _ mi _ _ _ => memInsert mi;
  DbBaser_Update := fun _ mi _ _ _ => fun d h =>
    (Ret (if has_row (fullName mi) d then 1 else 0, None), d, h);
  DbBaser_Delete := fun _ mi _ _ _ => fun d h =>
    (Ret (Z.of_nat (length (filter (fun r => fst r = fullName mi) d)), None),
     filter (fun r => fst r ≠ fullName mi) d, h)
|}.

Definition profilePk : fieldInfo := {|
  name := "Id"; column := "id"; fieldType := TypePositiveIntegerField;
  fieldIndex := [0%nat]; auto := true; rel := false; inModel := true;
  relModelInfo := None; reverseFieldInfo := None; reverseFieldInfoM2M := None;
  fi_mi := None
|}.

Definition profileMi : modelInfo := {|
  fullName := "main.Profile"; table := "profile"; isThrough := false;
  fields := {| pk := profilePk; columns := [profilePk] |}
|}.

Definition userPk : fieldInfo := {|
  name := "Id"; column := "id"; fieldType := TypeIntegerField;
  fieldIndex := [0%nat]; auto := true; rel := false; inModel := true;
  relModelInfo := None; reverseFieldInfo := None; reverseFieldInfoM2M := None;
  fi_mi := None
|}.

Definition RelOneToOne_ : Z := 1048576.

Definition userProfile : fieldInfo := {|
  name := "Profile"; column := "profile_id"; fieldType := RelOneToOne_;
  fieldIndex := [2%nat]; auto := false; rel := true; inModel := true;
  relModelInfo := Some profileMi; reverseFieldInfo := Some profilePk;
  reverseFieldInfoM2M := None; fi_mi := None
|}.

Definition userMi : modelInfo := {|
  fullName := "main.User"; table := "user"; isThrough := false;
  fields := {| pk := userPk; columns := [userPk; userProfile] |}
|}.

Definition badgePk : fieldInfo := {|
  name := "Owner"; column := "owner_id"; fieldType := RelOneToOne_;
  fieldIndex := [0%nat]; auto := false; rel := true; inModel := true;
  relModelInfo := Some profileMi; reverseFieldInfo := Some profilePk;
  reverseFieldInfoM2M := None; fi_mi := None
|}.

Definition badgeMi : modelInfo := {|
  fullName := "main.Badge"; table := "badge"; isThrough := false;
  fields := {| pk := badgePk; columns := [badgePk] |}
|}.

Definition registry : modelCacheT := {|
  cache := <["user" := userMi]> (<["profile" := profileMi]> (<["badge" := badgeMi]> ∅));
  cacheByFullName :=
    <["main.User" := userMi]>
      (<["main.Profile" := profileMi]> (<["main.Badge" := badgeMi]> ∅))
|}.

Fixpoint strip_pointers (t : gtype) : gtype :=
  match t with
  | TPtr e => strip_pointers e
  | _ => t
  end.

#[export] Instance package : Package := {|
  modelCache := registry;
  getFullName := fun t => match t with TStruct n => n | _ => "." end;
  indirectType := fun t =>
    match t with
    | Some t => inl (strip_pointers t)
    | None => inr nil_dereference
    end;
  nameStrategy := fun s => s;
  IsPositiveIntegerField := 30720;
  RelForeignKey := 524288;
  RelOneToOne := RelOneToOne_;
  RelManyToMany := 2097152;
  RelReverseOne := 4194304;
  RelReverseMany := 8388608;
  ExprSep := "__";
  GetByAny := fun fs n => List.find (fun fi => String.eqb (name fi) n) (columns fs);
  getExistPk := fun _ _ _ => inl true;
  ToInt64 := fun v =>
    match v with
    | VInt _ n => inl n
    | VUint _ n => inl (to_int64 n)
    | _ => inr (PanicError (Errorf "ToInt64 need numeric"))
    end;
  Sprint := fun _ => "%!s";
  zeroValue := fun t =>
    match t with
    | TStruct "main.Profile" => VStruct "main.Profile" [VUint Sz32 0]
    | TStruct n => VStruct n []
    | TPtr e => VPtr e None
    | TInt s => VInt s 0
    | TUint s => VUint s 0
    | TString => VString ""
    | TBool => VBool false
    | TSlice e => VSlice e []
    | TArray _ e => VArray e []
    end;
  NewCondition := [];
  Condition_And := fun c e args => c ++ [(e, args)];
  newQuerySet := fun o mi =>
    {| qs_mi := mi; qs_cond := None; qs_limit := 0; qs_offset := 0;
       qs_relDepth := 0; qs_orders := []; qs_orm := o |};
  newQueryM2M := fun _ _ _ _ _ => tt;
  newRawSet := fun _ _ _ => tt;
  querySet_One := fun qs _ => fun d h =>
    (Ret (match qs_mi qs with
          | Some mi => if has_row (fullName mi) d then None else Some ErrNoRows
          | None => Some ErrNoRows
          end), d, h);
  querySet_All := fun _ _ => fun d h => (Ret (0, None), d, h);
  as_txer := fun q =>
    match q with
    | TxDB _ => None
    | _ => Some {| BeginTx := fun ctx _ => fun d h =>
                     match ctx_Err ctx with
                     | Some e => (Ret (0%nat, Some e), d, h)
                     | None => (Ret (7%nat, None), d, h)
                     end |}
    end;
  as_txEnder := fun q =>
    match q with
    | TxDB tx =>
        Some {| txEnder_Commit := fun d h => (Ret None, d, h);
                txEnder_Rollback := fun d h => (Ret (Some ErrTxDone), d, h) |}
    | _ => None
    end
|}.

Definition al : alias := {|
  alias_info := {| Name := "default"; DriverName := "sqlite3"; TZ := "UTC" |};
  DbBaser := memDb
|}.

Definition o : ormBase := {| ormBase_alias := al; db := SqlDB 0 |}.
Definition session : orm := {| orm_ormBase := o |}.

(** The caller's memory: a user at 1, a profile at 2, a badge at 3 that
    points to the profile, a second user at 4 and a backing array of three
    users at 5. *)
Definition user (id : Z) (n : string) : value :=
  VStruct "main.User" [VInt SzWord id; VString n; VPtr (TStruct "main.Profile") None].

Definition mem : heap :=
  <[1%positive := user 0 "slene"]>
    (<[2%positive := VStruct "main.Profile" [VUint Sz32 0]]>
       (<[3%positive := VStruct "main.Badge" [VPtr (TStruct "main.Profile") (Some (2%positive, []))]]>
          (<[4%positive := user 0 "astaxie"]>
             (<[5%positive := VArray (TStruct "main.User")
                                [user 0 "a"; user 0 "b"; user 0 "c"]]> ∅)))).

Definition ptr (n : string) (l : loc) : value := VPtr (TStruct n) (Some (l, [])).

Definition world_of (d : list (string * Z)) (h : heap) (tr : list (@event types))
  : @world types :=
  {| w_db := d; w_heap := h; w_trace := tr |}.

Definition w0 : world := world_of [] mem [].

End Toy.

(** * Properties *)

(** ** Context-free and context-accepting variants *)

(** The context-free variant as the specification describes it: the
    context-accepting operation at the background, never-cancel context. *)
Definition at_background {X : Type} (op : context → X) : X := op Background.

(** What the specification asks of a context-accepting operation: invoked
    with a context that is canceled or past its deadline, it returns that
    context's failure to the caller. *)
Definition surfaces_cancellation {PT : PackageTypes} {A : Type}
           (failure : A → option error) (op : context → M A) : Prop :=
  ∀ ctx e w, ctx_Err ctx = Some e →
             ∃ a w', op ctx w = (Ret a, w') ∧ failure a = Some e.

Section Contexts.

Context {PT : PackageTypes} {PK : Package}.

(** C6: every context-free operation is its context-accepting variant
    applied to the background context and the same remaining arguments. *)
Theorem context_free_is_background :
  (∀ o md cols, Read o md cols = at_background (fun ctx => ReadWithCtx o ctx md cols))
  ∧ (∀ o md cols,
       ReadForUpdate o md cols = at_background (fun ctx => ReadForUpdateWithCtx o ctx md cols))
  ∧ (∀ fuel o md col1 cols,
       ReadOrCreate fuel o md col1 cols
       = at_background (fun ctx => ReadOrCreateWithCtx fuel o ctx md col1 cols))
  ∧ (∀ o md, Insert o md = at_background (fun ctx => InsertWithCtx o ctx md))
  ∧ (∀ fuel o bulk mds,
       InsertMulti fuel o bulk mds
       = at_background (fun ctx => InsertMultiWithCtx fuel o ctx bulk mds))
  ∧ (∀ o md args,
       InsertOrUpdate o md args = at_background (fun ctx => InsertOrUpdateWithCtx o ctx md args))
  ∧ (∀ o md cols, Update o md cols = at_background (fun ctx => UpdateWithCtx o ctx md cols))
  ∧ (∀ o md cols, Delete o md cols = at_background (fun ctx => DeleteWithCtx o ctx md cols))
  ∧ (∀ o md fname,
       QueryM2M o md fname = at_background (fun ctx => QueryM2MWithCtx o ctx md fname))
  ∧ (∀ o md fname args,
       LoadRelated o md fname args
       = at_background (fun ctx => LoadRelatedWithCtx o ctx md fname args))
  ∧ (∀ o md fname,
       QueryRelated o md fname = at_background (fun ctx => QueryRelatedWithCtx o ctx md fname))
  ∧ (∀ o t, QueryTable o t = at_background (fun ctx => QueryTableWithCtx o ctx t))
  ∧ (∀ o query args, Raw o query args = at_background (fun ctx => RawWithCtx o ctx query args))
  ∧ (∀ o, Begin o = at_background (fun ctx => BeginWithCtx o ctx))
  ∧ (∀ o opts,
       BeginWithOpts o opts = at_background (fun ctx => BeginWithCtxAndOpts o ctx opts))
  ∧ (∀ o task, DoTx o task = at_background (fun ctx => DoTxWithCtx o ctx task))
  ∧ (∀ o opts task,
       DoTxWithOpts o opts task
       = at_background (fun ctx => DoTxWithCtxAndOpts o ctx opts task)).
Proof. repeat split. Qed.

Lemma ReadOrCreateWithCtx_ctx fuel :
  ∀ o ctx md col1 cols w,
    ReadOrCreateWithCtx fuel o ctx md col1 cols w
    = ReadOrCreateWithCtx fuel o Background md col1 cols w.
Proof.
  induction fuel as [|fuel IH]; intros o ctx md col1 cols w; [reflexivity|].
  cbn [ReadOrCreateWithCtx]. unfold m_bind.
  destruct (getMiInd o md true w) as [[[mi ind]| |] w1]; try reflexivity.
  destruct (o_Read o mi ind (col1 :: cols) false w1) as [[err| |] w2]; try reflexivity.
  assert (Hfound :
    ∀ e : option error,
      (let* h := m_heap in
       let* vid := m_lift (rv_FieldByIndex h ind (fieldIndex (pk (fields mi)))) in
       if Z.land (fieldType (pk (fields mi))) IsPositiveIntegerField >? 0 then
         let* u := m_lift (rv_Uint h vid) in m_ret (false, to_int64 u, e)
       else if rel (pk (fields mi)) then
         let* v := m_lift (rv_Interface h vid) in
         match relModelInfo (pk (fields mi)) with
         | None => m_panic nil_dereference
         | Some rmi => ReadOrCreateWithCtx fuel o ctx v (name (pk (fields rmi))) []
         end
       else let* i := m_lift (rv_Int h vid) in m_ret (false, i, e)) w2
      =
      (let* h := m_heap in
       let* vid := m_lift (rv_FieldByIndex h ind (fieldIndex (pk (fields mi)))) in
       if Z.land (fieldType (pk (fields mi))) IsPositiveIntegerField >? 0 then
         let* u := m_lift (rv_Uint h vid) in m_ret (false, to_int64 u, e)
       else if rel (pk (fields mi)) then
         let* v := m_lift (rv_Interface h vid) in
         match relModelInfo (pk (fields mi)) with
         | None => m_panic nil_dereference
         | Some rmi => ReadOrCreateWithCtx fuel o Background v (name (pk (fields rmi))) []
         end
       else let* i := m_lift (rv_Int h vid) in m_ret (false, i, e)) w2).
  { intros e. unfold m_bind, m_heap, m_lift.
    destruct (rv_FieldByIndex _ _ _); try reflexivity.
    destruct (_ >? 0); try reflexivity.
    destruct (rel _); try reflexivity.
    destruct (rv_Interface _ _); try reflexivity.
    destruct (relModelInfo _); try reflexivity. apply IH. }
  unfold m_bind in Hfound.
  destruct err as [[]|]; try apply Hfound. reflexivity.
Qed.

(** C7, as the code has it: the context handed to a context-accepting
    read, write or query operation is not consulted; with any context, also
    one that is canceled or past its deadline, the operation runs and
    returns exactly as with the background context. *)
Theorem WithCtx_ignores_context :
  ∀ (ctx : context) (o : ormBase) (w : world),
    (∀ md cols, ReadWithCtx o ctx md cols w = ReadWithCtx o Background md cols w)
    ∧ (∀ md cols,
         ReadForUpdateWithCtx o ctx md cols w = ReadForUpdateWithCtx o Background md cols w)
    ∧ (∀ fuel md col1 cols,
         ReadOrCreateWithCtx fuel o ctx md col1 cols w
         = ReadOrCreateWithCtx fuel o Background md col1 cols w)
    ∧ (∀ md, InsertWithCtx o ctx md w = InsertWithCtx o Background md w)
    ∧ (∀ fuel bulk mds,
         InsertMultiWithCtx fuel o ctx bulk mds w
         = InsertMultiWithCtx fuel o Background bulk mds w)
    ∧ (∀ md args,
         InsertOrUpdateWithCtx o ctx md args w = InsertOrUpdateWithCtx o Background md args w)
    ∧ (∀ md cols, UpdateWithCtx o ctx md cols w = UpdateWithCtx o Background md cols w)
    ∧ (∀ md cols, DeleteWithCtx o ctx md cols w = DeleteWithCtx o Background md cols w)
    ∧ (∀ md fname, QueryM2MWithCtx o ctx md fname w = QueryM2MWithCtx o Background md fname w)
    ∧ (∀ md fname args,
         LoadRelatedWithCtx o ctx md fname args w
         = LoadRelatedWithCtx o Background md fname args w)
    ∧ (∀ md fname,
         QueryRelatedWithCtx o ctx md fname w = QueryRelatedWithCtx o Background md fname w)
    ∧ (∀ t, QueryTableWithCtx o ctx t w = QueryTableWithCtx o Background t w)
    ∧ (∀ query args, RawWithCtx o ctx query args = RawWithCtx o Background query args).
Proof.
  intros ctx o w. repeat split; intros; try reflexivity.
  apply ReadOrCreateWithCtx_ctx.
Qed.

End Contexts.

(** C7 as the specification states it fails: a read through [ReadWithCtx]
    with a canceled context, of a row that is there, returns no error. *)
Lemma ReadWithCtx_canceled_context_succeeds :
  ¬ surfaces_cancellation (fun err : option error => err)
      (fun ctx => ReadWithCtx (PK := Toy.package) Toy.o ctx
                    (Toy.ptr "main.User" 1%positive) []).
Proof.
  intros H.
  destruct (H (WithCancel Background true) ctx_Canceled
              (Toy.world_of [("main.User", 1)] Toy.mem [])
              eq_refl) as (a & w' & Hrun & Hfail).
  vm_compute in Hrun. injection Hrun as Ha _. rewrite <- Ha in Hfail. discriminate Hfail.
Qed.

(** ** Transactions *)

(** Whether the task's outcome counts as a failure, and whether it is a
    panic. *)
Definition task_failed (r : outcome (option error)) : bool :=
  match r with
  | Ret None => false
  | _ => true
  end.

Definition task_panicked (r : outcome (option error)) : bool :=
  match r with
  | Ret _ => false
  | _ => true
  end.

Section Transactions.

Context {PT : PackageTypes} {PK : Package}.

(** The call that ends the transaction, the event it leaves in the trace and
    the log entry of its error, if it has one. *)
Definition ending (te : txEnder) (r : outcome (option error)) : ext (option error) :=
  if task_failed r then txEnder_Rollback te else txEnder_Commit te.

Definition ending_event (q : dbQuerier) (r : outcome (option error)) : event :=
  if task_failed r then EvRollback q else EvCommit q.

Definition ending_log (r : outcome (option error)) (e : option error) : list event :=
  match e with
  | Some e =>
      [EvLogError (if task_failed r then "rollback transaction failed: %v,%v"
                   else "commit transaction failed: %v,%v")
                  e (task_panicked r)]
  | None => []
  end.

(** C1: once the transaction is open and the task has returned or panicked,
    the transaction is rolled back if the task returned an error or
    panicked and committed if it returned nil; what the caller gets is the
    task's own outcome (its error, its panic, or nil), and an error of the
    rollback or commit only adds a log entry.  [DoTx], [DoTxWithCtx] and
    [DoTxWithOpts] are this function at the background context and without
    options. *)
Theorem DoTx_rolls_back_or_commits :
  ∀ (o : orm) (ctx : context) (opts : option TxOptions)
    (task : txOrm → M (option error)) (w w1 w2 : world) (t : txOrm)
    (r : outcome (option error)) (te : txEnder) (e : option error) (d : DB) (h : heap),
    BeginWithCtxAndOpts o ctx opts w = (Ret (inl t), w1) →
    task t w1 = (r, w2) →
    r ≠ Timeout →
    as_txEnder (db (txOrm_ormBase t)) = Some te →
    ending te r (w_db w2) (w_heap w2) = (Ret e, d, h) →
    DoTxWithCtxAndOpts o ctx opts task w
    = (r, {| w_db := d; w_heap := h;
             w_trace := w_trace w2 ++ [ending_event (db (txOrm_ormBase t)) r]
                        ++ ending_log r e |})
    ∧ DoTxWithCtx o ctx task = DoTxWithCtxAndOpts o ctx None task
    ∧ DoTx o task = DoTxWithCtxAndOpts o Background None task
    ∧ DoTxWithOpts o opts task = DoTxWithCtxAndOpts o Background opts task.
Proof.
  intros o ctx opts task w w1 w2 t r te e d h Hbegin Htask Hterm Hte Hend.
  split; [|repeat split].
  unfold DoTxWithCtxAndOpts, m_bind. rewrite Hbegin.
  unfold m_defer. rewrite Htask.
  unfold ending, ending_event, ending_log in *.
  destruct r as [[err|]|p|]; [| | |congruence]; cbn [task_failed task_panicked] in *;
    cbn [orb negb is_nil];
    unfold Rollback, Commit, m_bind, call, logs_Error, emit, m_ret;
    rewrite Hte, Hend; destruct e as [e|]; cbn; rewrite <- ?app_assoc; try reflexivity;
    rewrite app_nil_r; reflexivity.
Qed.

(** When the transaction cannot be opened, the task does not run and the
    error of [BeginTx] is returned. *)
Lemma DoTx_begin_failed :
  ∀ (o : orm) ctx opts task w w1 err,
    BeginWithCtxAndOpts o ctx opts w = (Ret (inr err), w1) →
    DoTxWithCtxAndOpts o ctx opts task w = (Ret (Some err), w1).
Proof.
  intros o ctx opts task w w1 err Hbegin.
  unfold DoTxWithCtxAndOpts, m_bind. rewrite Hbegin. reflexivity.
Qed.

End Transactions.

(** A task that inserts a user and then returns an error: the insert is
    rolled back, the error of the rollback is logged, and the caller gets the
    task's error. *)
Lemma DoTx_rolls_back_or_commits_witness :
  let task := fun t : txOrm =>
                let* _ := Insert (PK := Toy.package) (txOrm_ormBase t)
                            (Toy.ptr "main.User" 1%positive) in
                m_ret (Some ErrArgs) in
  let r := DoTxWithCtxAndOpts (PK := Toy.package) Toy.session Background None task Toy.w0 in
  fst r = Ret (Some ErrArgs)
  ∧ drop 2 (w_trace (snd r))
    = [EvRollback (TxDB 7%nat); EvLogError "rollback transaction failed: %v,%v" ErrTxDone false].
Proof.
  intros task r.
  edestruct (DoTx_rolls_back_or_commits (PK := Toy.package) Toy.session Background None
               task Toy.w0) as [Hrun _].
  - reflexivity.
  - reflexivity.
  - discriminate.
  - reflexivity.
  - reflexivity.
  - subst r. rewrite Hrun. split; reflexivity.
Defined.

(** ** The heap: reading back what was stored *)

Lemma value_set_at_lookup (p : path) :
  ∀ (v o o' : value), value_set_at p v o = Some o' → value_at p o' = Some v.
Proof.
  induction p as [|i p IH]; intros v o o' Hset; cbn in *.
  - congruence.
  - destruct o as [| | | | |n fs| | |t elems]; try discriminate.
    + destruct (fs !! i) as [f|] eqn:Hf; cbn in Hset; [|discriminate].
      destruct (value_set_at p v f) as [f'|] eqn:Hf'; cbn in Hset; [|discriminate].
      injection Hset as <-. cbn.
      rewrite list_lookup_insert_eq by (eapply lookup_lt_Some; eassumption).
      cbn. eapply IH; eassumption.
    + destruct (elems !! i) as [f|] eqn:Hf; cbn in Hset; [|discriminate].
      destruct (value_set_at p v f) as [f'|] eqn:Hf'; cbn in Hset; [|discriminate].
      injection Hset as <-. cbn.
      rewrite list_lookup_insert_eq by (eapply lookup_lt_Some; eassumption).
      cbn. eapply IH; eassumption.
Qed.

Lemma value_set_at_defined (p : path) :
  ∀ (v o old : value), value_at p o = Some old → ∃ o', value_set_at p v o = Some o'.
Proof.
  induction p as [|i p IH]; intros v o old Hat; cbn in *.
  - eauto.
  - destruct o as [| | | | |n fs| | |t elems]; try discriminate.
    + destruct (fs !! i) as [f|] eqn:Hf; cbn in *; [|discriminate].
      destruct (IH v f old Hat) as [f' ->]. cbn. eauto.
    + destruct (elems !! i) as [f|] eqn:Hf; cbn in *; [|discriminate].
      destruct (IH v f old Hat) as [f' ->]. cbn. eauto.
Qed.

Lemma load_store (h h' : heap) (a : addr) (v : value) :
  store h a v = Some h' → load h' a = Some v.
Proof.
  unfold store, load. intros Hst.
  destruct (h !! a.1) as [o|] eqn:Ho; cbn in Hst; [|discriminate].
  destruct (value_set_at a.2 v o) as [o'|] eqn:Ho'; cbn in Hst; [|discriminate].
  injection Hst as <-. rewrite lookup_insert_eq. cbn.
  eapply value_set_at_lookup; eassumption.
Qed.

Lemma store_defined (h : heap) (a : addr) (v old : value) :
  load h a = Some old → ∃ h', store h a v = Some h'.
Proof.
  unfold store, load. intros Hld.
  destruct (h !! a.1) as [o|] eqn:Ho; cbn in *; [|discriminate].
  destruct (value_set_at_defined a.2 v o old Hld) as [o' ->]. cbn. eauto.
Qed.

(** ** Integers that fit their field *)

(** An integer of the signedness and size of a field, the identity as a
    field of that signedness and size holds it after the write-back, and the
    identities the field can hold. *)
Definition int_value (positive : bool) (s : isize) (n : Z) : value :=
  if positive then VUint s n else VInt s n.

Definition identity_as (positive : bool) (s : isize) (id : Z) : value :=
  if positive then VUint s (wrap_unsigned (bits s) (to_uint64 id))
  else VInt s (wrap_signed (bits s) id).

Definition fits (positive : bool) (s : isize) (id : Z) : Prop :=
  if positive then 0 <= id < 2 ^ bits s
  else - 2 ^ (bits s - 1) <= id < 2 ^ (bits s - 1).

Lemma wrap_signed_fits (w id : Z) :
  0 < w → - 2 ^ (w - 1) <= id < 2 ^ (w - 1) → wrap_signed w id = id.
Proof.
  intros Hw Hid. unfold wrap_signed.
  assert (Hpow : 2 ^ w = 2 * 2 ^ (w - 1)).
  { rewrite <- Z.pow_succ_r by lia. f_equal. lia. }
  assert (Hpos : 0 < 2 ^ (w - 1)) by (apply Z.pow_pos_nonneg; lia).
  destruct (Z.neg_nonneg_cases id) as [Hneg|Hnn].
  - assert (Hm : id mod 2 ^ w = id + 2 ^ w).
    { symmetry. apply (Z.mod_unique id (2 ^ w) (-1)); lia. }
    rewrite Hm. destruct (Z.ltb_spec (id + 2 ^ w) (2 ^ (w - 1))); lia.
  - rewrite Z.mod_small by lia.
    destruct (Z.ltb_spec id (2 ^ (w - 1))); lia.
Qed.

Lemma wrap_unsigned_fits (w id : Z) :
  0 <= w <= 64 → 0 <= id < 2 ^ w → wrap_unsigned w (to_uint64 id) = id.
Proof.
  intros Hw Hid. unfold to_uint64, wrap_unsigned.
  assert (2 ^ w <= 2 ^ 64) by (apply Z.pow_le_mono_r; lia).
  rewrite (Z.mod_small id (2 ^ 64)) by lia.
  apply Z.mod_small. lia.
Qed.

Lemma identity_as_fits (positive : bool) (s : isize) (id : Z) :
  fits positive s id → identity_as positive s id = int_value positive s id.
Proof.
  unfold fits, identity_as, int_value. destruct positive; intros Hfit.
  - rewrite wrap_unsigned_fits; [reflexivity| |assumption]. destruct s; cbn; lia.
  - rewrite wrap_signed_fits; [reflexivity| |assumption]. destruct s; cbn; lia.
Qed.

(** ** Writing the identity back *)

Section WriteBack.

Context {PT : PackageTypes} {PK : Package}.

(** [mi.fields.pk.fieldType&IsPositiveIntegerField > 0] *)
Definition pk_positive (mi : modelInfo) : bool :=
  Z.land (fieldType (pk (fields mi))) IsPositiveIntegerField >? 0.

(** The record [ind] has, in the heap [h], the identity field that its
    descriptor names: addressable storage at [a] holding an integer of the
    descriptor's signedness. *)
Definition pk_field_at (h : heap) (mi : modelInfo) (ind : rvalue) (a : addr) (s : isize)
  : Prop :=
  rv_FieldByIndex h ind (fieldIndex (pk (fields mi))) = Ret (RAddr a)
  ∧ ∃ n, load h a = Some (int_value (pk_positive mi) s n).

(** What the write-back of [id] makes of the heap [h]: for an automatic
    identity, [h'] is [h] with the identity field holding [id] converted to
    the field's type; otherwise nothing changes. *)
Definition written_back (mi : modelInfo) (ind : rvalue) (id : Z) (h h' : heap) : Prop :=
  if auto (pk (fields mi)) then
    ∃ a s, pk_field_at h mi ind a s
           ∧ store h a (identity_as (pk_positive mi) s id) = Some h'
           ∧ load h' a = Some (identity_as (pk_positive mi) s id)
           ∧ (fits (pk_positive mi) s id → load h' a = Some (int_value (pk_positive mi) s id))
  else h' = h.

Definition with_heap (w : world) (h : heap) : world :=
  {| w_db := w_db w; w_heap := h; w_trace := w_trace w |}.

Lemma getMiInd_world (o : ormBase) (md : value) (needPtr : bool) (w w' : world) r :
  getMiInd o md needPtr w = (r, w') → w' = w.
Proof.
  unfold getMiInd, m_bind, m_heap, m_lift, m_panic, m_ret.
  destruct (rv_Type _ _); [|congruence..].
  destruct (_ && _); [congruence|].
  destruct (modelCache_getByFullName _ _); congruence.
Qed.

Lemma setPk_not_auto (o : ormBase) (mi : modelInfo) (ind : rvalue) (id : Z) (w : world) :
  auto (pk (fields mi)) = false → setPk o mi ind id w = (Ret tt, w).
Proof. intros Hauto. unfold setPk. rewrite Hauto. reflexivity. Qed.

Lemma setPk_auto (o : ormBase) (mi : modelInfo) (ind : rvalue) (id : Z) (w : world)
      (a : addr) (s : isize) :
  auto (pk (fields mi)) = true →
  pk_field_at (w_heap w) mi ind a s →
  ∃ h', store (w_heap w) a (identity_as (pk_positive mi) s id) = Some h'
        ∧ setPk o mi ind id w = (Ret tt, with_heap w h').
Proof.
  intros Hauto [Hfield [n Hload]].
  destruct (store_defined (w_heap w) a (identity_as (pk_positive mi) s id) _ Hload)
    as [h' Hstore].
  exists h'. split; [assumption|].
  unfold setPk. rewrite Hauto. fold (pk_positive mi).
  unfold identity_as, int_value in *.
  destruct (pk_positive mi);
    unfold m_bind, m_heap, m_lift, m_set_heap; rewrite Hfield;
    cbn [rv_SetUint rv_SetInt]; rewrite Hload, Hstore; reflexivity.
Qed.

Lemma setPk_written_back (o : ormBase) (mi : modelInfo) (ind : rvalue) (id : Z) (w : world) :
  (auto (pk (fields mi)) = true → ∃ a s, pk_field_at (w_heap w) mi ind a s) →
  ∃ h', setPk o mi ind id w = (Ret tt, with_heap w h')
        ∧ written_back mi ind id (w_heap w) h'.
Proof.
  intros Hfield. unfold written_back.
  destruct (auto (pk (fields mi))) eqn:Hauto.
  - destruct (Hfield eq_refl) as (a & s & Hat).
    destruct (setPk_auto o mi ind id w a s Hauto Hat) as (h' & Hstore & Hset).
    exists h'. split; [assumption|]. exists a, s.
    pose proof (load_store _ _ _ _ Hstore) as Hload.
    repeat split; try assumption; try apply Hat.
    intros Hfit. rewrite <- (identity_as_fits _ _ _ Hfit). assumption.
  - exists (w_heap w). split; [|reflexivity].
    rewrite setPk_not_auto by assumption. destruct w; reflexivity.
Qed.

(** The world after a call that left the session layer: the database and the
    heap as the call returned them, and the event added to the trace. *)
Definition after_call (w : world) (ev : event) (d : DB) (h : heap) : world :=
  {| w_db := d; w_heap := h; w_trace := w_trace w ++ [ev] |}.

(** C2, as amended: when [Insert] or [InsertOrUpdate] succeeds on a record
    whose identity is automatic, the integer returned is the identity that
    the database assigned, and the record's identity field holds that
    identity converted to the field's type: through [uint64] for an unsigned
    field, and cut to the field's width.  The field holds the integer
    returned whenever that integer fits the field's type; when the identity
    is not automatic the write-back changes nothing. *)
Theorem Insert_writes_identity_back :
  ∀ (o : ormBase) (ctx : context) (md : value) (args : list string) (w : world)
    (mi : modelInfo) (ind : rvalue) (id : Z) (d : DB) (h : heap),
    getMiInd o md true w = (Ret (mi, ind), w) →
    (auto (pk (fields mi)) = true → ∃ a s, pk_field_at h mi ind a s) →
    (DbBaser_Insert (DbBaser (ormBase_alias o)) (db o) mi ind
                    (TZ (alias_info (ormBase_alias o))) (w_db w) (w_heap w)
     = (Ret (id, None), d, h) →
     ∃ h', InsertWithCtx o ctx md w
           = (Ret (id, None), after_call w (EvInsert (db o) mi ind) d h')
           ∧ Insert o md w = InsertWithCtx o ctx md w
           ∧ written_back mi ind id h h')
    ∧ (DbBaser_InsertOrUpdate (DbBaser (ormBase_alias o)) (db o) mi ind
                              (alias_info (ormBase_alias o)) args (w_db w) (w_heap w)
       = (Ret (id, None), d, h) →
       ∃ h', InsertOrUpdateWithCtx o ctx md args w
             = (Ret (id, None), after_call w (EvInsertOrUpdate (db o) mi ind args) d h')
             ∧ InsertOrUpdate o md args w = InsertOrUpdateWithCtx o ctx md args w
             ∧ written_back mi ind id h h').
Proof.
  intros o ctx md args w mi ind id d h Hmi Hfield.
  split; intros Hdb.
  - destruct (setPk_written_back o mi ind id (after_call w (EvInsert (db o) mi ind) d h) Hfield)
      as (h' & Hset & Hwb).
    exists h'. repeat split; [|assumption].
    unfold InsertWithCtx, m_bind. rewrite Hmi.
    unfold o_Insert, call. rewrite Hdb.
    fold (after_call w (EvInsert (db o) mi ind) d h). rewrite Hset. reflexivity.
  - destruct (setPk_written_back o mi ind id
                (after_call w (EvInsertOrUpdate (db o) mi ind args) d h) Hfield)
      as (h' & Hset & Hwb).
    exists h'. repeat split; [|assumption].
    unfold InsertOrUpdateWithCtx, m_bind. rewrite Hmi.
    unfold o_InsertOrUpdate, call. rewrite Hdb.
    fold (after_call w (EvInsertOrUpdate (db o) mi ind args) d h). rewrite Hset. reflexivity.
Qed.

End WriteBack.

(** Inserting the profile at 2, whose identity is an automatic unsigned
    32-bit integer, into the empty database. *)
Lemma Insert_writes_identity_back_witness :
  ∃ h', Insert (PK := Toy.package) Toy.o (Toy.ptr "main.Profile" 2%positive) Toy.w0
        = (Ret (1, None),
           Toy.world_of [("main.Profile", 1)] h'
             [EvInsert (SqlDB 0) Toy.profileMi (RAddr (2%positive, []))])
        ∧ load h' (2%positive, [0%nat]) = Some (VUint Sz32 1).
Proof.
  destruct (Insert_writes_identity_back (PK := Toy.package) Toy.o Background
              (Toy.ptr "main.Profile" 2%positive) [] Toy.w0 Toy.profileMi
              (RAddr (2%positive, [])) 1 [("main.Profile", 1)] Toy.mem eq_refl)
    as [Hinsert _].
  - intros _. exists (2%positive, [0%nat]), Sz32. split; [reflexivity|].
    exists 0. reflexivity.
  - destruct (Hinsert eq_refl) as (h' & Hrun & Hfree & Hwb).
    exists h'. split.
    + rewrite Hfree. exact Hrun.
    + destruct Hwb as (a & s & [Hfield [n Hold]] & _ & _ & Hfits).
      injection Hfield as <-.
      assert (Hs : s = Sz32).
      { change (Some (VUint Sz32 0) = Some (VUint s n)) in Hold. congruence. }
      subst s. apply Hfits. vm_compute. split; [discriminate|reflexivity].
Defined.

(** C2 as the specification states it, for one call: when the insert
    succeeds on a record whose identity is automatic, the identity field of
    the record holds the integer that is returned. *)
Definition Insert_as_specified {PT : PackageTypes} {PK : Package}
           (o : ormBase) (ctx : context) (md : value) (w : world) : Prop :=
  ∀ mi ind id w' a s,
    getMiInd o md true w = (Ret (mi, ind), w) →
    auto (pk (fields mi)) = true →
    pk_field_at (w_heap w) mi ind a s →
    InsertWithCtx o ctx md w = (Ret (id, None), w') →
    load (w_heap w') a = Some (int_value (pk_positive mi) s id).

(** A session on a database that assigns identities past 32 bits. *)
Module Wide.

Definition assigned : Z := 2 ^ 32 + 5.

Definition wideInsert (mi : modelInfo) : @ext Toy.types (Z * option error) :=
  fun d h => (Ret (assigned, None), d ++ [(fullName mi, assigned)], h).

Definition wideDb : @dbBaser Toy.types := {|
  DbBaser_Read := DbBaser_Read Toy.memDb;
  DbBaser_Insert := fun _ mi _ _ => wideInsert mi;
  DbBaser_InsertMulti := DbBaser_InsertMulti Toy.memDb;
  DbBaser_InsertOrUpdate := fun _ mi _ _ _ => wideInsert mi;
  DbBaser_Update := DbBaser_Update Toy.memDb;
  DbBaser_Delete := DbBaser_Delete Toy.memDb
|}.

Definition o : @ormBase Toy.types :=
  {| ormBase_alias := {| alias_info := alias_info Toy.al; DbBaser := wideDb |};
     db := SqlDB 0 |}.

End Wide.

(** The profile at 2, whose identity is an automatic unsigned 32-bit
    integer, inserted into a database that assigns the identity 2^32 + 5:
    the insert succeeds and returns 4294967301, and the field holds 5. *)
Lemma Insert_truncates_wide_identity :
  ¬ Insert_as_specified (PK := Toy.package) Wide.o Background
      (Toy.ptr "main.Profile" 2%positive) Toy.w0.
Proof.
  intros Hspec.
  pose proof (Hspec Toy.profileMi (RAddr (2%positive, [])) 4294967301
                (snd (InsertWithCtx (PK := Toy.package) Wide.o Background
                        (Toy.ptr "main.Profile" 2%positive) Toy.w0))
                (2%positive, [0%nat]) Sz32 eq_refl eq_refl
                (conj eq_refl (ex_intro _ 0 eq_refl)) eq_refl) as Hload.
  vm_compute in Hload. discriminate Hload.
Qed.

(** What that insert returns and leaves in the record. *)
Lemma Insert_wide_identity_run :
  let run := Insert (PK := Toy.package) Wide.o (Toy.ptr "main.Profile" 2%positive) Toy.w0 in
  fst run = Ret (4294967301, None)
  ∧ load (w_heap (snd run)) (2%positive, [0%nat]) = Some (VUint Sz32 5).
Proof. vm_compute. split; reflexivity. Qed.

Section DeleteRecord.

Context {PT : PackageTypes} {PK : Package}.

(** C8: after [Delete], the heap is the one that the dialect adapter's
    delete returned, but for the identity field: when the delete succeeded
    and affected at least one row and the identity is automatic, the field
    holds zero; when no row was affected or the delete returned an error, the
    session layer writes nothing, so a record that the adapter left alone is
    as the caller passed it. *)
Theorem Delete_resets_identity :
  ∀ (o : ormBase) (ctx : context) (md : value) (cols : list string) (w : world)
    (mi : modelInfo) (ind : rvalue) (num : Z) (err : option error) (d : DB) (h : heap),
    getMiInd o md true w = (Ret (mi, ind), w) →
    (auto (pk (fields mi)) = true → ∃ a s, pk_field_at h mi ind a s) →
    DbBaser_Delete (DbBaser (ormBase_alias o)) (db o) mi ind
                   (TZ (alias_info (ormBase_alias o))) cols (w_db w) (w_heap w)
    = (Ret (num, err), d, h) →
    ∃ h', DeleteWithCtx o ctx md cols w
          = (Ret (num, err), after_call w (EvDelete (db o) mi ind cols) d h')
          ∧ Delete o md cols w = DeleteWithCtx o ctx md cols w
          ∧ (err = None → num > 0 →
             if auto (pk (fields mi)) then
               ∃ a s, pk_field_at h mi ind a s
                      ∧ store h a (int_value (pk_positive mi) s 0) = Some h'
                      ∧ load h' a = Some (int_value (pk_positive mi) s 0)
             else h' = h)
          ∧ (err ≠ None ∨ num <= 0 →
             h' = h ∧ ∀ a, load h a = load (w_heap w) a → load h' a = load (w_heap w) a).
Proof.
  intros o ctx md cols w mi ind num err d h Hmi Hfield Hdb.
  assert (Hrun :
    DeleteWithCtx o ctx md cols w
    = (let* '(num, err) := m_ret (num, err) in
       match err with
       | Some _ => m_ret (num, err)
       | None =>
           let* _ := (if num >? 0 then setPk o mi ind 0 else m_ret tt) in
           m_ret (num, None)
       end) (after_call w (EvDelete (db o) mi ind cols) d h)).
  { unfold DeleteWithCtx, m_bind at 1 2. rewrite Hmi.
    unfold o_Delete, call. rewrite Hdb. reflexivity. }
  unfold m_bind, m_ret in Hrun.
  destruct err as [e|].
  - exists h. split; [assumption|]. split; [reflexivity|]. split.
    + discriminate.
    + intros _. split; [reflexivity|]. intros a Ha. assumption.
  - destruct (Z.gtb_spec num 0) as [Hpos|Hzero].
    + destruct (setPk_written_back o mi ind 0
                  (after_call w (EvDelete (db o) mi ind cols) d h) Hfield)
        as (h' & Hset & Hwb).
      rewrite Hset in Hrun. exists h'.
      split; [assumption|]. split; [reflexivity|]. split.
      * intros _ _. unfold written_back in Hwb.
        destruct (auto (pk (fields mi))); [|assumption].
        destruct Hwb as (a & s & Hat & Hstore & Hload & _).
        exists a, s.
        assert (Hz : identity_as (pk_positive mi) s 0 = int_value (pk_positive mi) s 0).
        { apply identity_as_fits. unfold fits.
          destruct (pk_positive mi); destruct s; cbn; lia. }
        rewrite Hz in *. auto.
      * intros [Herr|Hle]; [congruence|lia].
    + exists h. split; [assumption|]. split; [reflexivity|]. split.
      * intros _ Hgt. lia.
      * intros _. split; [reflexivity|]. intros a Ha. assumption.
Qed.

End DeleteRecord.

(** Deleting the user at 1, of identity 5, whose row is in the database. *)
Lemma Delete_resets_identity_witness :
  let w := Toy.world_of [("main.User", 5)]
             (<[1%positive := Toy.user 5 "slene"]> Toy.mem) [] in
  ∃ h', Delete (PK := Toy.package) Toy.o (Toy.ptr "main.User" 1%positive) [] w
        = (Ret (1, None),
           Toy.world_of [] h'
             [EvDelete (SqlDB 0) Toy.userMi (RAddr (1%positive, [])) []])
        ∧ load h' (1%positive, [0%nat]) = Some (VInt SzWord 0).
Proof.
  intros w.
  destruct (Delete_resets_identity (PK := Toy.package) Toy.o Background
              (Toy.ptr "main.User" 1%positive) [] w Toy.userMi
              (RAddr (1%positive, [])) 1 None [] (w_heap w) eq_refl)
    as (h' & Hrun & Hfree & Hreset & _).
  - intros _. exists (1%positive, [0%nat]), SzWord. split; [reflexivity|].
    exists 5. reflexivity.
  - reflexivity.
  - exists h'. split.
    + rewrite Hfree. exact Hrun.
    + destruct (Hreset eq_refl ltac:(lia)) as (a & s & [Hfield [n Hold]] & _ & Hload).
      injection Hfield as <-.
      assert (Hs : s = SzWord).
      { change (Some (VInt SzWord 5) = Some (VInt s n)) in Hold. congruence. }
      subst s. exact Hload.
Defined.

(** ** The modes of [InsertMulti] *)

(** The length of a sequence, and nothing for any other value. *)
Definition seq_length (h : heap) (sind : rvalue) : option nat :=
  match rv_get h sind with
  | Some (VSlice _ cells) => Some (length cells)
  | Some (VArray _ vs) => Some (length vs)
  | _ => None
  end.

Lemma seq_length_Len (h : heap) (sind : rvalue) (len : nat) :
  seq_length h sind = Some len → rv_Len h sind = Ret len.
Proof.
  unfold seq_length, rv_Len. destruct (rv_get h sind) as [[]|]; congruence.
Qed.

Lemma InsertMultiWithCtx_unfold {PT : PackageTypes} {PK : Package}
      (fuel : nat) (o : ormBase) (ctx : context) (bulk : Z) (mds : value) (w : world) :
  InsertMultiWithCtx fuel o ctx bulk mds w
  = match seq_length (w_heap w) (reflect_Indirect (w_heap w) (reflect_ValueOf mds)) with
    | Some len =>
        if (len =? 0)%nat then (Ret (0, Some ErrArgs), w)
        else if bulk <=? 1
             then InsertMulti_loop fuel o
                    (reflect_Indirect (w_heap w) (reflect_ValueOf mds)) 0%nat 0 w
             else InsertMulti_batch o
                    (reflect_Indirect (w_heap w) (reflect_ValueOf mds)) bulk w
    | None => (Ret (0, Some ErrArgs), w)
    end.
Proof.
  unfold InsertMultiWithCtx, m_bind, m_heap, m_lift, m_ret, seq_length, rv_Kind, rv_Len.
  cbv zeta.
  destruct (rv_get (w_heap w) (reflect_Indirect (w_heap w) (reflect_ValueOf mds)))
    as [[]|]; cbn [kind_of]; try reflexivity.
  - destruct (length cells =? 0)%nat; [|destruct (bulk <=? 1)]; reflexivity.
  - destruct (length elems =? 0)%nat; [|destruct (bulk <=? 1)]; reflexivity.
Qed.

(** ** Unregistered models *)

Section Unregistered.

Context {PT : PackageTypes} {PK : Package}.

(** The model type of [md], the type that [getMiInd] looks up, is not in the
    registry. *)
Definition unregistered (h : heap) (md : value) : Prop :=
  ∀ typ, rv_Type h (reflect_Indirect h (reflect_ValueOf md)) = Ret typ →
         modelCache_getByFullName modelCache (getFullName typ) = None.

(** The same for the argument of [QueryTable], a table name or a value. *)
Definition table_unregistered (t : value) : Prop :=
  match t with
  | VString table => modelCache_get modelCache (nameStrategy table) = None
  | _ => ∀ typ, indirectType (type_of t) = inl typ →
                modelCache_getByFullName modelCache (getFullName typ) = None
  end.

(** The same for the records of [InsertMulti]: the first element, as either
    mode of the operation hands it to [getMiInd]. *)
Definition elements_unregistered (h : heap) (mds : value) : Prop :=
  ∀ e v, rv_Index h (reflect_Indirect h (reflect_ValueOf mds)) 0 = Ret e →
         rv_Interface h e = Ret v ∨ rv_Interface h (reflect_Indirect h e) = Ret v →
         unregistered h v.

Definition not_registered_panic (typ : gtype) : panic_value :=
  PanicError (Errorf
    ("<Ormer> table: `" +:+ getFullName typ
     +:+ "` not found, make sure it was registered with `RegisterModel()`")).

(** The operation panics and leaves the world as it was: nothing was sent to
    the database, nothing was written and no query set was made.  For a
    pointer to a value of some type, the panic is the one of the model that
    is not registered. *)
Definition fails_unregistered {A : Type} (md : value) (c : M A) (w : world) : Prop :=
  ∃ p, c w = (Panic p, w)
       ∧ ∀ typ, rv_Kind (w_heap w) (reflect_ValueOf md) = Ptr →
                rv_Type (w_heap w) (reflect_Indirect (w_heap w) (reflect_ValueOf md)) = Ret typ →
                p = not_registered_panic typ.

Lemma getMiInd_unregistered (o : ormBase) (md : value) (needPtr : bool) (w : world) :
  unregistered (w_heap w) md → fails_unregistered md (getMiInd o md needPtr) w.
Proof.
  intros Hun. unfold fails_unregistered, getMiInd, m_bind, m_heap, m_lift, m_panic.
  destruct (rv_Type (w_heap w) _) as [typ| |] eqn:Htyp.
  - destruct (needPtr && negb (bool_decide (rv_Kind (w_heap w) (reflect_ValueOf md) = Ptr)))
      eqn:Hptr.
    + eexists. split; [reflexivity|]. intros typ' Hkind _.
      rewrite bool_decide_eq_true_2 in Hptr by assumption.
      rewrite andb_false_r in Hptr. discriminate.
    + rewrite (Hun typ Htyp). eexists. split; [reflexivity|].
      intros typ' _ [= <-]. reflexivity.
  - eexists. split; [reflexivity|]. intros typ' _ [=].
  - unfold rv_Type in Htyp. destruct (_ ≫= _); discriminate.
Qed.

Lemma queryRelated_unregistered (o : ormBase) (md : value) (fname : string) (w : world) :
  unregistered (w_heap w) md → fails_unregistered md (queryRelated o md fname) w.
Proof.
  intros Hun. destruct (getMiInd_unregistered o md true w Hun) as (p & Hget & Hp).
  exists p. split; [|assumption]. unfold queryRelated, m_bind. rewrite Hget. reflexivity.
Qed.

Ltac fails_at_getMiInd o md w Hun :=
  let p := fresh "p" in
  let Hget := fresh "Hget" in
  let Hp := fresh "Hp" in
  destruct (getMiInd_unregistered o md true w Hun) as (p & Hget & Hp);
  exists p; split; [|assumption];
  cbv beta delta [Read ReadWithCtx ReadForUpdate ReadForUpdateWithCtx
                  ReadOrCreate Insert InsertWithCtx InsertOrUpdate InsertOrUpdateWithCtx
                  Update UpdateWithCtx Delete DeleteWithCtx QueryM2M QueryM2MWithCtx];
  cbn [ReadOrCreateWithCtx]; unfold m_bind; rewrite Hget; reflexivity.

Ltac fails_at_queryRelated o md fname w Hun :=
  let p := fresh "p" in
  let Hget := fresh "Hget" in
  let Hp := fresh "Hp" in
  destruct (queryRelated_unregistered o md fname w Hun) as (p & Hget & Hp);
  exists p; split; [|assumption];
  cbv beta delta [LoadRelated LoadRelatedWithCtx QueryRelated QueryRelatedWithCtx];
  unfold m_bind; rewrite Hget; reflexivity.

Lemma rv_Index_not_Timeout (h : heap) (rv : rvalue) (i : nat) : rv_Index h rv i ≠ Timeout.
Proof.
  unfold rv_Index.
  repeat (match goal with
          | |- context [match ?x with _ => _ end] => destruct x
          end; try discriminate).
Qed.

Lemma rv_Interface_not_Timeout (h : heap) (rv : rvalue) : rv_Interface h rv ≠ Timeout.
Proof. unfold rv_Interface. destruct (rv_get h rv); discriminate. Qed.

Lemma InsertMulti_loop_unregistered (fuel : nat) (o : ormBase) (mds : value) (cnt : Z)
      (w : world) (len : nat) :
  elements_unregistered (w_heap w) mds →
  rv_Len (w_heap w) (reflect_Indirect (w_heap w) (reflect_ValueOf mds)) = Ret len →
  len ≠ 0%nat →
  ∃ p, InsertMulti_loop (S fuel) o (reflect_Indirect (w_heap w) (reflect_ValueOf mds))
         0%nat cnt w = (Panic p, w).
Proof.
  intros Hun Hlen Hpos.
  set (sind := reflect_Indirect (w_heap w) (reflect_ValueOf mds)) in *.
  cbn [InsertMulti_loop]. unfold m_bind at 1 2, m_heap at 1, m_lift at 1.
  rewrite Hlen. cbn beta iota.
  replace (0 <? len)%nat with true by (symmetry; apply Nat.ltb_lt; lia).
  unfold InsertMulti_body, m_bind, m_heap, m_lift.
  destruct (rv_Index (w_heap w) sind 0) as [e| |] eqn:He;
    [|eauto|exfalso; eapply rv_Index_not_Timeout; eassumption].
  destruct (rv_Interface (w_heap w) (reflect_Indirect (w_heap w) e)) as [v| |] eqn:Hv;
    [|eauto|exfalso; eapply rv_Interface_not_Timeout; eassumption].
  destruct (getMiInd_unregistered o v false w (Hun e v He (or_intror Hv))) as (p & Hget & _).
  rewrite Hget. eauto.
Qed.

Lemma InsertMulti_batch_unregistered (o : ormBase) (mds : value) (bulk : Z) (w : world) :
  elements_unregistered (w_heap w) mds →
  ∃ p, InsertMulti_batch o (reflect_Indirect (w_heap w) (reflect_ValueOf mds)) bulk w
       = (Panic p, w).
Proof.
  intros Hun.
  set (sind := reflect_Indirect (w_heap w) (reflect_ValueOf mds)) in *.
  unfold InsertMulti_batch, m_bind, m_heap, m_lift.
  destruct (rv_Index (w_heap w) sind 0) as [e| |] eqn:He;
    [|eauto|exfalso; eapply rv_Index_not_Timeout; eassumption].
  destruct (rv_Interface (w_heap w) e) as [v| |] eqn:Hv;
    [|eauto|exfalso; eapply rv_Interface_not_Timeout; eassumption].
  destruct (getMiInd_unregistered o v false w (Hun e v He (or_introl Hv))) as (p & Hget & _).
  rewrite Hget. eauto.
Qed.

Lemma InsertMultiWithCtx_unregistered (fuel : nat) (o : ormBase) (ctx : context) (bulk : Z)
      (mds : value) (w : world) :
  elements_unregistered (w_heap w) mds →
  (∃ p, InsertMultiWithCtx (S fuel) o ctx bulk mds w = (Panic p, w))
  ∨ InsertMultiWithCtx (S fuel) o ctx bulk mds w = (Ret (0, Some ErrArgs), w).
Proof.
  intros Hun. rewrite InsertMultiWithCtx_unfold.
  destruct (seq_length _ _) as [len|] eqn:Hlen; [|right; reflexivity].
  destruct (Nat.eqb_spec len 0) as [Hz|Hnz]; [right; reflexivity|].
  left. destruct (bulk <=? 1).
  - eapply InsertMulti_loop_unregistered; try eassumption.
    apply seq_length_Len. assumption.
  - apply InsertMulti_batch_unregistered. assumption.
Qed.

Definition table_not_exists_panic (name : string) : panic_value :=
  PanicError (Errorf ("<Ormer.QueryTable> table name: `" +:+ name +:+ "` not exists")).

Lemma QueryTableWithCtx_unregistered (o : ormBase) (ctx : context) (t : value) (w : world) :
  table_unregistered t →
  ∃ p, QueryTableWithCtx o ctx t w = (Panic p, w)
       ∧ ∀ table, t = VString table → p = table_not_exists_panic (nameStrategy table).
Proof.
  intros Hun. unfold QueryTableWithCtx.
  destruct t as [| | | |table| | | |];
    try (unfold table_unregistered in Hun; unfold m_bind, m_lift;
         match goal with
         | |- context [indirectType ?x] =>
             destruct (indirectType x) as [typ|p] eqn:Htyp;
             cbv beta iota zeta delta [of_result]; [rewrite (Hun typ eq_refl)|]
         end;
         eexists; (split; [reflexivity|]); intros table0 [=]).
  unfold table_unregistered in Hun. cbv zeta. rewrite Hun. eexists. split; [reflexivity|].
  intros table0 [= <-]. reflexivity.
Qed.

(** C5: an operation on a record, a sequence of records or a table whose
    model is not in the registry fails before anything else happens: it
    panics (or, for [InsertMulti] on an empty sequence or on something that
    is no sequence, returns the argument error) and the world is as before,
    so that no statement reached the database, no record was written and no
    query set was built. *)
Theorem unregistered_model_fails_first :
  ∀ (o : ormBase) (ctx : context) (w : world),
    (∀ md, unregistered (w_heap w) md →
       (∀ cols, fails_unregistered md (ReadWithCtx o ctx md cols) w
                ∧ fails_unregistered md (Read o md cols) w)
       ∧ (∀ cols, fails_unregistered md (ReadForUpdateWithCtx o ctx md cols) w
                  ∧ fails_unregistered md (ReadForUpdate o md cols) w)
       ∧ (∀ fuel col1 cols,
            fails_unregistered md (ReadOrCreateWithCtx (S fuel) o ctx md col1 cols) w
            ∧ fails_unregistered md (ReadOrCreate (S fuel) o md col1 cols) w)
       ∧ (fails_unregistered md (InsertWithCtx o ctx md) w
          ∧ fails_unregistered md (Insert o md) w)
       ∧ (∀ args, fails_unregistered md (InsertOrUpdateWithCtx o ctx md args) w
                  ∧ fails_unregistered md (InsertOrUpdate o md args) w)
       ∧ (∀ cols, fails_unregistered md (UpdateWithCtx o ctx md cols) w
                  ∧ fails_unregistered md (Update o md cols) w)
       ∧ (∀ cols, fails_unregistered md (DeleteWithCtx o ctx md cols) w
                  ∧ fails_unregistered md (Delete o md cols) w)
       ∧ (∀ fname, fails_unregistered md (QueryM2MWithCtx o ctx md fname) w
                   ∧ fails_unregistered md (QueryM2M o md fname) w)
       ∧ (∀ fname args, fails_unregistered md (LoadRelatedWithCtx o ctx md fname args) w
                        ∧ fails_unregistered md (LoadRelated o md fname args) w)
       ∧ (∀ fname, fails_unregistered md (QueryRelatedWithCtx o ctx md fname) w
                   ∧ fails_unregistered md (QueryRelated o md fname) w))
    ∧ (∀ fuel bulk mds, elements_unregistered (w_heap w) mds →
         ((∃ p, InsertMultiWithCtx (S fuel) o ctx bulk mds w = (Panic p, w))
          ∨ InsertMultiWithCtx (S fuel) o ctx bulk mds w = (Ret (0, Some ErrArgs), w))
         ∧ ((∃ p, InsertMulti (S fuel) o bulk mds w = (Panic p, w))
            ∨ InsertMulti (S fuel) o bulk mds w = (Ret (0, Some ErrArgs), w)))
    ∧ (∀ t, table_unregistered t →
         (∃ p, QueryTableWithCtx o ctx t w = (Panic p, w)
               ∧ ∀ table, t = VString table → p = table_not_exists_panic (nameStrategy table))
         ∧ (∃ p, QueryTable o t w = (Panic p, w)
                 ∧ ∀ table, t = VString table
                            → p = table_not_exists_panic (nameStrategy table))).
Proof.
  intros o ctx w. split; [|split].
  - intros md Hun.
    repeat split; intros;
      first [ fails_at_getMiInd o md w Hun | fails_at_queryRelated o md fname w Hun ].
  - intros fuel bulk mds Hun.
    split; apply InsertMultiWithCtx_unregistered; assumption.
  - intros t Hun. split; apply QueryTableWithCtx_unregistered; assumption.
Qed.

End Unregistered.

(** Inserting a record of a type that was never registered. *)
Lemma unregistered_model_fails_first_witness :
  let w := Toy.world_of [] (<[9%positive := VStruct "main.Ghost" [VInt SzWord 0]]> Toy.mem) [] in
  Insert (PK := Toy.package) Toy.o (Toy.ptr "main.Ghost" 9%positive) w
  = (Panic (PanicError (Errorf
       "<Ormer> table: `main.Ghost` not found, make sure it was registered with `RegisterModel()`")),
     w).
Proof.
  intros w.
  destruct (unregistered_model_fails_first (PK := Toy.package) Toy.o Background w)
    as [Hrecord _].
  destruct (Hrecord (Toy.ptr "main.Ghost" 9%positive)) as (_ & _ & _ & [_ Hinsert] & _).
  - intros typ Htyp. vm_compute in Htyp. injection Htyp as <-. reflexivity.
  - destruct Hinsert as (p & Hrun & Hp).
    rewrite Hrun. rewrite (Hp (TStruct "main.Ghost") eq_refl eq_refl). reflexivity.
Defined.

(** ** Read or create *)

(** C4 as the specification states it, for one call: after the first read,
    a no-rows error leads to one insert, whose identity and error are
    returned, and a row that was found leads to [(false, id, nil)] with
    nothing done after the read. *)
Definition ReadOrCreate_as_specified {PT : PackageTypes} {PK : Package}
           (fuel : nat) (o : ormBase) (ctx : context) (md : value) (col1 : string)
           (cols : list string) (w : world) : Prop :=
  ∀ mi ind rerr w1,
    getMiInd o md true w = (Ret (mi, ind), w) →
    o_Read o mi ind (col1 :: cols) false w = (Ret rerr, w1) →
    match rerr with
    | Some ErrNoRows =>
        ∃ id ierr w2,
          InsertWithCtx o ctx md w1 = (Ret (id, ierr), w2)
          ∧ ReadOrCreateWithCtx fuel o ctx md col1 cols w = (Ret (is_nil ierr, id, ierr), w2)
    | None =>
        ∃ id, ReadOrCreateWithCtx fuel o ctx md col1 cols w = (Ret (false, id, None), w1)
    | Some _ => True
    end.

(** A badge whose row is in the database, and whose primary key is the
    relation to a profile that has no row: the read finds the badge, and yet
    the call inserts (the profile) and reports a creation. *)
Lemma ReadOrCreate_related_key_inserts :
  ¬ ReadOrCreate_as_specified (PK := Toy.package) 2 Toy.o Background
      (Toy.ptr "main.Badge" 3%positive) "Owner" []
      (Toy.world_of [("main.Badge", 1)] Toy.mem []).
Proof.
  intros Hspec.
  destruct (Hspec Toy.badgeMi (RAddr (3%positive, [])) None
              (Toy.world_of [("main.Badge", 1)] Toy.mem
                 [EvRead (SqlDB 0) Toy.badgeMi (RAddr (3%positive, [])) ["Owner"] false])
              eq_refl eq_refl) as [id Hrun].
  vm_compute in Hrun. discriminate Hrun.
Qed.

Section ReadOrCreate.

Context {PT : PackageTypes} {PK : Package}.

Lemma setPk_trace (o : ormBase) (mi : modelInfo) (ind : rvalue) (id : Z) (w w' : world) r :
  setPk o mi ind id w = (r, w') → w_trace w' = w_trace w ∧ w_db w' = w_db w.
Proof.
  unfold setPk, m_bind, m_heap, m_lift, m_set_heap, m_ret.
  destruct (auto _); [|intros [= _ <-]; auto].
  destruct (_ >? 0); destruct (rv_FieldByIndex _ _ _); try (intros [= _ <-]; auto).
  - destruct (rv_SetUint _ _ _); intros [= _ <-]; auto.
  - destruct (rv_SetInt _ _ _); intros [= _ <-]; auto.
Qed.

(** An insert that returns sent exactly one statement to the database. *)
Lemma InsertWithCtx_one_statement (o : ormBase) (ctx : context) (md : value)
      (w w' : world) x :
  InsertWithCtx o ctx md w = (Ret x, w') →
  ∃ mi ind, w_trace w' = w_trace w ++ [EvInsert (db o) mi ind].
Proof.
  unfold InsertWithCtx, m_bind at 1.
  destruct (getMiInd o md true w) as [[[mi ind]| |] w1] eqn:Hmi; try discriminate.
  apply getMiInd_world in Hmi as ->.
  unfold m_bind at 1, o_Insert, call.
  destruct (DbBaser_Insert _ _ _ _ _ _ _) as [[[[id err]| |] d] h]; try discriminate.
  destruct err as [e|].
  - intros [= _ <-]. exists mi, ind. reflexivity.
  - unfold m_bind.
    destruct (setPk o mi ind id _) as [[[]| |] w2] eqn:Hset; try discriminate.
    intros [= _ <-]. apply setPk_trace in Hset as [-> _]. exists mi, ind. reflexivity.
Qed.

(** C4, as the code has it: a first read that fails with the no-rows error
    is followed by one insert, whose outcome is returned, with no retry;
    after any other first read nothing is inserted for this record, and the
    call returns [(false, id, err)] with the record's integer primary key
    and the read's error, unless the primary key is a relation: then the
    call goes on as [ReadOrCreate] of the related record by the name of that
    record's primary key. *)
Theorem ReadOrCreate_select_then_insert :
  ∀ (fuel : nat) (o : ormBase) (ctx : context) (md : value) (col1 : string)
    (cols : list string) (w w1 : world) (mi : modelInfo) (ind : rvalue)
    (rerr : option error),
    getMiInd o md true w = (Ret (mi, ind), w) →
    o_Read o mi ind (col1 :: cols) false w = (Ret rerr, w1) →
    (rerr = Some ErrNoRows →
     ∀ id ierr w2,
       InsertWithCtx o ctx md w1 = (Ret (id, ierr), w2) →
       ReadOrCreateWithCtx (S fuel) o ctx md col1 cols w = (Ret (is_nil ierr, id, ierr), w2)
       ∧ ∃ mi' ind',
           w_trace w2 = w_trace w ++ [EvRead (db o) mi ind (col1 :: cols) false;
                                      EvInsert (db o) mi' ind'])
    ∧ (rerr ≠ Some ErrNoRows →
       ∀ vid,
         rv_FieldByIndex (w_heap w1) ind (fieldIndex (pk (fields mi))) = Ret vid →
         (pk_positive mi = true →
          ∀ u, rv_Uint (w_heap w1) vid = Ret u →
               ReadOrCreateWithCtx (S fuel) o ctx md col1 cols w
               = (Ret (false, to_int64 u, rerr), w1))
         ∧ (pk_positive mi = false → rel (pk (fields mi)) = false →
            ∀ i, rv_Int (w_heap w1) vid = Ret i →
                 ReadOrCreateWithCtx (S fuel) o ctx md col1 cols w
                 = (Ret (false, i, rerr), w1))
         ∧ (pk_positive mi = false → rel (pk (fields mi)) = true →
            ∀ v rmi, rv_Interface (w_heap w1) vid = Ret v →
                     relModelInfo (pk (fields mi)) = Some rmi →
                     ReadOrCreateWithCtx (S fuel) o ctx md col1 cols w
                     = ReadOrCreateWithCtx fuel o ctx v (name (pk (fields rmi))) [] w1)).
Proof.
  intros fuel o ctx md col1 cols w w1 mi ind rerr Hmi Hread.
  assert (Hstart :
    ReadOrCreateWithCtx (S fuel) o ctx md col1 cols w
    = match rerr with
      | Some ErrNoRows =>
          (let* '(id, err) := InsertWithCtx o ctx md in m_ret (is_nil err, id, err)) w1
      | _ =>
          (let* h := m_heap in
           let* vid := m_lift (rv_FieldByIndex h ind (fieldIndex (pk (fields mi)))) in
           if Z.land (fieldType (pk (fields mi))) IsPositiveIntegerField >? 0 then
             let* u := m_lift (rv_Uint h vid) in m_ret (false, to_int64 u, rerr)
           else if rel (pk (fields mi)) then
             let* v := m_lift (rv_Interface h vid) in
             match relModelInfo (pk (fields mi)) with
             | None => m_panic nil_dereference
             | Some rmi => ReadOrCreateWithCtx fuel o ctx v (name (pk (fields rmi))) []
             end
           else let* i := m_lift (rv_Int h vid) in m_ret (false, i, rerr)) w1
      end).
  { cbn [ReadOrCreateWithCtx]. unfold m_bind at 1 2. rewrite Hmi, Hread.
    destruct rerr as [[]|]; reflexivity. }
  split.
  - intros -> id ierr w2 Hins. rewrite Hstart. unfold m_bind, m_ret. rewrite Hins.
    split; [reflexivity|].
    destruct (InsertWithCtx_one_statement _ _ _ _ _ _ Hins) as (mi' & ind' & Htr).
    exists mi', ind'. rewrite Htr.
    unfold o_Read, call in Hread.
    destruct (DbBaser_Read _ _ _ _ _ _ _ _ _) as [[r d] h].
    injection Hread as _ <-. cbn. rewrite <- app_assoc. reflexivity.
  - intros Hother vid Hvid.
    assert (Hfound :
      ReadOrCreateWithCtx (S fuel) o ctx md col1 cols w
      = (if pk_positive mi then
           let* u := m_lift (rv_Uint (w_heap w1) vid) in m_ret (false, to_int64 u, rerr)
         else if rel (pk (fields mi)) then
           let* v := m_lift (rv_Interface (w_heap w1) vid) in
           match relModelInfo (pk (fields mi)) with
           | None => m_panic nil_dereference
           | Some rmi => ReadOrCreateWithCtx fuel o ctx v (name (pk (fields rmi))) []
           end
         else let* i := m_lift (rv_Int (w_heap w1) vid) in m_ret (false, i, rerr)) w1).
    { rewrite Hstart. unfold pk_positive.
      destruct rerr as [[]|]; try congruence;
        unfold m_bind at 1 2, m_heap, m_lift at 1; rewrite Hvid; reflexivity. }
    rewrite Hfound. repeat split.
    + intros -> u Hu. unfold m_bind, m_lift, m_ret. rewrite Hu. reflexivity.
    + intros -> -> i Hi. unfold m_bind, m_lift, m_ret. rewrite Hi. reflexivity.
    + intros -> -> v rmi Hv Hrmi. unfold m_bind, m_lift. rewrite Hv, Hrmi. reflexivity.
Qed.

End ReadOrCreate.

(** Reading or creating the user at 1 in the empty database: the read finds
    no row, and the one insert creates the user with identity 1. *)
Lemma ReadOrCreate_select_then_insert_witness :
  ∃ w2, ReadOrCreate (PK := Toy.package) 1 Toy.o (Toy.ptr "main.User" 1%positive) "Name" []
                     Toy.w0
        = (Ret (true, 1, None), w2)
        ∧ length (w_trace w2) = 2%nat.
Proof.
  destruct (ReadOrCreate_select_then_insert (PK := Toy.package) 0 Toy.o Background
              (Toy.ptr "main.User" 1%positive) "Name" [] Toy.w0
              (Toy.world_of [] Toy.mem
                 [EvRead (SqlDB 0) Toy.userMi (RAddr (1%positive, [])) ["Name"] false])
              Toy.userMi (RAddr (1%positive, [])) (Some ErrNoRows) eq_refl eq_refl)
    as [Hcreate _].
  destruct (Hcreate eq_refl 1 None
              (snd (InsertWithCtx (PK := Toy.package) Toy.o Background
                      (Toy.ptr "main.User" 1%positive)
                      (Toy.world_of [] Toy.mem
                         [EvRead (SqlDB 0) Toy.userMi (RAddr (1%positive, [])) ["Name"] false]))))
    as [Hrun (mi' & ind' & Htrace)].
  - vm_compute. reflexivity.
  - eexists. split; [exact Hrun|]. rewrite Htrace. reflexivity.
Defined.

(** ** Loading a related record *)

Section LoadRelated.

Context {PT : PackageTypes} {PK : Package}.

(** The query set that [LoadRelated] runs for a relation to one record: the
    one of the relation, with limit 1 and offset 0 whatever the arguments
    said, and the depth and order of the arguments. *)
Definition to_one_query (qs : querySet) (a : loadArgs) : querySet :=
  {| qs_mi := qs_mi qs; qs_cond := qs_cond qs;
     qs_limit := 1; qs_offset := 0; qs_relDepth := la_relDepth a;
     qs_orders := if (0 <? String.length (la_order a))%nat
                  then [la_order a] else qs_orders qs;
     qs_orm := qs_orm qs |}.

Definition no_args : loadArgs :=
  {| la_relDepth := 0; la_limit := 0; la_offset := 0; la_order := "" |}.

(** C9: for a relation to one record, [LoadRelated] runs [One] on the query
    set with limit 1 and offset 0, whatever limit and offset the caller
    gave; when [One] returns no error, the fresh related record is stored in
    the relation field and the count is 1; when it returns an error, the
    count is 0, the error is returned and nothing is stored: the heap is the
    one [One] returned. *)
Theorem LoadRelated_to_one :
  ∀ (o : ormBase) (ctx : context) (md : value) (fname : string) (args : list value)
    (w : world) (mi : modelInfo) (fi : fieldInfo) (ind : rvalue) (qs : querySet)
    (a : loadArgs) (find : rvalue) (ft et : gtype) (err : option error) (d : DB)
    (h1 : heap),
    queryRelated o md fname w = (Ret (mi, fi, ind, qs), w) →
    is_to_one (fieldType fi) = true →
    LoadRelated_args 0 args no_args = Ret a →
    rv_FieldByIndex (w_heap w) ind (fieldIndex fi) = Ret find →
    rv_Type (w_heap w) find = Ret ft →
    type_Elem ft = Ret et →
    let container := VPtr et (Some (fresh (dom (w_heap w)), [])) in
    querySet_One (to_one_query qs a) container (w_db w)
                 (<[fresh (dom (w_heap w)) := zeroValue et]> (w_heap w))
    = (Ret err, d, h1) →
    LoadRelated o md fname args w = LoadRelatedWithCtx o ctx md fname args w
    ∧ match err with
      | None =>
          ∀ fa old, find = RAddr fa → load h1 fa = Some old →
                    type_of old = Some (TPtr et) →
                    ∃ h2, store h1 fa container = Some h2
                          ∧ load h2 fa = Some container
                          ∧ LoadRelatedWithCtx o ctx md fname args w
                            = (Ret (1, None),
                               after_call w (EvOne (to_one_query qs a) container) d h2)
      | Some e =>
          LoadRelatedWithCtx o ctx md fname args w
          = (Ret (0, Some e), after_call w (EvOne (to_one_query qs a) container) d h1)
      end.
Proof.
  intros o ctx md fname args w mi fi ind qs a find ft et err d h1
         Hqr Hone Hargs Hfind Hft Het container Hcall.
  split; [reflexivity|].
  assert (Hrun :
    LoadRelatedWithCtx o ctx md fname args w
    = match err with
      | None =>
          (let* h := m_heap in
           let* h' := m_lift (rv_Set h find container) in
           let* _ := m_set_heap h' in
           m_ret (1, None)) (after_call w (EvOne (to_one_query qs a) container) d h1)
      | Some _ =>
          (Ret (0, err), after_call w (EvOne (to_one_query qs a) container) d h1)
      end).
  { unfold LoadRelatedWithCtx. unfold m_bind at 1. rewrite Hqr.
    unfold m_bind at 1, m_lift at 1. fold no_args. rewrite Hargs.
    cbv zeta. rewrite Hone. fold (to_one_query qs a).
    unfold m_bind at 1, m_heap at 1.
    unfold m_bind at 1, m_lift at 1. rewrite Hfind.
    unfold m_bind at 1, m_lift at 1. rewrite Hft.
    unfold m_bind at 1, m_lift at 1. rewrite Het.
    unfold m_bind at 1, reflect_New.
    unfold m_bind at 1, call. cbn [w_db w_heap w_trace].
    fold container. rewrite Hcall.
    destruct err; reflexivity. }
  rewrite Hrun. destruct err as [e|]; [reflexivity|].
  intros fa old -> Hold Htype.
  destruct (store_defined h1 fa container old Hold) as [h2 Hstore].
  exists h2. split; [assumption|]. split; [eapply load_store; eassumption|].
  unfold m_bind, m_heap, m_lift, m_set_heap, m_ret. cbn [after_call w_heap w_db w_trace].
  unfold rv_Set. rewrite Hold, Hstore.
  rewrite decide_True by (rewrite Htype; reflexivity). reflexivity.
Qed.

End LoadRelated.

(** Loading the profile of the user at 1, with a limit of 10 and an offset of
    5 in the arguments, when the profile's row is in the database. *)
Lemma LoadRelated_to_one_witness :
  let w := Toy.world_of [("main.Profile", 1)] Toy.mem [] in
  let r := LoadRelated (PK := Toy.package) Toy.o (Toy.ptr "main.User" 1%positive) "Profile"
             [VBool true; VInt SzWord 10; VInt SzWord 5] w in
  fst r = Ret (1, None)
  ∧ load (w_heap (snd r)) (1%positive, [2%nat])
    = Some (VPtr (TStruct "main.Profile") (Some (fresh (dom Toy.mem), [])))
  ∧ ∃ qs c, w_trace (snd r) = [EvOne qs c] ∧ qs_limit qs = 1 ∧ qs_offset qs = 0.
Proof.
  intros w r.
  destruct (LoadRelated_to_one (PK := Toy.package) Toy.o Background
              (Toy.ptr "main.User" 1%positive) "Profile"
              [VBool true; VInt SzWord 10; VInt SzWord 5] w
              Toy.userMi Toy.userProfile (RAddr (1%positive, []))
              (set_cond (newQuerySet (Package := Toy.package) Toy.o (Some Toy.profileMi))
                        [("id", [Toy.ptr "main.User" 1%positive])])
              {| la_relDepth := 2; la_limit := 10; la_offset := 5; la_order := "" |}
              (RAddr (1%positive, [2%nat])) (TPtr (TStruct "main.Profile"))
              (TStruct "main.Profile") None [("main.Profile", 1)]
              (<[fresh (dom Toy.mem) := VStruct "main.Profile" [VUint Sz32 0]]> Toy.mem)
              eq_refl eq_refl eq_refl eq_refl eq_refl eq_refl eq_refl)
    as [Hfree Hload].
  destruct (Hload (1%positive, [2%nat]) (VPtr (TStruct "main.Profile") None)
              eq_refl eq_refl eq_refl) as (h2 & Hstore & Hfield & Hrun).
  subst r. rewrite Hfree, Hrun. cbn [fst snd after_call w_heap w_trace].
  split; [reflexivity|]. split; [exact Hfield|].
  eexists _, _. split; [reflexivity|]. split; reflexivity.
Defined.

(** ** Addresses that do not overlap *)

(** Two paths part ways at some index, so that neither leads into the
    other's value. *)
Fixpoint diverge (p q : path) : bool :=
  match p, q with
  | i :: p', j :: q' => if decide (i = j) then diverge p' q' else true
  | _, _ => false
  end.

Definition disjoint (a b : addr) : Prop :=
  a.1 ≠ b.1 ∨ diverge a.2 b.2 = true.

Lemma value_set_at_diverge (p : path) :
  ∀ (q : path) (v o o' : value),
    value_set_at p v o = Some o' → diverge p q = true → value_at q o' = value_at q o.
Proof.
  induction p as [|i p IH]; intros q v o o' Hset Hdiv; [discriminate|].
  destruct q as [|j q]; [discriminate|]. cbn in Hdiv, Hset.
  destruct o as [| | | | |n fs| | |t elems]; try discriminate.
  - destruct (fs !! i) as [f|] eqn:Hf; cbn in Hset; [|discriminate].
    destruct (value_set_at p v f) as [f'|] eqn:Hf'; cbn in Hset; [|discriminate].
    injection Hset as <-. cbn.
    destruct (decide (i = j)) as [<-|Hne].
    + rewrite list_lookup_insert_eq by (eapply lookup_lt_Some; eassumption).
      rewrite Hf. cbn. eapply IH; eassumption.
    + rewrite list_lookup_insert_ne by assumption. reflexivity.
  - destruct (elems !! i) as [f|] eqn:Hf; cbn in Hset; [|discriminate].
    destruct (value_set_at p v f) as [f'|] eqn:Hf'; cbn in Hset; [|discriminate].
    injection Hset as <-. cbn.
    destruct (decide (i = j)) as [<-|Hne].
    + rewrite list_lookup_insert_eq by (eapply lookup_lt_Some; eassumption).
      rewrite Hf. cbn. eapply IH; eassumption.
    + rewrite list_lookup_insert_ne by assumption. reflexivity.
Qed.

Lemma store_load_disjoint (h h' : heap) (a b : addr) (v : value) :
  store h a v = Some h' → disjoint a b → load h' b = load h b.
Proof.
  unfold store, load, disjoint. intros Hst Hdis.
  destruct (h !! a.1) as [o|] eqn:Ho; cbn in Hst; [|discriminate].
  destruct (value_set_at a.2 v o) as [o'|] eqn:Ho'; cbn in Hst; [|discriminate].
  injection Hst as <-.
  destruct (decide (a.1 = b.1)) as [Heq|Hne].
  - destruct Hdis as [Hdis|Hdis]; [contradiction|].
    rewrite <- Heq, lookup_insert_eq, Ho. cbn.
    eapply value_set_at_diverge; eassumption.
  - rewrite lookup_insert_ne by assumption. reflexivity.
Qed.

(** ** Inserting many records *)

Section InsertMany.

Context {PT : PackageTypes} {PK : Package}.

(** What the write-back of one insert stored: nothing when the identity is
    not automatic, and otherwise the identity, converted to the field's
    type, at the address of the record's identity field. *)
Definition written_back_at (mi : modelInfo) (ind : rvalue) (id : Z) (h h' : heap)
           (wr : option (addr * value)) : Prop :=
  if auto (pk (fields mi)) then
    ∃ a s, wr = Some (a, identity_as (pk_positive mi) s id)
           ∧ pk_field_at h mi ind a s
           ∧ store h a (identity_as (pk_positive mi) s id) = Some h'
  else wr = None ∧ h' = h.

(** One turn of the one-by-one loop that succeeds, told by what happens
    outside the session layer: the adapter inserts the [i]-th record and
    returns the identity [id] and no error, and the identity is written
    back. *)
Definition inserted_one (o : ormBase) (sind : rvalue) (i : nat) (w : world) (id : Z)
           (wr : option (addr * value)) (w' : world) : Prop :=
  ∃ e v mi x d h h',
    rv_Index (w_heap w) sind i = Ret e
    ∧ rv_Interface (w_heap w) (reflect_Indirect (w_heap w) e) = Ret v
    ∧ getMiInd o v false w = (Ret (mi, x), w)
    ∧ DbBaser_Insert (DbBaser (ormBase_alias o)) (db o) mi (reflect_Indirect (w_heap w) e)
                     (TZ (alias_info (ormBase_alias o))) (w_db w) (w_heap w)
      = (Ret (id, None), d, h)
    ∧ written_back_at mi (reflect_Indirect (w_heap w) e) id h h' wr
    ∧ w' = after_call w (EvInsert (db o) mi (reflect_Indirect (w_heap w) e)) d h'.

(** One turn in which the adapter's insert of the [i]-th record returns the
    error [err]. *)
Definition insert_failed (o : ormBase) (sind : rvalue) (i : nat) (w : world) (err : error)
           (w' : world) : Prop :=
  ∃ e v mi x id d h,
    rv_Index (w_heap w) sind i = Ret e
    ∧ rv_Interface (w_heap w) (reflect_Indirect (w_heap w) e) = Ret v
    ∧ getMiInd o v false w = (Ret (mi, x), w)
    ∧ DbBaser_Insert (DbBaser (ormBase_alias o)) (db o) mi (reflect_Indirect (w_heap w) e)
                     (TZ (alias_info (ormBase_alias o))) (w_db w) (w_heap w)
      = (Ret (id, Some err), d, h)
    ∧ w' = after_call w (EvInsert (db o) mi (reflect_Indirect (w_heap w) e)) d h.

(** The turns from the [i]-th on that succeed one after the other, with the
    identity and the write-back of each. *)
Inductive inserted_upto (o : ormBase) (sind : rvalue)
  : nat → world → list (Z * option (addr * value)) → world → Prop :=
| upto_done (i : nat) (w : world) : inserted_upto o sind i w [] w
| upto_next (i len : nat) (w w1 w2 : world) (id : Z) (wr : option (addr * value))
            (log : list (Z * option (addr * value))) :
    rv_Len (w_heap w) sind = Ret len →
    (i < len)%nat →
    inserted_one o sind i w id wr w1 →
    inserted_upto o sind (S i) w1 log w2 →
    inserted_upto o sind i w ((id, wr) :: log) w2.

(** The adapter's insert never changes what is stored at [a]. *)
Definition adapter_keeps (o : ormBase) (a : addr) : Prop :=
  ∀ q mi ind tz d h r d' h',
    DbBaser_Insert (DbBaser (ormBase_alias o)) q mi ind tz d h = (r, d', h') →
    load h' a = load h a.

(** The identity fields that were written are apart from each other, and the
    adapter's insert leaves them alone. *)
Definition fields_apart (o : ormBase) (log : list (Z * option (addr * value))) : Prop :=
  (∀ k id a v, log !! k = Some (id, Some (a, v)) → adapter_keeps o a)
  ∧ (∀ j k x y a b va vb,
       (j < k)%nat → log !! j = Some (x, Some (a, va)) →
       log !! k = Some (y, Some (b, vb)) → disjoint b a).

Definition is_insert (ev : event) : Prop :=
  match ev with
  | EvInsert _ _ _ => True
  | _ => False
  end.

Lemma setPk_written_back_at (o : ormBase) (mi : modelInfo) (ind : rvalue) (id : Z)
      (w : world) (h' : heap) (wr : option (addr * value)) :
  written_back_at mi ind id (w_heap w) h' wr →
  setPk o mi ind id w = (Ret tt, with_heap w h').
Proof.
  unfold written_back_at. destruct (auto (pk (fields mi))) eqn:Hauto.
  - intros (a & s & _ & Hat & Hstore).
    destruct (setPk_auto o mi ind id w a s Hauto Hat) as (h'' & Hstore' & Hset).
    rewrite Hset. congruence.
  - intros [_ ->]. rewrite setPk_not_auto by assumption. destruct w; reflexivity.
Qed.

Lemma body_inserted (o : ormBase) (sind : rvalue) (i : nat) (w w' : world) (id : Z)
      (wr : option (addr * value)) :
  inserted_one o sind i w id wr w' → InsertMulti_body o sind i w = (Ret None, w').
Proof.
  intros (e & v & mi & x & d & h & h' & He & Hv & Hmi & Hdb & Hwb & ->).
  unfold InsertMulti_body, m_bind, m_heap, m_lift. rewrite He, Hv, Hmi.
  unfold o_Insert, call. rewrite Hdb.
  fold (after_call w (EvInsert (db o) mi (reflect_Indirect (w_heap w) e)) d h).
  rewrite (setPk_written_back_at o mi _ id
             (after_call w (EvInsert (db o) mi (reflect_Indirect (w_heap w) e)) d h)
             h' wr Hwb).
  reflexivity.
Qed.

Lemma body_failed (o : ormBase) (sind : rvalue) (i : nat) (w w' : world) (err : error) :
  insert_failed o sind i w err w' → InsertMulti_body o sind i w = (Ret (Some err), w').
Proof.
  intros (e & v & mi & x & id & d & h & He & Hv & Hmi & Hdb & ->).
  unfold InsertMulti_body, m_bind, m_heap, m_lift. rewrite He, Hv, Hmi.
  unfold o_Insert, call. rewrite Hdb. reflexivity.
Qed.

(** A turn succeeds as soon as the adapter's insert does and the record has
    the identity field of its descriptor: the write-back is then determined. *)
Lemma inserted_one_exists (o : ormBase) (sind : rvalue) (i : nat) (w : world)
      (e x : rvalue) (v : value) (mi : modelInfo) (id : Z) (d : DB) (h : heap) :
  rv_Index (w_heap w) sind i = Ret e →
  rv_Interface (w_heap w) (reflect_Indirect (w_heap w) e) = Ret v →
  getMiInd o v false w = (Ret (mi, x), w) →
  DbBaser_Insert (DbBaser (ormBase_alias o)) (db o) mi (reflect_Indirect (w_heap w) e)
                 (TZ (alias_info (ormBase_alias o))) (w_db w) (w_heap w)
  = (Ret (id, None), d, h) →
  (auto (pk (fields mi)) = true →
   ∃ a s, pk_field_at h mi (reflect_Indirect (w_heap w) e) a s) →
  ∃ wr w', inserted_one o sind i w id wr w'.
Proof.
  intros He Hv Hmi Hdb Hfield.
  assert (Hwb : ∃ wr h', written_back_at mi (reflect_Indirect (w_heap w) e) id h h' wr).
  { unfold written_back_at. destruct (auto (pk (fields mi))).
    - destruct (Hfield eq_refl) as (a & s & Hat).
      destruct Hat as [Hidx [n Hload]].
      destruct (store_defined h a (identity_as (pk_positive mi) s id) _ Hload) as [h' Hst].
      exists (Some (a, identity_as (pk_positive mi) s id)), h', a, s.
      repeat split; try assumption. exists n. assumption.
    - exists None, h. split; reflexivity. }
  destruct Hwb as (wr & h' & Hwb).
  exists wr, (after_call w (EvInsert (db o) mi (reflect_Indirect (w_heap w) e)) d h').
  exists e, v, mi, x, d, h, h'. repeat split; assumption.
Qed.

(** The loop follows the turns that succeed. *)
Lemma loop_follows (o : ormBase) (sind : rvalue) (i : nat) (w w' : world)
      (log : list (Z * option (addr * value))) :
  inserted_upto o sind i w log w' →
  ∀ fuel cnt,
    InsertMulti_loop (length log + fuel) o sind i cnt w
    = InsertMulti_loop fuel o sind (i + length log) (cnt + Z.of_nat (length log)) w'.
Proof.
  induction 1 as [i w|i len w w1 w2 id wr log Hlen Hlt Hone Hrest IH]; intros fuel cnt.
  - cbn [length]. rewrite Nat.add_0_r, Z.add_0_r. reflexivity.
  - cbn [length Nat.add InsertMulti_loop].
    unfold m_bind at 1 2, m_heap at 1, m_lift at 1. rewrite Hlen.
    apply Nat.ltb_lt in Hlt. rewrite Hlt.
    unfold m_bind at 1. rewrite (body_inserted _ _ _ _ _ _ _ Hone).
    rewrite IH. f_equal; lia.
Qed.


Lemma loop_fails (fuel : nat) (o : ormBase) (sind : rvalue) (i len : nat) (cnt : Z)
      (w w' : world) (err : error) :
  rv_Len (w_heap w) sind = Ret len → (i < len)%nat →
  insert_failed o sind i w err w' →
  InsertMulti_loop (S fuel) o sind i cnt w = (Ret (cnt, Some err), w').
Proof.
  intros Hlen Hlt Hfail. cbn [InsertMulti_loop].
  unfold m_bind at 1 2, m_heap at 1, m_lift at 1. rewrite Hlen.
  apply Nat.ltb_lt in Hlt. rewrite Hlt.
  unfold m_bind. rewrite (body_failed _ _ _ _ _ _ Hfail). reflexivity.
Qed.

Lemma Len_seq_length (h : heap) (sind : rvalue) (len : nat) :
  rv_Len h sind = Ret len → seq_length h sind = Some len.
Proof.
  unfold seq_length, rv_Len. destruct (rv_get h sind) as [[]|]; congruence.
Qed.

Lemma inserted_upto_start (o : ormBase) (sind : rvalue) (i : nat) (w w' : world)
      (log : list (Z * option (addr * value))) :
  inserted_upto o sind i w log w' →
  (log = [] ∧ w' = w) ∨ ∃ len, rv_Len (w_heap w) sind = Ret len ∧ (i < len)%nat.
Proof. destruct 1; eauto. Qed.

Lemma inserted_one_trace (o : ormBase) (sind : rvalue) (i : nat) (w w' : world) (id : Z)
      (wr : option (addr * value)) :
  inserted_one o sind i w id wr w' →
  ∃ ev, is_insert ev ∧ w_trace w' = w_trace w ++ [ev].
Proof.
  intros (e & v & mi & x & d & h & h' & _ & _ & _ & _ & _ & ->).
  eexists. split; [|reflexivity]. exact I.
Qed.

Lemma insert_failed_trace (o : ormBase) (sind : rvalue) (i : nat) (w w' : world)
      (err : error) :
  insert_failed o sind i w err w' →
  ∃ ev, is_insert ev ∧ w_trace w' = w_trace w ++ [ev].
Proof.
  intros (e & v & mi & x & id & d & h & _ & _ & _ & _ & ->).
  eexists. split; [|reflexivity]. exact I.
Qed.

Lemma inserted_one_wrote (o : ormBase) (sind : rvalue) (i : nat) (w w' : world) (id : Z)
      (a : addr) (v : value) :
  inserted_one o sind i w id (Some (a, v)) w' → load (w_heap w') a = Some v.
Proof.
  intros (e & u & mi & x & d & h & h' & _ & _ & _ & _ & Hwb & ->).
  unfold written_back_at in Hwb. destruct (auto (pk (fields mi))).
  - destruct Hwb as (a' & s & [= -> ->] & _ & Hstore).
    cbn [after_call w_heap]. eapply load_store; eassumption.
  - destruct Hwb as [[=] _].
Qed.

Lemma inserted_one_keeps (o : ormBase) (sind : rvalue) (i : nat) (w w' : world) (id : Z)
      (wr : option (addr * value)) (a : addr) :
  inserted_one o sind i w id wr w' →
  adapter_keeps o a →
  (∀ b v, wr = Some (b, v) → disjoint b a) →
  load (w_heap w') a = load (w_heap w) a.
Proof.
  intros (e & u & mi & x & d & h & h' & _ & _ & _ & Hdb & Hwb & ->) Hkeep Hapart.
  cbn [after_call w_heap]. rewrite <- (Hkeep _ _ _ _ _ _ _ _ _ Hdb).
  unfold written_back_at in Hwb. destruct (auto (pk (fields mi))).
  - destruct Hwb as (b & s & -> & _ & Hstore).
    eapply store_load_disjoint; [eassumption|]. eapply Hapart. reflexivity.
  - destruct Hwb as [_ ->]. reflexivity.
Qed.

Lemma insert_failed_keeps (o : ormBase) (sind : rvalue) (i : nat) (w w' : world)
      (err : error) (a : addr) :
  insert_failed o sind i w err w' → adapter_keeps o a →
  load (w_heap w') a = load (w_heap w) a.
Proof.
  intros (e & u & mi & x & id & d & h & _ & _ & _ & Hdb & ->) Hkeep.
  cbn [after_call w_heap]. eapply Hkeep. eassumption.
Qed.

Lemma inserted_upto_trace (o : ormBase) (sind : rvalue) (i : nat) (w w' : world)
      (log : list (Z * option (addr * value))) :
  inserted_upto o sind i w log w' →
  ∃ evs, w_trace w' = w_trace w ++ evs ∧ length evs = length log ∧ Forall is_insert evs.
Proof.
  induction 1 as [i w|i len w w1 w2 id wr log Hlen Hlt Hone Hrest IH].
  - exists []. rewrite app_nil_r. auto.
  - destruct (inserted_one_trace _ _ _ _ _ _ _ Hone) as (ev & Hev & Htr1).
    destruct IH as (evs & Htr & Hn & Hall).
    exists (ev :: evs). rewrite Htr, Htr1, <- app_assoc. cbn.
    repeat split; auto.
Qed.

Lemma inserted_upto_keeps (o : ormBase) (sind : rvalue) (i : nat) (w w' : world)
      (log : list (Z * option (addr * value))) (a : addr) :
  inserted_upto o sind i w log w' →
  adapter_keeps o a →
  (∀ k id b v, log !! k = Some (id, Some (b, v)) → disjoint b a) →
  load (w_heap w') a = load (w_heap w) a.
Proof.
  induction 1 as [i w|i len w w1 w2 id wr log Hlen Hlt Hone Hrest IH];
    intros Hkeep Hapart; [reflexivity|].
  rewrite IH; [|assumption|].
  - eapply inserted_one_keeps; [eassumption..|].
    intros b v ->. eapply (Hapart 0%nat). reflexivity.
  - intros k id' b v Hk. eapply (Hapart (S k)). exact Hk.
Qed.

(** When the written fields are apart and the adapter leaves them alone,
    every identity that was written is still in its field at the end. *)
Lemma inserted_upto_final (o : ormBase) (sind : rvalue) (i : nat) (w w' : world)
      (log : list (Z * option (addr * value))) :
  inserted_upto o sind i w log w' →
  fields_apart o log →
  ∀ k id a v, log !! k = Some (id, Some (a, v)) → load (w_heap w') a = Some v.
Proof.
  induction 1 as [i w|i len w w1 w2 id wr log Hlen Hlt Hone Hrest IH];
    intros [Hkeep Hapart] k id' a v Hk; [discriminate|].
  destruct k as [|k].
  - injection Hk as -> ->.
    rewrite (inserted_upto_keeps _ _ _ _ _ _ a Hrest).
    + eapply inserted_one_wrote; eassumption.
    + eapply (Hkeep 0%nat). reflexivity.
    + intros k y b vb Hb. eapply (Hapart 0%nat (S k)); [lia|reflexivity|exact Hb].
  - eapply IH; [|exact Hk]. split.
    + intros k0 y b vb Hb. eapply (Hkeep (S k0)). exact Hb.
    + intros j k0 x y b c vb vc Hjk Hj Hk0.
      eapply (Hapart (S j) (S k0)); [lia|exact Hj|exact Hk0].
Qed.

Lemma InsertMultiWithCtx_one_by_one (fuel : nat) (o : ormBase) (ctx : context) (bulk : Z)
      (mds : value) (w : world) (len : nat) :
  bulk <= 1 →
  rv_Len (w_heap w) (reflect_Indirect (w_heap w) (reflect_ValueOf mds)) = Ret len →
  (0 < len)%nat →
  InsertMultiWithCtx fuel o ctx bulk mds w
  = InsertMulti_loop fuel o (reflect_Indirect (w_heap w) (reflect_ValueOf mds)) 0%nat 0 w.
Proof.
  intros Hbulk Hlen Hpos. rewrite InsertMultiWithCtx_unfold.
  rewrite (Len_seq_length _ _ _ Hlen).
  replace (len =? 0)%nat with false by (symmetry; apply Nat.eqb_neq; lia).
  replace (bulk <=? 1) with true by (symmetry; apply Z.leb_le; assumption).
  reflexivity.
Qed.


(** C10: in the one-by-one mode, when the inserts of the first [i] records
    succeed and the adapter's insert of the next record returns an error,
    [InsertMulti] returns the count [i] with that error; the world is the one
    that the failed insert left, after [i + 1] insert statements and nothing
    else, so that no earlier insert was rolled back or undone, and the
    identities written into the first [i] records are still there. *)
Theorem InsertMulti_not_atomic :
  ∀ (fuel : nat) (o : ormBase) (ctx : context) (bulk : Z) (mds : value)
    (w w1 w2 : world) (log : list (Z * option (addr * value))) (len : nat) (err : error),
    bulk <= 1 →
    inserted_upto o (reflect_Indirect (w_heap w) (reflect_ValueOf mds)) 0 w log w1 →
    rv_Len (w_heap w1) (reflect_Indirect (w_heap w) (reflect_ValueOf mds)) = Ret len →
    (length log < len)%nat →
    insert_failed o (reflect_Indirect (w_heap w) (reflect_ValueOf mds)) (length log) w1 err w2 →
    (length log < fuel)%nat →
    InsertMultiWithCtx fuel o ctx bulk mds w = (Ret (Z.of_nat (length log), Some err), w2)
    ∧ InsertMulti fuel o bulk mds w = InsertMultiWithCtx fuel o ctx bulk mds w
    ∧ (∃ evs, w_trace w2 = w_trace w ++ evs
              ∧ length evs = S (length log)
              ∧ Forall is_insert evs)
    ∧ (fields_apart o log →
       ∀ k id a v, log !! k = Some (id, Some (a, v)) → load (w_heap w2) a = Some v).
Proof.
  intros fuel o ctx bulk mds w w1 w2 log len err Hbulk Hrun Hlen Hlt Hfail Hfuel.
  set (sind := reflect_Indirect (w_heap w) (reflect_ValueOf mds)) in *.
  split; [|split; [reflexivity|split]].
  - assert (Hstart : ∃ len0, rv_Len (w_heap w) sind = Ret len0 ∧ (0 < len0)%nat).
    { destruct (inserted_upto_start _ _ _ _ _ _ Hrun) as [[-> ->]|Hfirst].
      - exists len. split; [assumption|]. cbn in Hlt. lia.
      - exact Hfirst. }
    destruct Hstart as (len0 & Hlen0 & Hpos).
    rewrite (InsertMultiWithCtx_one_by_one fuel o ctx bulk mds w len0 Hbulk Hlen0 Hpos).
    fold sind.
    replace fuel with (length log + S (fuel - S (length log)))%nat by lia.
    rewrite (loop_follows _ _ _ _ _ _ Hrun).
    cbn [Nat.add]. rewrite Z.add_0_l.
    rewrite (loop_fails _ o sind (length log) len _ w1 w2 err Hlen Hlt Hfail).
    reflexivity.
  - destruct (inserted_upto_trace _ _ _ _ _ _ Hrun) as (evs & Htr & Hn & Hall).
    destruct (insert_failed_trace _ _ _ _ _ _ Hfail) as (ev & Hev & Htr2).
    exists (evs ++ [ev]). rewrite Htr2, Htr, <- app_assoc.
    split; [reflexivity|]. split.
    + rewrite length_app. cbn. lia.
    + apply Forall_app. split; [assumption|]. constructor; [assumption|constructor].
  - intros Hapart k id a v Hk.
    rewrite (insert_failed_keeps _ _ _ _ _ _ a Hfail).
    + eapply inserted_upto_final; eassumption.
    + destruct Hapart as [Hkeep _]. eapply Hkeep. eassumption.
Qed.

End InsertMany.

(** The memory adapter's insert returns the heap it was given. *)
Lemma Toy_adapter_keeps (a : addr) : adapter_keeps (PT := Toy.types) Toy.o a.
Proof.
  intros q mi ind tz d h r d' h' Hins. cbn in Hins. unfold Toy.memInsert in Hins.
  destruct (length d <? Toy.capacity)%nat; injection Hins as _ _ <-; reflexivity.
Qed.

Ltac toy_inserted_one a :=
  unfold inserted_one;
  eexists _, _, _, _, _, _, _;
  split; [reflexivity|]; split; [reflexivity|]; split; [reflexivity|];
  split; [reflexivity|]; split; [|reflexivity];
  unfold written_back_at; cbn [auto pk fields Toy.userMi Toy.userPk];
  exists a, SzWord; split; [reflexivity|]; split; [|reflexivity];
  split; [reflexivity|]; eexists; reflexivity.


(** Three users of a slice, one by one, into a database with room for two:
    the third insert fails, the count is 2 and the first two users keep
    their identities. *)
Lemma InsertMulti_not_atomic_witness :
  let mds := VSlice (TStruct "main.User")
               [(5%positive, [0%nat]); (5%positive, [1%nat]); (5%positive, [2%nat])] in
  ∃ w', InsertMulti (PK := Toy.package) 4 Toy.o 1 mds Toy.w0
        = (Ret (2, Some (Errorf "UNIQUE constraint failed")), w')
        ∧ w_db w' = [("main.User", 1); ("main.User", 2)]
        ∧ length (w_trace w') = 3%nat
        ∧ load (w_heap w') (5%positive, [0%nat; 0%nat]) = Some (VInt SzWord 1)
        ∧ load (w_heap w') (5%positive, [1%nat; 0%nat]) = Some (VInt SzWord 2).
Proof.
  intros mds.
  edestruct (InsertMulti_not_atomic (PK := Toy.package) 4 Toy.o Background 1 mds Toy.w0)
    with (log := [(1, Some ((5%positive, [0%nat; 0%nat]), VInt SzWord 1));
                  (2, Some ((5%positive, [1%nat; 0%nat]), VInt SzWord 2))])
         (len := 3%nat) (err := Errorf "UNIQUE constraint failed")
    as (Hrun & Hfree & (evs & Htrace & Hcount & _) & Hfinal).
  - lia.
  - eapply upto_next;
      [reflexivity|cbn; lia|toy_inserted_one (5%positive, [0%nat; 0%nat])|].
    eapply upto_next;
      [reflexivity|cbn; lia|toy_inserted_one (5%positive, [1%nat; 0%nat])|].
    apply upto_done.
  - reflexivity.
  - cbn. lia.
  - unfold insert_failed. eexists _, _, _, _, _, _, _.
    split; [reflexivity|]. split; [reflexivity|]. split; [reflexivity|].
    split; reflexivity.
  - cbn. lia.
  - eexists. split; [rewrite Hfree; exact Hrun|].
    split; [reflexivity|]. split; [rewrite Htrace, length_app, Hcount; reflexivity|].
    assert (Hapart : fields_apart (PT := Toy.types) Toy.o
                       [(1, Some ((5%positive, [0%nat; 0%nat]), VInt SzWord 1));
                        (2, Some ((5%positive, [1%nat; 0%nat]), VInt SzWord 2))]).
    { split.
      - intros k id a v _. apply Toy_adapter_keeps.
      - intros j k x y a b va vb Hjk Hj Hk.
        destruct j as [|[|j]]; destruct k as [|[|k]]; try lia; try discriminate.
        injection Hj as _ <- _. injection Hk as _ <- _. right. reflexivity. }
    split.
    + exact (Hfinal Hapart 0%nat _ _ _ eq_refl).
    + exact (Hfinal Hapart 1%nat _ _ _ eq_refl).
Defined.

(** The write-back needs records in addressable storage, a slice or an array
    behind a pointer: for an array passed by value, the first insert reaches
    the database and the write-back of its identity panics. *)
Lemma InsertMulti_array_by_value :
  let r := InsertMulti (PK := Toy.package) 3 Toy.o 1
             (VArray (TStruct "main.User") [Toy.user 0 "a"; Toy.user 0 "b"]) Toy.w0 in
  fst r = Panic (PanicRuntime "reflect: reflect.Value.SetInt using unaddressable value")
  ∧ w_db (snd r) = [("main.User", 1)].
Proof. vm_compute. split; reflexivity. Qed.

(** * Further properties of the session layer *)

(** ** The argument of a record operation *)

Section RecordArgument.

Context {PT : PackageTypes} {PK : Package}.

Lemma rv_Type_not_Timeout (h : heap) (rv : rvalue) : rv_Type h rv ≠ Timeout.
Proof. unfold rv_Type. destruct (_ ≫= _); discriminate. Qed.

Lemma getMiInd_not_Timeout (o : ormBase) (md : value) (needPtr : bool) (w w' : world) :
  getMiInd o md needPtr w ≠ (Timeout, w').
Proof.
  unfold getMiInd, m_bind, m_heap, m_lift, m_panic, m_ret.
  destruct (rv_Type _ _) eqn:Htyp; try discriminate.
  - destruct (_ && _); [discriminate|].
    destruct (modelCache_getByFullName _ _); discriminate.
  - exfalso. eapply rv_Type_not_Timeout. eassumption.
Qed.

Lemma getMiInd_pointer (o : ormBase) (md : value) (w w' : world) (mi : modelInfo)
      (ind : rvalue) :
  getMiInd o md true w = (Ret (mi, ind), w') →
  ∃ t a, md = VPtr t (Some a) ∧ ind = RAddr a.
Proof.
  unfold getMiInd, m_bind, m_heap, m_lift, m_panic, m_ret.
  destruct (rv_Type (w_heap w) (reflect_Indirect (w_heap w) (reflect_ValueOf md)))
    as [typ| |] eqn:Htyp; try discriminate.
  destruct (true && negb (bool_decide (rv_Kind (w_heap w) (reflect_ValueOf md) = Ptr)))
    eqn:Hptr; [discriminate|].
  destruct (modelCache_getByFullName modelCache (getFullName typ)); [|discriminate].
  intros [= _ <- _].
  cbn in Hptr. apply negb_false_iff, bool_decide_eq_true in Hptr.
  destruct md as [| | | | | |t [a|]| |]; try discriminate Hptr.
  - exists t, a. split; reflexivity.
  - discriminate Htyp.
Qed.

(** Whenever [getMiInd] returns, the world is as before, the reflect value
    is the argument behind at most one pointer, and the descriptor is the one
    registered for the type found there; when a pointer is asked for, the
    argument is a pointer that is not nil and the reflect value refers to the
    caller's own storage. *)
Theorem getMiInd_returns :
  ∀ (o : ormBase) (md : value) (needPtr : bool) (w w' : world) (mi : modelInfo)
    (ind : rvalue),
    getMiInd o md needPtr w = (Ret (mi, ind), w') →
    w' = w
    ∧ ind = reflect_Indirect (w_heap w) (reflect_ValueOf md)
    ∧ (∃ typ, rv_Type (w_heap w) ind = Ret typ
              ∧ modelCache_getByFullName modelCache (getFullName typ) = Some mi)
    ∧ (needPtr = true → ∃ t a, md = VPtr t (Some a) ∧ ind = RAddr a).
Proof.
  intros o md needPtr w w' mi ind Hget.
  split; [eapply getMiInd_world; eassumption|].
  assert (Hptr : needPtr = true → ∃ t a, md = VPtr t (Some a) ∧ ind = RAddr a).
  { intros ->. eapply getMiInd_pointer. eassumption. }
  unfold getMiInd, m_bind, m_heap, m_lift, m_panic, m_ret in Hget.
  destruct (rv_Type (w_heap w) (reflect_Indirect (w_heap w) (reflect_ValueOf md)))
    as [typ| |] eqn:Htyp; try discriminate.
  destruct (needPtr && negb (bool_decide (rv_Kind (w_heap w) (reflect_ValueOf md) = Ptr)));
    [discriminate|].
  destruct (modelCache_getByFullName modelCache (getFullName typ)) as [mi'|] eqn:Hreg;
    [|discriminate].
  injection Hget as <- <- _.
  split; [reflexivity|]. split; [exists typ; split; assumption|]. exact Hptr.
Qed.

Definition non_ptr_panic (typ : gtype) : panic_value :=
  PanicError (Errorf
    ("<Ormer> cannot use non-ptr model struct `" +:+ getFullName typ +:+ "`")).

(** The operation panics and leaves the world as it was; for a value that is
    no pointer, the panic is the one of the model struct that is no
    pointer. *)
Definition fails_no_pointer {A : Type} (md : value) (c : M A) (w : world) : Prop :=
  ∃ p, c w = (Panic p, w)
       ∧ ∀ typ, type_of md = Some typ → kind_of md ≠ Ptr → p = non_ptr_panic typ.

Lemma getMiInd_no_pointer (o : ormBase) (md : value) (w : world) :
  (∀ t a, md ≠ VPtr t (Some a)) → fails_no_pointer md (getMiInd o md true) w.
Proof.
  intros Hshape.
  destruct (getMiInd o md true w) as [[[mi ind]|p|] w'] eqn:Hget.
  - destruct (getMiInd_pointer _ _ _ _ _ _ Hget) as (t & a & -> & _).
    exfalso. eapply Hshape. reflexivity.
  - pose proof (getMiInd_world _ _ _ _ _ _ Hget) as ->.
    exists p. split; [exact Hget|]. intros typ Htyp Hkind.
    unfold getMiInd, m_bind, m_heap, m_lift, m_panic, m_ret in Hget.
    destruct md; try discriminate Htyp; try (exfalso; apply Hkind; reflexivity);
      cbn in Hget, Htyp; injection Htyp as <-; injection Hget as <-; reflexivity.
  - exfalso. eapply getMiInd_not_Timeout. eassumption.
Qed.

Lemma queryRelated_no_pointer (o : ormBase) (md : value) (fname : string) (w : world) :
  (∀ t a, md ≠ VPtr t (Some a)) → fails_no_pointer md (queryRelated o md fname) w.
Proof.
  intros Hshape. destruct (getMiInd_no_pointer o md w Hshape) as (p & Hget & Hp).
  exists p. split; [|assumption]. unfold queryRelated, m_bind. rewrite Hget. reflexivity.
Qed.

Ltac stops_at_getMiInd o md w Hshape :=
  let p := fresh "p" in
  let Hget := fresh "Hget" in
  let Hp := fresh "Hp" in
  destruct (getMiInd_no_pointer o md w Hshape) as (p & Hget & Hp);
  exists p; split; [|assumption];
  cbv beta delta [ReadWithCtx ReadForUpdateWithCtx InsertWithCtx InsertOrUpdateWithCtx
                  UpdateWithCtx DeleteWithCtx QueryM2MWithCtx];
  cbn [ReadOrCreateWithCtx]; unfold m_bind; rewrite Hget; reflexivity.

Ltac stops_at_queryRelated o md fname w Hshape :=
  let p := fresh "p" in
  let Hget := fresh "Hget" in
  let Hp := fresh "Hp" in
  destruct (queryRelated_no_pointer o md fname w Hshape) as (p & Hget & Hp);
  exists p; split; [|assumption];
  cbv beta delta [LoadRelatedWithCtx QueryRelatedWithCtx];
  unfold m_bind; rewrite Hget; reflexivity.

(** A record operation handed anything but a pointer that is not nil (a
    struct by value, nil, a nil pointer) panics before it sends a statement,
    also when the model is registered. *)
Theorem record_operations_need_pointer :
  ∀ (o : ormBase) (ctx : context) (md : value) (w : world),
    (∀ t a, md ≠ VPtr t (Some a)) →
    (∀ cols, fails_no_pointer md (ReadWithCtx o ctx md cols) w)
    ∧ (∀ cols, fails_no_pointer md (ReadForUpdateWithCtx o ctx md cols) w)
    ∧ (∀ fuel col1 cols,
         fails_no_pointer md (ReadOrCreateWithCtx (S fuel) o ctx md col1 cols) w)
    ∧ fails_no_pointer md (InsertWithCtx o ctx md) w
    ∧ (∀ args, fails_no_pointer md (InsertOrUpdateWithCtx o ctx md args) w)
    ∧ (∀ cols, fails_no_pointer md (UpdateWithCtx o ctx md cols) w)
    ∧ (∀ cols, fails_no_pointer md (DeleteWithCtx o ctx md cols) w)
    ∧ (∀ fname, fails_no_pointer md (QueryM2MWithCtx o ctx md fname) w)
    ∧ (∀ fname args, fails_no_pointer md (LoadRelatedWithCtx o ctx md fname args) w)
    ∧ (∀ fname, fails_no_pointer md (QueryRelatedWithCtx o ctx md fname) w).
Proof.
  intros o ctx md w Hshape.
  repeat split; intros;
    first [ stops_at_getMiInd o md w Hshape | stops_at_queryRelated o md fname w Hshape ].
Qed.

End RecordArgument.

(** The descriptor and the storage of the user at 1. *)
Lemma getMiInd_returns_witness :
  getMiInd (PK := Toy.package) Toy.o (Toy.ptr "main.User" 1%positive) true Toy.w0
  = (Ret (Toy.userMi, RAddr (1%positive, [])), Toy.w0)
  ∧ ∃ t a, Toy.ptr "main.User" 1%positive = VPtr t (Some a)
           ∧ RAddr (1%positive, []) = RAddr a.
Proof.
  split; [reflexivity|].
  destruct (getMiInd_returns (PK := Toy.package) Toy.o (Toy.ptr "main.User" 1%positive)
              true Toy.w0 Toy.w0 Toy.userMi (RAddr (1%positive, [])) eq_refl)
    as (_ & _ & _ & Hptr).
  exact (Hptr eq_refl).
Defined.

(** Inserting a registered user passed by value. *)
Lemma record_operations_need_pointer_witness :
  Insert (PK := Toy.package) Toy.o (Toy.user 0 "slene") Toy.w0
  = (Panic (PanicError (Errorf "<Ormer> cannot use non-ptr model struct `main.User`")),
     Toy.w0).
Proof.
  destruct (record_operations_need_pointer (PK := Toy.package) Toy.o Background
              (Toy.user 0 "slene") Toy.w0) as (_ & _ & _ & Hinsert & _).
  - intros t a. discriminate.
  - destruct Hinsert as (p & Hrun & Hp).
    refine (eq_trans Hrun _).
    rewrite (Hp (TStruct "main.User") eq_refl); [reflexivity|discriminate].
Defined.

(** ** The statements an operation sends *)

Section Statements.

Context {PT : PackageTypes} {PK : Package}.

(** From [w] to [w'], the calls [evs] left the session layer, in this
    order. *)
Definition sent (w w' : world) (evs : list event) : Prop :=
  w_trace w' = w_trace w ++ evs.

Lemma call_sent {A : Type} (ev : event) (f : ext A) (w w' : world) (r : outcome A) :
  call ev f w = (r, w') → sent w w' [ev].
Proof.
  unfold call, sent. destruct (f (w_db w) (w_heap w)) as [[r' d] h].
  intros [= _ <-]. reflexivity.
Qed.

Lemma after_getMiInd {A : Type} (o : ormBase) (md : value) (needPtr : bool)
      (k : modelInfo → rvalue → M A) (w w' : world) (r : outcome A) :
  m_bind (getMiInd o md needPtr) (fun x => match x with (mi, ind) => k mi ind end) w = (r, w') →
  w' = w
  ∨ ∃ mi ind, getMiInd o md needPtr w = (Ret (mi, ind), w) ∧ k mi ind w = (r, w').
Proof.
  unfold m_bind.
  destruct (getMiInd o md needPtr w) as [[[mi ind]|p|] w1] eqn:Hget;
    pose proof (getMiInd_world _ _ _ _ _ _ Hget) as ->.
  - intros Hk. right. exists mi, ind. split; [reflexivity|assumption].
  - intros [= _ <-]. left. reflexivity.
  - intros [= _ <-]. left. reflexivity.
Qed.

Lemma write_after_call (ev : event) (f : ext (Z * option error))
      (k : Z → M unit) (w w' : world) (r : outcome (Z * option error)) :
  (∀ id w1 w2 r', k id w1 = (r', w2) → w_trace w2 = w_trace w1) →
  (let* '(id, err) := call ev f in
   match err with
   | Some _ => m_ret (id, err)
   | None => let* _ := k id in m_ret (id, None)
   end) w = (r, w') →
  sent w w' [ev].
Proof.
  intros Hk. unfold m_bind at 1.
  destruct (call ev f w) as [[[id err]|p|] w1] eqn:Hcall;
    pose proof (call_sent _ _ _ _ _ Hcall) as Hsent.
  - destruct err as [e|].
    + intros [= _ <-]. assumption.
    + unfold m_bind, m_ret.
      destruct (k id w1) as [[[]|p|] w2] eqn:Hkid; intros [= _ <-];
        unfold sent in *; rewrite (Hk _ _ _ _ Hkid); assumption.
  - intros [= _ <-]. assumption.
  - intros [= _ <-]. assumption.
Qed.

Lemma setPk_keeps_trace (o : ormBase) (mi : modelInfo) (ind : rvalue) (id : Z)
      (w w' : world) (r : outcome unit) :
  setPk o mi ind id w = (r, w') → w_trace w' = w_trace w.
Proof. intros Hset. eapply setPk_trace. eassumption. Qed.

Lemma InsertWithCtx_statements (o : ormBase) (ctx : context) (md : value) (w w' : world)
      (r : outcome (Z * option error)) :
  InsertWithCtx o ctx md w = (r, w') →
  w' = w ∨ ∃ mi ind, getMiInd o md true w = (Ret (mi, ind), w)
                     ∧ sent w w' [EvInsert (db o) mi ind].
Proof.
  intros Hrun. unfold InsertWithCtx in Hrun.
  apply after_getMiInd in Hrun as [->|(mi & ind & Hmi & Hrun)]; [left; reflexivity|].
  right. exists mi, ind. split; [assumption|].
  unfold o_Insert in Hrun. eapply (write_after_call _ _ (setPk o mi ind)); [|exact Hrun].
  intros id w1 w2 r'. apply setPk_keeps_trace.
Qed.

(** Whatever it returns, a record operation sends at most one statement, to
    the executor of its own session: none when the argument is rejected, and
    otherwise the one read, insert, upsert, update or delete for the
    descriptor and the storage of the argument. *)
Theorem record_operations_send_one_statement :
  ∀ (o : ormBase) (ctx : context) (md : value) (w w' : world),
    (∀ cols r, ReadWithCtx o ctx md cols w = (r, w') →
       w' = w ∨ ∃ mi ind, getMiInd o md true w = (Ret (mi, ind), w)
                          ∧ sent w w' [EvRead (db o) mi ind cols false])
    ∧ (∀ cols r, ReadForUpdateWithCtx o ctx md cols w = (r, w') →
         w' = w ∨ ∃ mi ind, getMiInd o md true w = (Ret (mi, ind), w)
                            ∧ sent w w' [EvRead (db o) mi ind cols true])
    ∧ (∀ r, InsertWithCtx o ctx md w = (r, w') →
         w' = w ∨ ∃ mi ind, getMiInd o md true w = (Ret (mi, ind), w)
                            ∧ sent w w' [EvInsert (db o) mi ind])
    ∧ (∀ args r, InsertOrUpdateWithCtx o ctx md args w = (r, w') →
         w' = w ∨ ∃ mi ind, getMiInd o md true w = (Ret (mi, ind), w)
                            ∧ sent w w' [EvInsertOrUpdate (db o) mi ind args])
    ∧ (∀ cols r, UpdateWithCtx o ctx md cols w = (r, w') →
         w' = w ∨ ∃ mi ind, getMiInd o md true w = (Ret (mi, ind), w)
                            ∧ sent w w' [EvUpdate (db o) mi ind cols])
    ∧ (∀ cols r, DeleteWithCtx o ctx md cols w = (r, w') →
         w' = w ∨ ∃ mi ind, getMiInd o md true w = (Ret (mi, ind), w)
                            ∧ sent w w' [EvDelete (db o) mi ind cols]).
Proof.
  intros o ctx md w w'. repeat split.
  - intros cols r Hrun. unfold ReadWithCtx in Hrun.
    apply after_getMiInd in Hrun as [->|(mi & ind & Hmi & Hrun)]; [left; reflexivity|].
    right. exists mi, ind. split; [assumption|]. eapply call_sent. exact Hrun.
  - intros cols r Hrun. unfold ReadForUpdateWithCtx in Hrun.
    apply after_getMiInd in Hrun as [->|(mi & ind & Hmi & Hrun)]; [left; reflexivity|].
    right. exists mi, ind. split; [assumption|]. eapply call_sent. exact Hrun.
  - intros r Hrun. eapply InsertWithCtx_statements. eassumption.
  - intros args r Hrun. unfold InsertOrUpdateWithCtx in Hrun.
    apply after_getMiInd in Hrun as [->|(mi & ind & Hmi & Hrun)]; [left; reflexivity|].
    right. exists mi, ind. split; [assumption|].
    unfold o_InsertOrUpdate in Hrun.
    eapply (write_after_call _ _ (setPk o mi ind)); [|exact Hrun].
    intros id w1 w2 r'. apply setPk_keeps_trace.
  - intros cols r Hrun. unfold UpdateWithCtx in Hrun.
    apply after_getMiInd in Hrun as [->|(mi & ind & Hmi & Hrun)]; [left; reflexivity|].
    right. exists mi, ind. split; [assumption|]. eapply call_sent. exact Hrun.
  - intros cols r Hrun. unfold DeleteWithCtx in Hrun.
    apply after_getMiInd in Hrun as [->|(mi & ind & Hmi & Hrun)]; [left; reflexivity|].
    right. exists mi, ind. split; [assumption|].
    unfold o_Delete in Hrun.
    eapply (write_after_call _ _
              (fun num => if num >? 0 then setPk o mi ind 0 else m_ret tt));
      [|exact Hrun].
    intros num w1 w2 r'. destruct (num >? 0).
    + apply setPk_keeps_trace.
    + intros [= _ <-]. reflexivity.
Qed.

End Statements.

(** Updating the user at 1, whose row is in the database. *)
Lemma record_operations_send_one_statement_witness :
  let w := Toy.world_of [("main.User", 1)] Toy.mem [] in
  let run := UpdateWithCtx (PK := Toy.package) Toy.o Background
               (Toy.ptr "main.User" 1%positive) ["Name"] w in
  sent w (snd run) [EvUpdate (SqlDB 0) Toy.userMi (RAddr (1%positive, [])) ["Name"]].
Proof.
  intros w run.
  destruct (record_operations_send_one_statement (PK := Toy.package) Toy.o Background
              (Toy.ptr "main.User" 1%positive) w (snd run))
    as (_ & _ & _ & _ & Hupdate & _).
  destruct (Hupdate ["Name"] (fst run) eq_refl) as [Hsame|(mi & ind & Hmi & Hsent)].
  - apply (f_equal (fun x => length (w_trace x))) in Hsame. discriminate Hsame.
  - injection Hmi as <- <-. exact Hsent.
Defined.

(** ** An insert that fails *)

Section InsertFailure.

Context {PT : PackageTypes} {PK : Package}.

(** When the adapter's insert or upsert does not succeed (it returns an
    error, or panics), [Insert] and [InsertOrUpdate] hand on what the adapter
    returned, identity included, and write nothing: the heap is the one the
    adapter left. *)
Theorem failed_insert_writes_nothing :
  ∀ (o : ormBase) (ctx : context) (md : value) (args : list string) (w : world)
    (mi : modelInfo) (ind : rvalue) (r : outcome (Z * option error)) (d : DB) (h : heap),
    getMiInd o md true w = (Ret (mi, ind), w) →
    (∀ id, r ≠ Ret (id, None)) →
    (DbBaser_Insert (DbBaser (ormBase_alias o)) (db o) mi ind
                    (TZ (alias_info (ormBase_alias o))) (w_db w) (w_heap w) = (r, d, h) →
     InsertWithCtx o ctx md w = (r, after_call w (EvInsert (db o) mi ind) d h))
    ∧ (DbBaser_InsertOrUpdate (DbBaser (ormBase_alias o)) (db o) mi ind
                              (alias_info (ormBase_alias o)) args (w_db w) (w_heap w)
       = (r, d, h) →
       InsertOrUpdateWithCtx o ctx md args w
       = (r, after_call w (EvInsertOrUpdate (db o) mi ind args) d h)).
Proof.
  intros o ctx md args w mi ind r d h Hmi Hfail. split; intros Hdb.
  - unfold InsertWithCtx, m_bind. rewrite Hmi. unfold o_Insert, call. rewrite Hdb.
    destruct r as [[id [e|]]| |]; try reflexivity. exfalso. eapply Hfail. reflexivity.
  - unfold InsertOrUpdateWithCtx, m_bind. rewrite Hmi.
    unfold o_InsertOrUpdate, call. rewrite Hdb.
    destruct r as [[id [e|]]| |]; try reflexivity. exfalso. eapply Hfail. reflexivity.
Qed.

End InsertFailure.

(** Inserting the user at 1 into a database that is full. *)
Lemma failed_insert_writes_nothing_witness :
  let w := Toy.world_of [("main.User", 1); ("main.User", 2)] Toy.mem [] in
  Insert (PK := Toy.package) Toy.o (Toy.ptr "main.User" 1%positive) w
  = (Ret (0, Some (Errorf "UNIQUE constraint failed")),
     Toy.world_of [("main.User", 1); ("main.User", 2)] Toy.mem
       [EvInsert (SqlDB 0) Toy.userMi (RAddr (1%positive, []))]).
Proof.
  intros w.
  destruct (failed_insert_writes_nothing (PK := Toy.package) Toy.o Background
              (Toy.ptr "main.User" 1%positive) [] w Toy.userMi (RAddr (1%positive, []))
              (Ret (0, Some (Errorf "UNIQUE constraint failed")))
              [("main.User", 1); ("main.User", 2)] Toy.mem eq_refl)
    as [Hinsert _].
  - intros id. discriminate.
  - exact (Hinsert eq_refl).
Defined.

(** ** Opening a transaction *)

Section Begin.

Context {PT : PackageTypes} {PK : Package}.

(** Whenever [BeginWithCtxAndOpts] returns, it has sent one [BeginTx] with
    the caller's context and options to the executor of the session; the
    session it returns keeps the alias, and so the adapter, of the session it
    came from and is bound to the transaction that [BeginTx] opened, so that
    what [Insert] sends through it goes to that transaction; with the error
    of [BeginTx] there is no session. *)
Theorem Begin_binds_the_transaction :
  ∀ (o : orm) (ctx : context) (opts : option TxOptions) (w w1 : world)
    (b : txOrm + error),
    BeginWithCtxAndOpts o ctx opts w = (Ret b, w1) →
    sent w w1 [EvBeginTx (db (orm_ormBase o)) ctx opts]
    ∧ ∃ t tx err d h,
        as_txer (db (orm_ormBase o)) = Some t
        ∧ BeginTx t ctx opts (w_db w) (w_heap w) = (Ret (tx, err), d, h)
        ∧ w_db w1 = d ∧ w_heap w1 = h
        ∧ match b with
          | inr e => err = Some e
          | inl s =>
              err = None
              ∧ txOrm_ormBase s
                = {| ormBase_alias := ormBase_alias (orm_ormBase o); db := TxDB tx |}
              ∧ ∀ ctx' md w2 w3 r,
                  InsertWithCtx (txOrm_ormBase s) ctx' md w2 = (r, w3) →
                  w3 = w2 ∨ ∃ mi ind, sent w2 w3 [EvInsert (TxDB tx) mi ind]
          end.
Proof.
  intros o ctx opts w w1 b. unfold BeginWithCtxAndOpts.
  destruct (as_txer (db (orm_ormBase o))) as [t|] eqn:Ht; [|discriminate].
  unfold m_bind.
  destruct (call (EvBeginTx (db (orm_ormBase o)) ctx opts) (BeginTx t ctx opts) w)
    as [[[tx err]|p|] w'] eqn:Hcall; try discriminate.
  pose proof (call_sent _ _ _ _ _ Hcall) as Hsent.
  unfold call in Hcall.
  destruct (BeginTx t ctx opts (w_db w) (w_heap w)) as [[r d] h] eqn:Hbegin.
  injection Hcall as -> <-.
  destruct err as [e|]; intros [= <- <-]; (split; [assumption|]).
  - exists t, tx, (Some e), d, h.
    repeat (split; [first [reflexivity|assumption]|]). reflexivity.
  - exists t, tx, None, d, h.
    repeat (split; [first [reflexivity|assumption]|]).
    intros ctx' md w2 w3 r Hins.
    destruct (InsertWithCtx_statements _ _ _ _ _ _ Hins) as [->|(mi & ind & _ & Hs)];
      [left; reflexivity|right; exists mi, ind; exact Hs].
Qed.

(** When [BeginTx] returns an error, [DoTx] returns it and does nothing
    else: the task does not run, whatever it is, and nothing is committed or
    rolled back. *)
Theorem DoTx_without_transaction :
  ∀ (o : orm) (ctx : context) (opts : option TxOptions) (task : txOrm → M (option error))
    (w : world) (t : txer) (tx : sqlTx) (e : error) (d : DB) (h : heap),
    as_txer (db (orm_ormBase o)) = Some t →
    BeginTx t ctx opts (w_db w) (w_heap w) = (Ret (tx, Some e), d, h) →
    DoTxWithCtxAndOpts o ctx opts task w
    = (Ret (Some e), after_call w (EvBeginTx (db (orm_ormBase o)) ctx opts) d h).
Proof.
  intros o ctx opts task w t tx e d h Ht Hbegin.
  unfold DoTxWithCtxAndOpts, BeginWithCtxAndOpts, m_bind. rewrite Ht.
  unfold call. rewrite Hbegin. reflexivity.
Qed.

End Begin.

(** Opening a transaction on the pooled connection. *)
Lemma Begin_binds_the_transaction_witness :
  let run := BeginWithCtxAndOpts (PK := Toy.package) Toy.session Background None Toy.w0 in
  sent Toy.w0 (snd run) [EvBeginTx (SqlDB 0) Background None].
Proof.
  intros run.
  destruct (Begin_binds_the_transaction (PK := Toy.package) Toy.session Background None
              Toy.w0 (snd run)
              (inl {| txOrm_ormBase := {| ormBase_alias := Toy.al; db := TxDB 7%nat |} |})
              eq_refl) as [Hsent _].
  exact Hsent.
Defined.

(** A transaction asked for with a context that is canceled: the in-memory
    executor refuses, and the task, which would panic, never runs. *)
Lemma DoTx_without_transaction_witness :
  DoTxWithCtx (PK := Toy.package) Toy.session (WithCancel Background true)
              (fun _ => m_panic (PanicValue (VString "never"))) Toy.w0
  = (Ret (Some ctx_Canceled),
     Toy.world_of [] Toy.mem [EvBeginTx (SqlDB 0) (WithCancel Background true) None]).
Proof.
  apply (DoTx_without_transaction (PK := Toy.package) Toy.session
           (WithCancel Background true) None
           (fun _ => m_panic (PanicValue (VString "never"))) Toy.w0
           {| BeginTx := fun ctx _ => fun d h =>
                match ctx_Err ctx with
                | Some e => (Ret (0%nat, Some e), d, h)
                | None => (Ret (7%nat, None), d, h)
                end |}
           0%nat ctx_Canceled [] Toy.mem eq_refl eq_refl).
Defined.

(** ** What [ReadOrCreate] and [InsertMulti] send *)

Section Counting.

Context {PT : PackageTypes} {PK : Package}.

(** For a record whose primary key is no relation, [ReadOrCreate] sends one
    read and then at most one insert, whatever the adapter answers and
    whatever the call ends in: it never reads twice and never retries. *)
Theorem ReadOrCreate_sends_read_then_insert :
  ∀ (fuel : nat) (o : ormBase) (ctx : context) (md : value) (col1 : string)
    (cols : list string) (w w' : world) (mi : modelInfo) (ind : rvalue)
    (r : outcome (bool * Z * option error)),
    getMiInd o md true w = (Ret (mi, ind), w) →
    pk_positive mi = true ∨ rel (pk (fields mi)) = false →
    ReadOrCreateWithCtx (S fuel) o ctx md col1 cols w = (r, w') →
    sent w w' [EvRead (db o) mi ind (col1 :: cols) false]
    ∨ ∃ mi' ind', sent w w' [EvRead (db o) mi ind (col1 :: cols) false;
                              EvInsert (db o) mi' ind'].
Proof.
  intros fuel o ctx md col1 cols w w' mi ind r Hmi Hkey.
  cbn [ReadOrCreateWithCtx]. unfold m_bind at 1. rewrite Hmi. unfold m_bind at 1.
  destruct (o_Read o mi ind (col1 :: cols) false w) as [[err|p|] w1] eqn:Hread;
    pose proof (call_sent _ _ _ _ _ Hread) as Hsent;
    try (intros [= _ <-]; left; exact Hsent).
  assert (Hfound :
    (let* h := m_heap in
     let* vid := m_lift (rv_FieldByIndex h ind (fieldIndex (pk (fields mi)))) in
     if Z.land (fieldType (pk (fields mi))) IsPositiveIntegerField >? 0 then
       let* u := m_lift (rv_Uint h vid) in m_ret (false, to_int64 u, err)
     else if rel (pk (fields mi)) then
       let* v := m_lift (rv_Interface h vid) in
       match relModelInfo (pk (fields mi)) with
       | None => m_panic nil_dereference
       | Some rmi => ReadOrCreateWithCtx fuel o ctx v (name (pk (fields rmi))) []
       end
     else let* i := m_lift (rv_Int h vid) in m_ret (false, i, err)) w1 = (r, w') →
    w' = w1).
  { unfold m_bind, m_heap, m_lift, m_ret. fold (pk_positive mi).
    destruct (rv_FieldByIndex _ _ _); try (intros [= _ <-]; reflexivity).
    destruct Hkey as [-> | Hrel].
    - destruct (rv_Uint _ _); intros [= _ <-]; reflexivity.
    - rewrite Hrel. destruct (pk_positive mi).
      + destruct (rv_Uint _ _); intros [= _ <-]; reflexivity.
      + destruct (rv_Int _ _); intros [= _ <-]; reflexivity. }
  assert (Hcreate :
    (let* '(id, err) := InsertWithCtx o ctx md in m_ret (is_nil err, id, err)) w1 = (r, w') →
    w' = w1 ∨ ∃ mi' ind', sent w1 w' [EvInsert (db o) mi' ind']).
  { unfold m_bind, m_ret.
    destruct (InsertWithCtx o ctx md w1) as [[[id e]|p|] w2] eqn:Hins;
      intros [= _ <-];
      destruct (InsertWithCtx_statements _ _ _ _ _ _ Hins) as [->|(mi' & ind' & _ & Hs)];
      eauto. }
  intros Hrun.
  assert (Hcases : w' = w1 ∨ ∃ mi' ind', sent w1 w' [EvInsert (db o) mi' ind']).
  { destruct err as [[]|]; first [apply Hcreate; exact Hrun | left; apply Hfound; exact Hrun]. }
  destruct Hcases as [->|(mi' & ind' & Hs)]; [left; exact Hsent|].
  right. exists mi', ind'. unfold sent in *. rewrite Hs, Hsent, <- app_assoc. reflexivity.
Qed.

Lemma InsertMulti_body_sends_insert (o : ormBase) (sind : rvalue) (i : nat) (w w' : world)
      (r : option error) :
  InsertMulti_body o sind i w = (Ret r, w') →
  ∃ ev, is_insert ev ∧ sent w w' [ev].
Proof.
  unfold InsertMulti_body. unfold m_bind at 1, m_heap. unfold m_bind at 1, m_lift at 1.
  destruct (rv_Index (w_heap w) sind i) as [e| |]; try discriminate.
  unfold m_bind at 1, m_lift.
  destruct (rv_Interface (w_heap w) (reflect_Indirect (w_heap w) e)) as [v| |];
    try discriminate.
  unfold m_bind at 1.
  destruct (getMiInd o v false w) as [[[mi x]| |] w1] eqn:Hmi; try discriminate.
  pose proof (getMiInd_world _ _ _ _ _ _ Hmi) as ->.
  intros Hrun. exists (EvInsert (db o) mi (reflect_Indirect (w_heap w) e)).
  split; [exact I|].
  unfold m_bind at 1 in Hrun.
  destruct (o_Insert o mi (reflect_Indirect (w_heap w) e) w) as [[[id err]| |] w2] eqn:Hins;
    try discriminate.
  pose proof (call_sent _ _ _ _ _ Hins) as Hsent.
  destruct err as [err|].
  - injection Hrun as _ <-. exact Hsent.
  - unfold m_bind, m_ret in Hrun.
    destruct (setPk o mi (reflect_Indirect (w_heap w) e) id w2) as [[[]| |] w3] eqn:Hset;
      try discriminate.
    injection Hrun as _ <-. unfold sent in *.
    rewrite (setPk_keeps_trace _ _ _ _ _ _ _ Hset). exact Hsent.
Qed.

Lemma InsertMulti_loop_counts (fuel : nat) (o : ormBase) (sind : rvalue) :
  ∀ (i : nat) (cnt n : Z) (err : option error) (w w' : world),
    InsertMulti_loop fuel o sind i cnt w = (Ret (n, err), w') →
    ∃ evs, sent w w' evs ∧ Forall is_insert evs
           ∧ cnt + Z.of_nat (length evs)
             = n + match err with Some _ => 1 | None => 0 end.
Proof.
  induction fuel as [|fuel IH]; intros i cnt n err w w'; [discriminate|].
  cbn [InsertMulti_loop]. unfold m_bind at 1, m_heap. unfold m_bind at 1, m_lift.
  destruct (rv_Len (w_heap w) sind) as [len| |]; try discriminate.
  destruct (i <? len)%nat.
  - unfold m_bind.
    destruct (InsertMulti_body o sind i w) as [[r| |] w1] eqn:Hbody; try discriminate.
    destruct (InsertMulti_body_sends_insert _ _ _ _ _ _ Hbody) as (ev & Hev & Hsent).
    destruct r as [e|].
    + intros [= <- <- <-]. exists [ev]. split; [exact Hsent|].
      split; [constructor; [assumption|constructor]|]. cbn. lia.
    + intros Hrest. destruct (IH _ _ _ _ _ _ Hrest) as (evs & Hs & Hall & Hn).
      exists (ev :: evs). unfold sent in *. rewrite Hs, Hsent, <- app_assoc.
      split; [reflexivity|]. split; [constructor; assumption|].
      cbn [length]. lia.
  - intros [= <- <- <-]. exists []. unfold sent. rewrite app_nil_r.
    split; [reflexivity|]. split; [constructor|]. cbn. lia.
Qed.

(** Whenever the one-by-one [InsertMulti] returns, all it has sent are
    inserts; without an error the count is their number, and with an error
    the count is the number of the inserts before the one that failed (or
    zero, with nothing sent, for the argument error). *)
Theorem InsertMulti_counts_inserts :
  ∀ (fuel : nat) (o : ormBase) (ctx : context) (bulk : Z) (mds : value) (w w' : world)
    (n : Z) (err : option error),
    bulk <= 1 →
    InsertMultiWithCtx fuel o ctx bulk mds w = (Ret (n, err), w') →
    ∃ evs, sent w w' evs ∧ Forall is_insert evs
           ∧ match err with
             | None => Z.of_nat (length evs) = n
             | Some _ => Z.of_nat (length evs) = n + 1 ∨ (evs = [] ∧ n = 0)
             end.
Proof.
  intros fuel o ctx bulk mds w w' n err Hbulk. rewrite InsertMultiWithCtx_unfold.
  assert (Hargs : (Ret (0, Some ErrArgs), w) = (Ret (n, err), w') →
                  ∃ evs, sent w w' evs ∧ Forall is_insert evs
                         ∧ match err with
                           | None => Z.of_nat (length evs) = n
                           | Some _ => Z.of_nat (length evs) = n + 1 ∨ (evs = [] ∧ n = 0)
                           end).
  { intros [= <- <- <-]. exists []. unfold sent. rewrite app_nil_r.
    split; [reflexivity|]. split; [constructor|]. right. split; reflexivity. }
  destruct (seq_length _ _) as [len|]; [|exact Hargs].
  destruct (len =? 0)%nat; [exact Hargs|].
  replace (bulk <=? 1) with true by (symmetry; apply Z.leb_le; assumption).
  intros Hloop. destruct (InsertMulti_loop_counts _ _ _ _ _ _ _ _ _ Hloop) as (evs & Hs & Hall & Hn).
  exists evs. split; [assumption|]. split; [assumption|].
  destruct err; [left|]; lia.
Qed.

End Counting.

(** Three users into a database with room for two: three inserts, count 2. *)
Lemma InsertMulti_counts_inserts_witness :
  let mds := VSlice (TStruct "main.User")
               [(5%positive, [0%nat]); (5%positive, [1%nat]); (5%positive, [2%nat])] in
  let run := InsertMultiWithCtx (PK := Toy.package) 4 Toy.o Background 1 mds Toy.w0 in
  fst run = Ret (2, Some (Errorf "UNIQUE constraint failed"))
  ∧ ∃ evs, sent Toy.w0 (snd run) evs ∧ Forall is_insert evs ∧ length evs = 3%nat.
Proof.
  intros mds run. split; [reflexivity|].
  destruct (InsertMulti_counts_inserts (PK := Toy.package) 4 Toy.o Background 1 mds
              Toy.w0 (snd run) 2 (Some (Errorf "UNIQUE constraint failed")))
    as (evs & Hsent & Hall & Hcount).
  - lia.
  - reflexivity.
  - exists evs. repeat split; try assumption.
    destruct Hcount as [Hcount|[_ Hzero]]; [lia|discriminate].
Defined.

(** Reading or creating the user at 1, whose row is in the database: one
    read, no insert. *)
Lemma ReadOrCreate_sends_read_then_insert_witness :
  let w := Toy.world_of [("main.User", 1)] Toy.mem [] in
  let run := ReadOrCreateWithCtx (PK := Toy.package) 1 Toy.o Background
               (Toy.ptr "main.User" 1%positive) "Name" [] w in
  sent w (snd run) [EvRead (SqlDB 0) Toy.userMi (RAddr (1%positive, [])) ["Name"] false].
Proof.
  intros w run.
  destruct (ReadOrCreate_sends_read_then_insert (PK := Toy.package) 0 Toy.o Background
              (Toy.ptr "main.User" 1%positive) "Name" [] w (snd run) Toy.userMi
              (RAddr (1%positive, [])) (fst run) eq_refl (or_intror eq_refl) eq_refl)
    as [Hread|(mi' & ind' & Hboth)].
  - exact Hread.
  - apply (f_equal (@length _)) in Hboth. discriminate Hboth.
Defined.

(** ** The write-back, from the outside *)

Section SetPk.

Context {PT : PackageTypes} {PK : Package}.

Lemma setPk_writes_identity (o : ormBase) (mi : modelInfo) (ind : rvalue) (id : Z)
      (w w' : world) :
  auto (pk (fields mi)) = true →
  setPk o mi ind id w = (Ret tt, w') →
  ∃ a s, pk_field_at (w_heap w) mi ind a s
         ∧ load (w_heap w') a = Some (identity_as (pk_positive mi) s id)
         ∧ ∀ b, disjoint a b → load (w_heap w') b = load (w_heap w) b.
Proof.
  intros Hauto Hset. unfold setPk in Hset. rewrite Hauto in Hset.
  fold (pk_positive mi) in Hset. unfold pk_field_at, identity_as, int_value.
  unfold m_bind, m_heap, m_lift, m_set_heap in Hset.
  destruct (pk_positive mi);
    destruct (rv_FieldByIndex (w_heap w) ind (fieldIndex (pk (fields mi)))) as [f| |];
    try discriminate.
  - unfold rv_SetUint in Hset. destruct f as [| |a]; try discriminate.
    destruct (load (w_heap w) a) as [[| | |s n| | | | |]|] eqn:Hload; try discriminate.
    destruct (store (w_heap w) a _) as [h'|] eqn:Hstore; [|discriminate].
    injection Hset as <-. cbn [w_heap]. exists a, s.
    split; [split; [reflexivity|exists n; exact Hload]|].
    split; [eapply load_store; eassumption|].
    intros b Hb. eapply store_load_disjoint; eassumption.
  - unfold rv_SetInt in Hset. destruct f as [| |a]; try discriminate.
    destruct (load (w_heap w) a) as [[| |s n| | | | | |]|] eqn:Hload; try discriminate.
    destruct (store (w_heap w) a _) as [h'|] eqn:Hstore; [|discriminate].
    injection Hset as <-. cbn [w_heap]. exists a, s.
    split; [split; [reflexivity|exists n; exact Hload]|].
    split; [eapply load_store; eassumption|].
    intros b Hb. eapply store_load_disjoint; eassumption.
Qed.

(** Whenever [setPk] returns, the database and the trace are as before; for
    an automatic identity the record has an addressable integer field of the
    descriptor's signedness, that field holds the identity, and everything
    stored apart from it is as before; for any other identity nothing has
    changed. *)
Theorem setPk_touches_only_identity :
  ∀ (o : ormBase) (mi : modelInfo) (ind : rvalue) (id : Z) (w w' : world),
    setPk o mi ind id w = (Ret tt, w') →
    w_db w' = w_db w ∧ w_trace w' = w_trace w
    ∧ if auto (pk (fields mi)) then
        ∃ a s, pk_field_at (w_heap w) mi ind a s
               ∧ load (w_heap w') a = Some (identity_as (pk_positive mi) s id)
               ∧ ∀ b, disjoint a b → load (w_heap w') b = load (w_heap w) b
      else w' = w.
Proof.
  intros o mi ind id w w' Hset.
  destruct (setPk_trace _ _ _ _ _ _ _ Hset) as [Htr Hdb].
  split; [assumption|]. split; [assumption|].
  destruct (auto (pk (fields mi))) eqn:Hauto.
  - eapply setPk_writes_identity; eassumption.
  - unfold setPk in Hset. rewrite Hauto in Hset. injection Hset as <-. reflexivity.
Qed.

(** What [ReadOrCreate] makes of an identity field: [int64(vid.Uint())] or
    [vid.Int()]. *)
Lemma identity_read_back (positive : bool) (s : isize) (id : Z) :
  - 2 ^ 63 <= id < 2 ^ 63 →
  fits positive s id ∨ bits s = 64 →
  match identity_as positive s id with
  | VUint _ u => to_int64 u = id
  | VInt _ i => i = id
  | _ => False
  end.
Proof.
  intros Hrange Hfit. unfold identity_as. destruct positive.
  - unfold to_int64. destruct Hfit as [Hfit|Hbits].
    + rewrite wrap_unsigned_fits; [|destruct s; cbn; lia|exact Hfit].
      apply wrap_signed_fits; lia.
    + rewrite Hbits. unfold to_uint64, wrap_unsigned. rewrite Z.mod_mod by lia.
      unfold wrap_signed. rewrite Z.mod_mod by lia.
      apply (wrap_signed_fits 64 id); lia.
  - destruct Hfit as [Hfit|Hbits].
    + apply wrap_signed_fits; [destruct s; cbn; lia|exact Hfit].
    + rewrite Hbits. apply wrap_signed_fits; lia.
Qed.

(** The identity that the write-back put into a record is the one that
    [ReadOrCreate] reports when its read finds the row and leaves the
    identity field alone: also a negative identity in an unsigned 64-bit
    field comes back as it was. *)
Theorem written_identity_is_read_back :
  ∀ (fuel : nat) (o : ormBase) (ctx : context) (md : value) (col1 : string)
    (cols : list string) (w1 w2 w3 : world) (mi : modelInfo) (ind : rvalue) (id : Z)
    (rerr : option error),
    - 2 ^ 63 <= id < 2 ^ 63 →
    auto (pk (fields mi)) = true →
    pk_positive mi = true ∨ rel (pk (fields mi)) = false →
    setPk o mi ind id w1 = (Ret tt, w2) →
    getMiInd o md true w2 = (Ret (mi, ind), w2) →
    o_Read o mi ind (col1 :: cols) false w2 = (Ret rerr, w3) →
    rerr ≠ Some ErrNoRows →
    (∀ a s, pk_field_at (w_heap w1) mi ind a s →
            (fits (pk_positive mi) s id ∨ bits s = 64)
            ∧ rv_FieldByIndex (w_heap w3) ind (fieldIndex (pk (fields mi))) = Ret (RAddr a)
            ∧ load (w_heap w3) a = load (w_heap w2) a) →
    ReadOrCreateWithCtx (S fuel) o ctx md col1 cols w2 = (Ret (false, id, rerr), w3).
Proof.
  intros fuel o ctx md col1 cols w1 w2 w3 mi ind id rerr
         Hrange Hauto Hkey Hset Hmi Hread Hfound Hkept.
  destruct (setPk_writes_identity _ _ _ _ _ _ Hauto Hset) as (a & s & Hat & Hload & _).
  destruct (Hkept a s Hat) as (Hfit & Hidx & Hsame).
  rewrite <- Hsame in Hload.
  pose proof (identity_read_back (pk_positive mi) s id Hrange Hfit) as Hback.
  cbn [ReadOrCreateWithCtx]. unfold m_bind at 1. rewrite Hmi.
  unfold m_bind at 1. rewrite Hread.
  assert (Hrun :
    (let* h := m_heap in
     let* vid := m_lift (rv_FieldByIndex h ind (fieldIndex (pk (fields mi)))) in
     if Z.land (fieldType (pk (fields mi))) IsPositiveIntegerField >? 0 then
       let* u := m_lift (rv_Uint h vid) in m_ret (false, to_int64 u, rerr)
     else if rel (pk (fields mi)) then
       let* v := m_lift (rv_Interface h vid) in
       match relModelInfo (pk (fields mi)) with
       | None => m_panic nil_dereference
       | Some rmi => ReadOrCreateWithCtx fuel o ctx v (name (pk (fields rmi))) []
       end
     else let* i := m_lift (rv_Int h vid) in m_ret (false, i, rerr)) w3
    = (Ret (false, id, rerr), w3)).
  { unfold m_bind, m_heap, m_lift, m_ret. rewrite Hidx. fold (pk_positive mi).
    unfold identity_as in Hload, Hback. unfold rv_Uint, rv_Int, rv_get.
    destruct Hkey as [Hpos|Hrel].
    - rewrite Hpos in *. rewrite Hload, Hback. reflexivity.
    - destruct (pk_positive mi).
      + rewrite Hload, Hback. reflexivity.
      + rewrite Hrel, Hload, Hback. reflexivity. }
  destruct rerr as [[]|]; first [exact Hrun | congruence].
Qed.

End SetPk.

(** The identity -5, written into the signed field of the user at 1 and
    read back by [ReadOrCreate] when the user's row is found. *)
Lemma written_identity_is_read_back_witness :
  let w1 := Toy.world_of [("main.User", 1)] Toy.mem [] in
  let w2 := snd (setPk (PK := Toy.package) Toy.o Toy.userMi (RAddr (1%positive, [])) (-5) w1) in
  fst (ReadOrCreateWithCtx (PK := Toy.package) 1 Toy.o Background
         (Toy.ptr "main.User" 1%positive) "Name" [] w2)
  = Ret (false, -5, None).
Proof.
  intros w1 w2.
  rewrite (written_identity_is_read_back (PK := Toy.package) 0 Toy.o Background
             (Toy.ptr "main.User" 1%positive) "Name" [] w1 w2
             (snd (o_Read (PT := Toy.types) Toy.o Toy.userMi (RAddr (1%positive, []))
                     ["Name"] false w2))
             Toy.userMi (RAddr (1%positive, [])) (-5) None).
  - reflexivity.
  - lia.
  - reflexivity.
  - right. reflexivity.
  - reflexivity.
  - reflexivity.
  - reflexivity.
  - discriminate.
  - intros a s [Hidx [n Hload]]. injection Hidx as <-.
    assert (Hs : s = SzWord).
    { change (Some (VInt SzWord 0) = Some (VInt s n)) in Hload. congruence. }
    subst s. split; [right; reflexivity|]. split; reflexivity.
Defined.

(** Writing the identity 9 into the user at 1. *)
Lemma setPk_touches_only_identity_witness :
  let run := setPk (PK := Toy.package) Toy.o Toy.userMi (RAddr (1%positive, [])) 9 Toy.w0 in
  load (w_heap (snd run)) (1%positive, [1%nat]) = Some (VString "slene")
  ∧ load (w_heap (snd run)) (4%positive, [0%nat]) = Some (VInt SzWord 0).
Proof.
  intros run.
  destruct (setPk_touches_only_identity (PK := Toy.package) Toy.o Toy.userMi
              (RAddr (1%positive, [])) 9 Toy.w0 (snd run) eq_refl)
    as (_ & _ & a & s & [Hidx _] & _ & Hframe).
  injection Hidx as <-. split.
  - rewrite Hframe; [reflexivity|]. right. reflexivity.
  - rewrite Hframe; [reflexivity|]. left. discriminate.
Defined.

(** ** Query sets *)

Section Builders.

Context {PT : PackageTypes} {PK : Package}.

Lemma getFieldInfo_world (o : ormBase) (mi : modelInfo) (fname : string) (w w' : world)
      (r : outcome fieldInfo) :
  getFieldInfo o mi fname w = (r, w') →
  w' = w ∧ match r with
           | Ret fi => GetByAny (fields mi) fname = Some fi
           | Panic _ => GetByAny (fields mi) fname = None
           | Timeout => False
           end.
Proof.
  unfold getFieldInfo. destruct (GetByAny (fields mi) fname);
    intros [= <- <-]; split; reflexivity.
Qed.

(** The relation kinds that [queryRelated] accepts. *)
Definition is_relation (t : Z) : bool :=
  (t =? RelOneToOne) || (t =? RelForeignKey) || (t =? RelManyToMany)
  || (t =? RelReverseOne) || (t =? RelReverseMany).

Lemma getRelQs_filtered (o : ormBase) (md : value) (mi : modelInfo) (fi : fieldInfo)
      (q : querySet) :
  getRelQs o md mi fi = Ret q →
  ∃ e, q = set_cond (newQuerySet o (relModelInfo fi)) (Condition_And NewCondition e [md]).
Proof.
  unfold getRelQs. destruct (_ || _); [|discriminate].
  destruct (fieldType fi =? RelManyToMany).
  - destruct (reverseFieldInfoM2M fi) as [m2m|]; [|discriminate].
    destruct (reverseFieldInfo fi) as [rfi|]; [|discriminate].
    cbn. intros [= <-]. eexists. reflexivity.
  - destruct (reverseFieldInfo fi) as [rfi|]; [|discriminate].
    cbn. intros [= <-]. eexists. reflexivity.
Qed.

Lemma getReverseQs_filtered (o : ormBase) (md : value) (mi : modelInfo) (fi : fieldInfo)
      (q : querySet) :
  getReverseQs o md mi fi = Ret q →
  ∃ target e, q = set_cond (newQuerySet o target) (Condition_And NewCondition e [md]).
Proof.
  unfold getReverseQs. destruct (_ || _); [|discriminate].
  destruct (fieldType fi =? RelReverseMany).
  - destruct (reverseFieldInfo fi) as [rfi|]; [|discriminate]. cbn.
    destruct (fi_mi rfi) as [rmi|]; [|discriminate]. cbn.
    destruct (isThrough rmi).
    + destruct (reverseFieldInfoM2M fi) as [m2m|]; [|discriminate].
      cbn. intros [= <-]. eexists _, _. reflexivity.
    + cbn. intros [= <-]. eexists _, _. reflexivity.
  - cbn. destruct (reverseFieldInfo fi) as [rfi|]; [|discriminate].
    cbn. intros [= <-]. eexists _, _. reflexivity.
Qed.

(** Whenever [queryRelated] returns, nothing has happened to the world; the
    argument resolved to its descriptor, the name to a field of it that is a
    relation declared in the model, and the record has its primary key; the
    query set is a new one with exactly one condition, on the record
    itself: a related query never comes without its filter. *)
Theorem queryRelated_returns_filtered :
  ∀ (o : ormBase) (md : value) (fname : string) (w w' : world) (mi : modelInfo)
    (fi : fieldInfo) (ind : rvalue) (qs : querySet),
    queryRelated o md fname w = (Ret (mi, fi, ind, qs), w') →
    w' = w
    ∧ getMiInd o md true w = (Ret (mi, ind), w)
    ∧ GetByAny (fields mi) fname = Some fi
    ∧ getExistPk mi ind (w_heap w) = inl true
    ∧ inModel fi = true
    ∧ is_relation (fieldType fi) = true
    ∧ ∃ target e,
        qs = set_cond (newQuerySet o target) (Condition_And NewCondition e [md]).
Proof.
  intros o md fname w w' mi fi ind qs Hrun. unfold queryRelated in Hrun.
  unfold m_bind at 1 in Hrun.
  destruct (getMiInd o md true w) as [[[mi' ind']| |] w1] eqn:Hget; try discriminate.
  pose proof (getMiInd_world _ _ _ _ _ _ Hget) as ->.
  unfold m_bind at 1 in Hrun.
  destruct (getFieldInfo o mi' fname w) as [[fi'| |] w1] eqn:Hfi; try discriminate.
  apply getFieldInfo_world in Hfi as [-> Hfi].
  unfold m_bind at 1, m_heap in Hrun. unfold m_bind at 1, m_lift at 1 in Hrun.
  destruct (getExistPk mi' ind' (w_heap w)) as [[|]|p] eqn:Hpk; try discriminate.
  cbn [of_result negb] in Hrun. unfold m_bind, m_lift, m_ret, m_panic in Hrun.
  unfold is_relation.
  destruct ((fieldType fi' =? RelOneToOne) || (fieldType fi' =? RelForeignKey)
            || (fieldType fi' =? RelManyToMany)) eqn:Hfwd.
  - destruct (inModel fi') eqn:Hin; [|discriminate]. cbn [negb] in Hrun.
    destruct (getRelQs o md mi' fi') as [q| |] eqn:Hq; try discriminate.
    cbn in Hrun. inversion Hrun; subst; clear Hrun.
    destruct (getRelQs_filtered _ _ _ _ _ Hq) as [e ->].
    repeat (split; [first [reflexivity|assumption]|]).
    split; [rewrite Hfwd; reflexivity|]. eexists _, _. reflexivity.
  - destruct ((fieldType fi' =? RelReverseOne) || (fieldType fi' =? RelReverseMany))
      eqn:Hrev; [|discriminate].
    destruct (inModel fi') eqn:Hin; [|discriminate]. cbn [negb] in Hrun.
    destruct (getReverseQs o md mi' fi') as [q| |] eqn:Hq; try discriminate.
    cbn in Hrun. inversion Hrun; subst; clear Hrun.
    destruct (getReverseQs_filtered _ _ _ _ _ Hq) as (target & e & ->).
    repeat (split; [first [reflexivity|assumption]|]).
    split; [rewrite Hfwd; cbn [orb]; exact Hrev|]. eexists _, _. reflexivity.
Qed.

(** [queryRelated], and with it [LoadRelated] and [QueryRelated], panics
    with [p] and leaves the world as it was. *)
Definition related_panic (o : ormBase) (ctx : context) (md : value) (fname : string)
           (args : list value) (w : world) (p : panic_value) : Prop :=
  queryRelated o md fname w = (Panic p, w)
  ∧ LoadRelatedWithCtx o ctx md fname args w = (Panic p, w)
  ∧ QueryRelatedWithCtx o ctx md fname w = (Panic p, w).

Lemma related_panic_lift (o : ormBase) (ctx : context) (md : value) (fname : string)
      (args : list value) (w : world) (p : panic_value) :
  queryRelated o md fname w = (Panic p, w) → related_panic o ctx md fname args w p.
Proof.
  intros Hrun. split; [assumption|].
  unfold LoadRelatedWithCtx, QueryRelatedWithCtx, m_bind. rewrite Hrun.
  split; reflexivity.
Qed.

(** The panics of [queryRelated], and so of [LoadRelated] and
    [QueryRelated], for a record that resolves: a name that is no field of
    the model, a record without its primary key, and a field that is no
    relation declared in the model; each before anything is sent. *)
Theorem queryRelated_rejects :
  ∀ (o : ormBase) (ctx : context) (md : value) (fname : string) (args : list value)
    (w : world) (mi : modelInfo) (ind : rvalue),
    getMiInd o md true w = (Ret (mi, ind), w) →
    (GetByAny (fields mi) fname = None →
     related_panic o ctx md fname args w
       (PanicError (Errorf ("<Ormer> cannot find field `" +:+ fname +:+ "` for model `"
                            +:+ fullName mi +:+ "`"))))
    ∧ (∀ fi, GetByAny (fields mi) fname = Some fi →
             getExistPk mi ind (w_heap w) = inl false →
             related_panic o ctx md fname args w (PanicError ErrMissPK))
    ∧ (∀ fi, GetByAny (fields mi) fname = Some fi →
             getExistPk mi ind (w_heap w) = inl true →
             inModel fi = false ∨ is_relation (fieldType fi) = false →
             related_panic o ctx md fname args w
               (PanicError (Errorf
                  ("<Ormer> name `" +:+ Sprint md +:+ "` for model `" +:+ fname
                   +:+ "` is not an available rel/reverse field")))).
Proof.
  intros o ctx md fname args w mi ind Hmi. split; [|split].
  - intros Hnone. apply related_panic_lift.
    unfold queryRelated, m_bind at 1. rewrite Hmi.
    unfold m_bind at 1, getFieldInfo. rewrite Hnone. reflexivity.
  - intros fi Hfi Hpk. apply related_panic_lift.
    unfold queryRelated, m_bind at 1. rewrite Hmi.
    unfold m_bind at 1, getFieldInfo. rewrite Hfi. unfold m_ret at 1.
    unfold m_bind at 1, m_heap. unfold m_bind at 1, m_lift at 1. rewrite Hpk.
    reflexivity.
  - intros fi Hfi Hpk Hbad. apply related_panic_lift.
    unfold queryRelated, m_bind at 1. rewrite Hmi.
    unfold m_bind at 1, getFieldInfo. rewrite Hfi. unfold m_ret at 1.
    unfold m_bind at 1, m_heap. unfold m_bind at 1, m_lift at 1. rewrite Hpk.
    cbn [of_result negb]. unfold m_bind, m_lift, m_panic.
    unfold is_relation in Hbad.
    destruct ((fieldType fi =? RelOneToOne) || (fieldType fi =? RelForeignKey)
              || (fieldType fi =? RelManyToMany)) eqn:Hfwd.
    + destruct Hbad as [->|Hbad]; [reflexivity|].
      cbn [orb] in Hbad. discriminate.
    + destruct Hbad as [->|Hbad].
      * destruct ((fieldType fi =? RelReverseOne) || (fieldType fi =? RelReverseMany));
          reflexivity.
      * cbn [orb] in Hbad. rewrite Hbad. reflexivity.
Qed.

Lemma queryRelated_world (o : ormBase) (md : value) (fname : string) (w w' : world)
      (r : outcome (modelInfo * fieldInfo * rvalue * querySet)) :
  queryRelated o md fname w = (r, w') → w' = w.
Proof.
  unfold queryRelated. unfold m_bind at 1.
  destruct (getMiInd o md true w) as [[[mi ind]|p|] w1] eqn:Hget;
    pose proof (getMiInd_world _ _ _ _ _ _ Hget) as ->;
    try (intros [= _ <-]; reflexivity).
  unfold m_bind at 1.
  destruct (getFieldInfo o mi fname w) as [[fi|p|] w1] eqn:Hfi;
    apply getFieldInfo_world in Hfi as [-> Hfi];
    try (intros [= _ <-]; reflexivity).
  unfold m_bind, m_heap, m_lift, m_panic, m_ret.
  destruct (getExistPk mi ind (w_heap w)) as [[|]|p]; cbn [of_result negb];
    try (intros [= _ <-]; reflexivity).
  destruct (if (fieldType fi =? RelOneToOne) || (fieldType fi =? RelForeignKey)
               || (fieldType fi =? RelManyToMany)
            then if negb (inModel fi) then Ret None
                 else try q := getRelQs o md mi fi in Ret (Some q)
            else if (fieldType fi =? RelReverseOne) || (fieldType fi =? RelReverseMany)
                 then if negb (inModel fi) then Ret None
                      else try q := getReverseQs o md mi fi in Ret (Some q)
                 else Ret None) as [[q|]| |]; intros [= _ <-]; reflexivity.
Qed.

(** The fields that [QueryM2M] takes for many to many: a many-to-many
    relation, or the reverse of one whose other side belongs to a through
    model. *)
Definition is_m2m (fi : fieldInfo) : Prop :=
  fieldType fi = RelManyToMany
  ∨ (fieldType fi = RelReverseMany
     ∧ ∃ rfi rmi, reverseFieldInfo fi = Some rfi ∧ fi_mi rfi = Some rmi
                  ∧ isThrough rmi = true).

Definition not_m2m (fi : fieldInfo) : Prop :=
  fieldType fi ≠ RelManyToMany
  ∧ (fieldType fi ≠ RelReverseMany
     ∨ ∃ rfi rmi, reverseFieldInfo fi = Some rfi ∧ fi_mi rfi = Some rmi
                  ∧ isThrough rmi = false).

(** For a record that resolves and a name that is a field of its model,
    [QueryM2M] returns the many-to-many queryer of the record and the field
    exactly for a many-to-many field, and sends nothing; for any other field
    it panics, with a message that has the field's name where it says model
    and the model's name where it says name. *)
Theorem QueryM2M_many_to_many_only :
  ∀ (o : ormBase) (ctx : context) (md : value) (fname : string) (w : world)
    (mi : modelInfo) (ind : rvalue) (fi : fieldInfo),
    getMiInd o md true w = (Ret (mi, ind), w) →
    GetByAny (fields mi) fname = Some fi →
    (is_m2m fi →
     QueryM2MWithCtx o ctx md fname w = (Ret (newQueryM2M md o mi fi ind), w))
    ∧ (not_m2m fi →
       QueryM2MWithCtx o ctx md fname w
       = (Panic (PanicError (Errorf
            ("<Ormer.QueryM2M> model `" +:+ name fi +:+ "` . name `"
             +:+ fullName mi +:+ "` is not a m2m field"))), w)).
Proof.
  intros o ctx md fname w mi ind fi Hmi Hfi.
  assert (Hrun :
    QueryM2MWithCtx o ctx md fname w
    = (if fieldType fi =? RelManyToMany then
         m_ret (newQueryM2M md o mi fi ind)
       else if fieldType fi =? RelReverseMany then
         let* through :=
           m_lift (try rmi := deref (reverseFieldInfo fi) fi_mi in deref rmi isThrough) in
         if through then m_ret (newQueryM2M md o mi fi ind)
         else m_panic (PanicError (Errorf
                ("<Ormer.QueryM2M> model `" +:+ name fi +:+ "` . name `"
                 +:+ fullName mi +:+ "` is not a m2m field")))
       else m_panic (PanicError (Errorf
              ("<Ormer.QueryM2M> model `" +:+ name fi +:+ "` . name `"
               +:+ fullName mi +:+ "` is not a m2m field")))) w).
  { unfold QueryM2MWithCtx. unfold m_bind at 1. rewrite Hmi.
    unfold m_bind at 1, getFieldInfo. rewrite Hfi. reflexivity. }
  rewrite Hrun. clear Hrun. split.
  - intros [Hm2m|(Hrev & rfi & rmi & Hrfi & Hrmi & Hthrough)].
    + rewrite (proj2 (Z.eqb_eq _ _) Hm2m). reflexivity.
    + destruct (fieldType fi =? RelManyToMany); [reflexivity|].
      rewrite (proj2 (Z.eqb_eq _ _) Hrev).
      unfold m_bind, m_lift. rewrite Hrfi. cbn. rewrite Hrmi. cbn.
      rewrite Hthrough. reflexivity.
  - intros [Hm2m Hother].
    rewrite (proj2 (Z.eqb_neq _ _) Hm2m).
    destruct Hother as [Hrev|(rfi & rmi & Hrfi & Hrmi & Hthrough)].
    + rewrite (proj2 (Z.eqb_neq _ _) Hrev). reflexivity.
    + destruct (fieldType fi =? RelReverseMany); [|reflexivity].
      unfold m_bind, m_lift. rewrite Hrfi. cbn. rewrite Hrmi. cbn.
      rewrite Hthrough. reflexivity.
Qed.

(** Whenever [QueryTable] returns, it has touched nothing, and the query set
    is the new one of this session for a registered model: for a string, the
    model registered under the table name that the name strategy makes of
    it (a string is never taken for the name of a type); for anything else,
    the model registered under the full name of the argument's type behind
    its pointers.  A name that resolves to no model panics with that name. *)
Theorem QueryTable_registered_only :
  ∀ (o : ormBase) (ctx : context) (x : value) (w : world),
    (∀ q w', QueryTableWithCtx o ctx x w = (Ret q, w') →
       w' = w
       ∧ ∃ mi, q = newQuerySet o (Some mi)
               ∧ match x with
                 | VString table =>
                     modelCache_get modelCache (nameStrategy table) = Some mi
                 | _ =>
                     ∃ typ, indirectType (type_of x) = inl typ
                            ∧ modelCache_getByFullName modelCache (getFullName typ)
                              = Some mi
                 end)
    ∧ (∀ table, x = VString table →
         modelCache_get modelCache (nameStrategy table) = None →
         QueryTableWithCtx o ctx x w
         = (Panic (PanicError (Errorf
              ("<Ormer.QueryTable> table name: `" +:+ nameStrategy table
               +:+ "` not exists"))), w))
    ∧ (∀ typ, (∀ table, x ≠ VString table) →
         indirectType (type_of x) = inl typ →
         modelCache_getByFullName modelCache (getFullName typ) = None →
         QueryTableWithCtx o ctx x w
         = (Panic (PanicError (Errorf
              ("<Ormer.QueryTable> table name: `" +:+ getFullName typ
               +:+ "` not exists"))), w)).
Proof.
  intros o ctx x w. split; [|split].
  - intros q w' Hrun. unfold QueryTableWithCtx in Hrun.
    destruct x as [| | | |table| | | |];
      try (unfold m_bind, m_lift, m_ret, m_panic in Hrun;
           destruct (indirectType _) as [typ|p] eqn:Htyp; [|discriminate];
           cbn [of_result] in Hrun;
           destruct (modelCache_getByFullName modelCache (getFullName typ)) as [mi|] eqn:Hreg;
           [|discriminate];
           injection Hrun as <- <-; split; [reflexivity|];
           exists mi; split; [reflexivity|]; exists typ;
           split; first [assumption|reflexivity]).
    destruct (modelCache_get modelCache (nameStrategy table)) as [mi|] eqn:Hreg;
      [|discriminate].
    injection Hrun as <- <-. split; [reflexivity|]. exists mi. split; reflexivity.
  - intros table -> Hnone. unfold QueryTableWithCtx. rewrite Hnone. reflexivity.
  - intros typ Hx Htyp Hnone. unfold QueryTableWithCtx.
    destruct x; try (exfalso; eapply Hx; reflexivity);
      unfold m_bind, m_lift; rewrite Htyp; cbn [of_result]; rewrite Hnone; reflexivity.
Qed.

(** The operations that build queries send nothing and write nothing,
    whatever they end in: the world after [QueryTable], [QueryRelated] and
    [QueryM2M] is the world before. *)
Theorem query_builders_send_nothing :
  ∀ (o : ormBase) (ctx : context) (w w' : world),
    (∀ x r, QueryTableWithCtx o ctx x w = (r, w') → w' = w)
    ∧ (∀ md fname r, QueryRelatedWithCtx o ctx md fname w = (r, w') → w' = w)
    ∧ (∀ md fname r, QueryM2MWithCtx o ctx md fname w = (r, w') → w' = w).
Proof.
  intros o ctx w w'. split; [|split].
  - intros x r. unfold QueryTableWithCtx.
    destruct x;
      try (unfold m_bind, m_lift, m_ret, m_panic;
           destruct (of_result _); try (intros [= _ <-]; reflexivity);
           destruct (modelCache_getByFullName _ _); intros [= _ <-]; reflexivity).
    destruct (modelCache_get _ _); intros [= _ <-]; reflexivity.
  - intros md fname r. unfold QueryRelatedWithCtx, m_bind.
    destruct (queryRelated o md fname w) as [[[[[mi fi] ind] qs]|p|] w1] eqn:Hqr;
      pose proof (queryRelated_world _ _ _ _ _ _ Hqr) as ->;
      intros [= _ <-]; reflexivity.
  - intros md fname r. unfold QueryM2MWithCtx. unfold m_bind at 1.
    destruct (getMiInd o md true w) as [[[mi ind]|p|] w1] eqn:Hget;
      pose proof (getMiInd_world _ _ _ _ _ _ Hget) as ->;
      try (intros [= _ <-]; reflexivity).
    unfold m_bind at 1.
    destruct (getFieldInfo o mi fname w) as [[fi|p|] w1] eqn:Hfi;
      apply getFieldInfo_world in Hfi as [-> Hfi];
      try (intros [= _ <-]; reflexivity).
    unfold m_bind, m_lift, m_ret, m_panic.
    destruct (fieldType fi =? RelManyToMany); [intros [= _ <-]; reflexivity|].
    destruct (fieldType fi =? RelReverseMany); [|intros [= _ <-]; reflexivity].
    destruct (obind _ _) as [[|]| |]; intros [= _ <-]; reflexivity.
Qed.

End Builders.

(** ** Loading related records *)

Section LoadRelatedMany.

Context {PT : PackageTypes} {PK : Package}.

Lemma LoadRelated_args_rest (rest : list value) :
  ∀ (i : nat) (st : loadArgs), (4 <= i)%nat → LoadRelated_args i rest st = Ret st.
Proof.
  induction rest as [|x rest IH]; intros i st Hi; [reflexivity|].
  cbn [LoadRelated_args]. destruct i as [|[|[|[|i]]]]; try lia.
  cbn [LoadRelated_arg obind]. apply IH. lia.
Qed.

Lemma LoadRelated_args_four (a b c d : value) (rest : list value) (st : loadArgs) :
  LoadRelated_args 0 (a :: b :: c :: d :: rest) st = LoadRelated_args 0 [a; b; c; d] st.
Proof.
  cbn [LoadRelated_args].
  destruct (LoadRelated_arg 0 a st) as [s1| |]; [|reflexivity..]. cbn [obind].
  destruct (LoadRelated_arg 1 b s1) as [s2| |]; [|reflexivity..]. cbn [obind].
  destruct (LoadRelated_arg 2 c s2) as [s3| |]; [|reflexivity..]. cbn [obind].
  destruct (LoadRelated_arg 3 d s3) as [s4| |]; [|reflexivity..]. cbn [obind].
  apply LoadRelated_args_rest. lia.
Qed.

Lemma LoadRelated_arg_order (i : nat) (x : value) (st st' : loadArgs) :
  (i < 3)%nat → LoadRelated_arg i x st = Ret st' → la_order st' = la_order st.
Proof.
  intros Hi. destruct i as [|[|[|i]]]; try lia; cbn [LoadRelated_arg].
  - destruct x as [|[|]|[| | | |] n| | | | | |]; intros [= <-]; reflexivity.
  - destruct (of_result (ToInt64 x)); cbn [obind]; [|discriminate..].
    intros [= <-]. reflexivity.
  - destruct (of_result (ToInt64 x)); cbn [obind]; [|discriminate..].
    intros [= <-]. reflexivity.
Qed.

Lemma LoadRelated_same_args (o : ormBase) (ctx : context) (md : value) (fname : string)
      (args1 args2 : list value) (w : world) :
  LoadRelated_args 0 args1 no_args = LoadRelated_args 0 args2 no_args →
  LoadRelatedWithCtx o ctx md fname args1 w = LoadRelatedWithCtx o ctx md fname args2 w.
Proof.
  intros Hargs. unfold LoadRelatedWithCtx. fold no_args. rewrite Hargs. reflexivity.
Qed.

(** What [LoadRelated] makes of its optional arguments: those after the
    fourth are ignored; a first argument [false] is as good as none and
    [true] stands for the default depth; a first argument that is neither a
    [bool] nor an [int] (an [int64], say) and a fourth that is no string are
    ignored without an error. *)
Theorem LoadRelated_arguments :
  ∀ (o : ormBase) (ctx : context) (md : value) (fname : string) (w : world),
    (∀ a b c d rest,
       LoadRelatedWithCtx o ctx md fname (a :: b :: c :: d :: rest) w
       = LoadRelatedWithCtx o ctx md fname [a; b; c; d] w)
    ∧ LoadRelatedWithCtx o ctx md fname [VBool false] w
      = LoadRelatedWithCtx o ctx md fname [] w
    ∧ LoadRelatedWithCtx o ctx md fname [VBool true] w
      = LoadRelatedWithCtx o ctx md fname [VInt SzWord DefaultRelsDepth] w
    ∧ (∀ n, LoadRelatedWithCtx o ctx md fname [VInt Sz64 n] w
            = LoadRelatedWithCtx o ctx md fname [] w)
    ∧ (∀ a b c x, (∀ s, x ≠ VString s) →
         LoadRelatedWithCtx o ctx md fname [a; b; c; x] w
         = LoadRelatedWithCtx o ctx md fname [a; b; c] w).
Proof.
  intros o ctx md fname w. split; [|split; [|split; [|split]]].
  - intros a b c d rest. apply LoadRelated_same_args, LoadRelated_args_four.
  - apply LoadRelated_same_args. reflexivity.
  - apply LoadRelated_same_args. reflexivity.
  - intros n. apply LoadRelated_same_args. reflexivity.
  - intros a b c x Hx. apply LoadRelated_same_args. cbn [LoadRelated_args].
    destruct (LoadRelated_arg 0 a no_args) as [s1| |] eqn:H1; [|reflexivity..].
    cbn [obind].
    destruct (LoadRelated_arg 1 b s1) as [s2| |] eqn:H2; [|reflexivity..]. cbn [obind].
    destruct (LoadRelated_arg 2 c s2) as [s3| |] eqn:H3; [|reflexivity..]. cbn [obind].
    apply LoadRelated_arg_order in H1, H2, H3; try lia.
    assert (Horder : la_order s3 = "") by (rewrite H3, H2, H1; reflexivity).
    cbn [LoadRelated_arg].
    destruct x as [| | | |s| | | |];
      try (destruct s3; cbn in Horder; subst; reflexivity).
    exfalso. eapply Hx. reflexivity.
Qed.

(** The query set that [LoadRelated] runs for a relation to many records:
    the one of the relation, with the limit, offset, depth and order of the
    arguments. *)
Definition to_many_query (qs : querySet) (a : loadArgs) : querySet :=
  {| qs_mi := qs_mi qs; qs_cond := qs_cond qs;
     qs_limit := la_limit a; qs_offset := la_offset a; qs_relDepth := la_relDepth a;
     qs_orders := if (0 <? String.length (la_order a))%nat
                  then [la_order a] else qs_orders qs;
     qs_orm := qs_orm qs |}.

(** For a relation to many records, [LoadRelated] runs [All] once, on the
    query set of the relation with the caller's limit and offset, and hands
    it a pointer to the relation field of the caller's own record; what
    [All] returns (count, error or panic) is the result, and the session
    layer writes nothing itself: the heap is the one [All] left. *)
Theorem LoadRelated_to_many :
  ∀ (o : ormBase) (ctx : context) (md : value) (fname : string) (args : list value)
    (w : world) (mi : modelInfo) (fi : fieldInfo) (ind : rvalue) (qs : querySet)
    (a : loadArgs) (fa : addr) (ft : gtype) (r : outcome (Z * option error)) (d : DB)
    (h1 : heap),
    queryRelated o md fname w = (Ret (mi, fi, ind, qs), w) →
    is_to_one (fieldType fi) = false →
    LoadRelated_args 0 args no_args = Ret a →
    rv_FieldByIndex (w_heap w) ind (fieldIndex fi) = Ret (RAddr fa) →
    rv_Type (w_heap w) (RAddr fa) = Ret ft →
    querySet_All (to_many_query qs a) (VPtr ft (Some fa)) (w_db w) (w_heap w) = (r, d, h1) →
    LoadRelatedWithCtx o ctx md fname args w
    = (r, after_call w (EvAll (to_many_query qs a) (VPtr ft (Some fa))) d h1).
Proof.
  intros o ctx md fname args w mi fi ind qs a fa ft r d h1
         Hqr Hmany Hargs Hfind Hft Hall.
  unfold LoadRelatedWithCtx. unfold m_bind at 1. rewrite Hqr.
  unfold m_bind at 1, m_lift at 1. fold no_args. rewrite Hargs.
  cbv zeta. rewrite Hmany. fold (to_many_query qs a).
  unfold m_bind at 1, m_heap at 1.
  unfold m_bind at 1, m_lift at 1. rewrite Hfind.
  unfold m_bind at 1, m_lift at 1, rv_Addr. rewrite Hft. cbn [obind].
  unfold call. rewrite Hall. reflexivity.
Qed.

(** Whatever it ends in, [LoadRelated] either leaves the world as it was or
    has sent exactly one query: [One] with limit 1 and offset 0 for a
    relation to one record, [All] otherwise; the query is for the model, with
    the condition and in the session of the query set that [queryRelated]
    made for the record. *)
Theorem LoadRelated_sends_one_query :
  ∀ (o : ormBase) (ctx : context) (md : value) (fname : string) (args : list value)
    (w w' : world) (r : outcome (Z * option error)),
    LoadRelatedWithCtx o ctx md fname args w = (r, w') →
    w' = w
    ∨ ∃ mi fi ind qs0 qs c,
        queryRelated o md fname w = (Ret (mi, fi, ind, qs0), w)
        ∧ qs_mi qs = qs_mi qs0 ∧ qs_cond qs = qs_cond qs0 ∧ qs_orm qs = qs_orm qs0
        ∧ if is_to_one (fieldType fi)
          then qs_limit qs = 1 ∧ qs_offset qs = 0 ∧ sent w w' [EvOne qs c]
          else sent w w' [EvAll qs c].
Proof.
  intros o ctx md fname args w w' r Hrun.
  unfold LoadRelatedWithCtx in Hrun. unfold m_bind at 1 in Hrun.
  destruct (queryRelated o md fname w) as [[[[[mi fi] ind] qs0]|p|] w1] eqn:Hqr;
    pose proof (queryRelated_world _ _ _ _ _ _ Hqr) as ->;
    try (injection Hrun as _ <-; left; reflexivity).
  unfold m_bind at 1, m_lift at 1 in Hrun.
  destruct (LoadRelated_args 0 args _) as [a| |];
    try (injection Hrun as _ <-; left; reflexivity).
  cbv zeta in Hrun. unfold m_bind at 1, m_heap at 1 in Hrun.
  unfold m_bind at 1, m_lift at 1 in Hrun.
  destruct (rv_FieldByIndex (w_heap w) ind (fieldIndex fi)) as [find| |];
    try (injection Hrun as _ <-; left; reflexivity).
  destruct (is_to_one (fieldType fi)) eqn:Hone.
  - unfold m_bind at 1, m_lift at 1 in Hrun.
    destruct (rv_Type (w_heap w) find) as [ft| |];
      try (injection Hrun as _ <-; left; reflexivity).
    unfold m_bind at 1, m_lift at 1 in Hrun.
    destruct (type_Elem ft) as [et| |];
      try (injection Hrun as _ <-; left; reflexivity).
    unfold m_bind at 1, reflect_New in Hrun. unfold m_bind at 1 in Hrun.
    match type of Hrun with
    | context [call (EvOne ?q ?c) ?f ?w2] =>
        destruct (call (EvOne q c) f w2) as [r3 w3] eqn:Hcall;
          pose proof (call_sent _ _ _ _ _ Hcall) as Hsent;
          assert (Htrace : w_trace w' = w_trace w3);
          [|right; exists mi, fi, ind, qs0, q, c;
            split; [reflexivity|]; split; [reflexivity|]; split; [reflexivity|];
            split; [reflexivity|]; rewrite Hone;
            split; [reflexivity|]; split; [reflexivity|];
            unfold sent in *; cbn [w_trace] in Hsent;
            rewrite Htrace; exact Hsent]
    end.
    destruct r3 as [[e|]|p|]; try (injection Hrun as _ <-; reflexivity).
    unfold m_bind, m_heap, m_lift, m_set_heap, m_ret in Hrun.
    destruct (rv_Set _ _ _); injection Hrun as _ <-; reflexivity.
  - unfold m_bind at 1, m_lift at 1 in Hrun.
    destruct (rv_Addr (w_heap w) find) as [c| |];
      try (injection Hrun as _ <-; left; reflexivity).
    right.
    match type of Hrun with
    | call (EvAll ?q c) _ _ = _ => exists mi, fi, ind, qs0, q, c
    end.
    split; [reflexivity|]. split; [reflexivity|]. split; [reflexivity|].
    split; [reflexivity|]. rewrite Hone. eapply call_sent. exact Hrun.
Qed.

End LoadRelatedMany.

(** ** A registry with a relation to many

    The in-memory package of [Toy] with another registry: a post has many
    tags. *)
Module Blog.

Definition tagPk : fieldInfo := {|
  name := "Id"; column := "id"; fieldType := Toy.TypeIntegerField;
  fieldIndex := [0%nat]; auto := true; rel := false; inModel := true;
  relModelInfo := None; reverseFieldInfo := None; reverseFieldInfoM2M := None;
  fi_mi := None
|}.

Definition tagMi : modelInfo := {|
  fullName := "main.Tag"; table := "tag"; isThrough := false;
  fields := {| pk := tagPk; columns := [tagPk] |}
|}.

Definition postPk : fieldInfo := {|
  name := "Id"; column := "id"; fieldType := Toy.TypeIntegerField;
  fieldIndex := [0%nat]; auto := true; rel := false; inModel := true;
  relModelInfo := None; reverseFieldInfo := None; reverseFieldInfoM2M := None;
  fi_mi := None
|}.

(** The column of the through table that points to the post, and the
    reverse field of the tags. *)
Definition throughPost : fieldInfo := {|
  name := "Post"; column := "post_id"; fieldType := 524288;
  fieldIndex := [1%nat]; auto := false; rel := true; inModel := true;
  relModelInfo := None; reverseFieldInfo := None; reverseFieldInfoM2M := None;
  fi_mi := None
|}.

Definition tagPosts : fieldInfo := {|
  name := "Posts"; column := "posts"; fieldType := 8388608;
  fieldIndex := [1%nat]; auto := false; rel := false; inModel := true;
  relModelInfo := None; reverseFieldInfo := None; reverseFieldInfoM2M := None;
  fi_mi := None
|}.

Definition postTags : fieldInfo := {|
  name := "Tags"; column := "tags"; fieldType := 2097152;
  fieldIndex := [1%nat]; auto := false; rel := true; inModel := true;
  relModelInfo := Some tagMi; reverseFieldInfo := Some throughPost;
  reverseFieldInfoM2M := Some tagPosts; fi_mi := None
|}.

Definition postMi : modelInfo := {|
  fullName := "main.Post"; table := "post"; isThrough := false;
  fields := {| pk := postPk; columns := [postPk; postTags] |}
|}.

Definition registry : modelCacheT := {|
  cache := <["post" := postMi]> (<["tag" := tagMi]> ∅);
  cacheByFullName := <["main.Post" := postMi]> (<["main.Tag" := tagMi]> ∅)
|}.

Definition package : @Package Toy.types := {|
  modelCache := registry;
  getFullName := @getFullName _ Toy.package;
  indirectType := @indirectType _ Toy.package;
  nameStrategy := @nameStrategy _ Toy.package;
  IsPositiveIntegerField := @IsPositiveIntegerField _ Toy.package;
  RelForeignKey := @RelForeignKey _ Toy.package;
  RelOneToOne := @RelOneToOne _ Toy.package;
  RelManyToMany := @RelManyToMany _ Toy.package;
  RelReverseOne := @RelReverseOne _ Toy.package;
  RelReverseMany := @RelReverseMany _ Toy.package;
  ExprSep := @ExprSep _ Toy.package;
  GetByAny := @GetByAny _ Toy.package;
  getExistPk := @getExistPk _ Toy.package;
  ToInt64 := @ToInt64 _ Toy.package;
  Sprint := @Sprint _ Toy.package;
  zeroValue := @zeroValue _ Toy.package;
  NewCondition := @NewCondition _ Toy.package;
  Condition_And := @Condition_And _ Toy.package;
  newQuerySet := @newQuerySet _ Toy.package;
  newQueryM2M := @newQueryM2M _ Toy.package;
  newRawSet := @newRawSet _ Toy.package;
  querySet_One := @querySet_One _ Toy.package;
  querySet_All := fun qs _ => fun d h =>
    (Ret (Z.of_nat (length (filter (fun r => fst r = "main.Tag") d)), None), d, h);
  as_txer := @as_txer _ Toy.package;
  as_txEnder := @as_txEnder _ Toy.package
|}.

(** The caller's memory: a post at 1 with no tags loaded. *)
Definition mem : heap :=
  <[1%positive := VStruct "main.Post"
                    [VInt SzWord 1; VSlice (TPtr (TStruct "main.Tag")) []]]> ∅.

Definition post : value := VPtr (TStruct "main.Post") (Some (1%positive, [])).

Definition w0 : @world Toy.types := Toy.world_of [("main.Tag", 1); ("main.Tag", 2)] mem [].

(** The query set of the post's tags. *)
Definition tags : @querySet Toy.types := {|
  qs_mi := Some tagMi;
  qs_cond := Some ([("posts__post_id", [post])] : @Condition Toy.types);
  qs_limit := 0; qs_offset := 0; qs_relDepth := 0; qs_orders := []; qs_orm := Toy.o
|}.

End Blog.

(** The related query of the profile of the user at 1. *)
Lemma queryRelated_returns_filtered_witness :
  ∃ target e,
    queryRelated (PK := Toy.package) Toy.o (Toy.ptr "main.User" 1%positive) "Profile" Toy.w0
    = (Ret (Toy.userMi, Toy.userProfile, RAddr (1%positive, []),
            set_cond (newQuerySet (Package := Toy.package) Toy.o target)
                     (Condition_And (Package := Toy.package)
                        (NewCondition (Package := Toy.package)) e
                        [Toy.ptr "main.User" 1%positive])),
       Toy.w0).
Proof.
  destruct (queryRelated_returns_filtered (PK := Toy.package) Toy.o
              (Toy.ptr "main.User" 1%positive) "Profile" Toy.w0 Toy.w0 Toy.userMi
              Toy.userProfile (RAddr (1%positive, []))
              (set_cond (newQuerySet (Package := Toy.package) Toy.o (Some Toy.profileMi))
                        ([("id", [Toy.ptr "main.User" 1%positive])] : @Condition Toy.types))
              eq_refl)
    as (_ & _ & _ & _ & _ & _ & target & e & Hqs).
  exists target, e. rewrite <- Hqs. reflexivity.
Defined.

(** The user at 1 has no field [Nope], and its [Id] is no relation. *)
Lemma queryRelated_rejects_witness :
  QueryRelated (PK := Toy.package) Toy.o (Toy.ptr "main.User" 1%positive) "Nope" Toy.w0
  = (Panic (PanicError (Errorf "<Ormer> cannot find field `Nope` for model `main.User`")),
     Toy.w0)
  ∧ LoadRelated (PK := Toy.package) Toy.o (Toy.ptr "main.User" 1%positive) "Id" [] Toy.w0
    = (Panic (PanicError (Errorf
         "<Ormer> name `%!s` for model `Id` is not an available rel/reverse field")),
       Toy.w0).
Proof.
  split.
  - destruct (queryRelated_rejects (PK := Toy.package) Toy.o Background
                (Toy.ptr "main.User" 1%positive) "Nope" [] Toy.w0 Toy.userMi
                (RAddr (1%positive, [])) eq_refl) as (Hnone & _ & _).
    destruct (Hnone eq_refl) as (_ & _ & Hquery). exact Hquery.
  - destruct (queryRelated_rejects (PK := Toy.package) Toy.o Background
                (Toy.ptr "main.User" 1%positive) "Id" [] Toy.w0 Toy.userMi
                (RAddr (1%positive, [])) eq_refl) as (_ & _ & Hrel).
    destruct (Hrel Toy.userPk eq_refl eq_refl (or_intror eq_refl)) as (_ & Hload & _).
    exact Hload.
Defined.

(** The tags of the post at 1 are many to many; its identity is not. *)
Lemma QueryM2M_many_to_many_only_witness :
  QueryM2M (PK := Blog.package) Toy.o Blog.post "Tags" Blog.w0 = (Ret tt, Blog.w0)
  ∧ QueryM2M (PK := Blog.package) Toy.o Blog.post "Id" Blog.w0
    = (Panic (PanicError (Errorf
         "<Ormer.QueryM2M> model `Id` . name `main.Post` is not a m2m field")),
       Blog.w0).
Proof.
  split.
  - destruct (QueryM2M_many_to_many_only (PK := Blog.package) Toy.o Background Blog.post
                "Tags" Blog.w0 Blog.postMi (RAddr (1%positive, [])) Blog.postTags
                eq_refl eq_refl) as [Hyes _].
    apply Hyes. left. reflexivity.
  - destruct (QueryM2M_many_to_many_only (PK := Blog.package) Toy.o Background Blog.post
                "Id" Blog.w0 Blog.postMi (RAddr (1%positive, [])) Blog.postPk
                eq_refl eq_refl) as [_ Hno].
    apply Hno. split; [discriminate|]. left. discriminate.
Defined.

(** The table of the users, by its name and by a nil pointer to a user; a
    full name is no table name. *)
Lemma QueryTable_registered_only_witness :
  (∃ mi, fst (QueryTable (PK := Toy.package) Toy.o (VString "user") Toy.w0)
         = Ret (newQuerySet (Package := Toy.package) Toy.o (Some mi))
         ∧ modelCache_get Toy.registry "user" = Some mi)
  ∧ QueryTable (PK := Toy.package) Toy.o (VString "main.User") Toy.w0
    = (Panic (PanicError (Errorf "<Ormer.QueryTable> table name: `main.User` not exists")),
       Toy.w0).
Proof.
  destruct (QueryTable_registered_only (PK := Toy.package) Toy.o Background
              (VString "user") Toy.w0) as (Hret & _ & _).
  destruct (QueryTable_registered_only (PK := Toy.package) Toy.o Background
              (VString "main.User") Toy.w0) as (_ & Hname & _).
  split.
  - destruct (Hret (newQuerySet (Package := Toy.package) Toy.o (Some Toy.userMi)) Toy.w0
                eq_refl) as (_ & mi & Hq & Hreg).
    exists mi. split; [rewrite <- Hq; reflexivity|exact Hreg].
  - exact (Hname "main.User" eq_refl eq_refl).
Defined.

(** The related query of the post's tags, built after an insert was sent. *)
Lemma query_builders_send_nothing_witness :
  let w := Toy.world_of [("main.Tag", 1)] Blog.mem
             [EvInsert (SqlDB 0) Blog.postMi (RAddr (1%positive, []))] in
  snd (QueryRelated (PK := Blog.package) Toy.o Blog.post "Tags" w) = w.
Proof.
  intros w.
  destruct (query_builders_send_nothing (PK := Blog.package) Toy.o Background w
              (snd (QueryRelated (PK := Blog.package) Toy.o Blog.post "Tags" w)))
    as (_ & Hrelated & _).
  exact (Hrelated Blog.post "Tags"
           (fst (QueryRelated (PK := Blog.package) Toy.o Blog.post "Tags" w)) eq_refl).
Defined.

(** Loading the post's tags with a depth, a limit, an offset, an order that
    is no string and a fifth argument. *)
Lemma LoadRelated_arguments_witness :
  LoadRelated (PK := Blog.package) Toy.o Blog.post "Tags"
    [VBool true; VInt SzWord 10; VInt SzWord 5; VInt SzWord 7; VString "more"] Blog.w0
  = LoadRelated (PK := Blog.package) Toy.o Blog.post "Tags"
      [VBool true; VInt SzWord 10; VInt SzWord 5] Blog.w0.
Proof.
  destruct (LoadRelated_arguments (PK := Blog.package) Toy.o Background Blog.post "Tags"
              Blog.w0) as (Hrest & _ & _ & _ & Horder).
  refine (eq_trans (Hrest _ _ _ _ _) _).
  apply Horder. intros s. discriminate.
Defined.

(** Loading the tags of the post at 1, ten of them from the fifth on. *)
Lemma LoadRelated_to_many_witness :
  let qs : @querySet Toy.types :=
    {| qs_mi := Some Blog.tagMi;
       qs_cond := Some ([("posts__post_id", [Blog.post])] : @Condition Toy.types);
       qs_limit := 10; qs_offset := 5; qs_relDepth := 0; qs_orders := [];
       qs_orm := Toy.o |} in
  let container := VPtr (TSlice (TPtr (TStruct "main.Tag"))) (Some (1%positive, [1%nat])) in
  LoadRelated (PK := Blog.package) Toy.o Blog.post "Tags"
    [VBool false; VInt SzWord 10; VInt SzWord 5] Blog.w0
  = (Ret (2, None),
     Toy.world_of [("main.Tag", 1); ("main.Tag", 2)] Blog.mem [EvAll qs container]).
Proof.
  intros qs container.
  apply (LoadRelated_to_many (PK := Blog.package) Toy.o Background Blog.post "Tags"
           [VBool false; VInt SzWord 10; VInt SzWord 5] Blog.w0 Blog.postMi Blog.postTags
           (RAddr (1%positive, [])) Blog.tags
           {| la_relDepth := 0; la_limit := 10; la_offset := 5; la_order := "" |}
           (1%positive, [1%nat]) (TSlice (TPtr (TStruct "main.Tag")))
           (Ret (2, None)) [("main.Tag", 1); ("main.Tag", 2)] Blog.mem
           eq_refl eq_refl eq_refl eq_refl eq_refl eq_refl).
Defined.

(** Loading the profile of the user at 1: one [One], with limit 1. *)
Lemma LoadRelated_sends_one_query_witness :
  let run := LoadRelated (PK := Toy.package) Toy.o (Toy.ptr "main.User" 1%positive)
               "Profile" [VBool false; VInt SzWord 10; VInt SzWord 5] Toy.w0 in
  ∃ qs c, qs_limit qs = 1 ∧ qs_offset qs = 0 ∧ sent Toy.w0 (snd run) [EvOne qs c].
Proof.
  intros run.
  destruct (LoadRelated_sends_one_query (PK := Toy.package) Toy.o Background
              (Toy.ptr "main.User" 1%positive) "Profile"
              [VBool false; VInt SzWord 10; VInt SzWord 5] Toy.w0 (snd run) (fst run)
              eq_refl)
    as [Hsame|(mi & fi & ind & qs0 & qs & c & Hqr & _ & _ & _ & Hsent)].
  - apply (f_equal (fun x => length (w_trace x))) in Hsame. discriminate Hsame.
  - injection Hqr as <- <- <- <-. exists qs, c. exact Hsent.
Defined.

(** ** Ending a transaction *)

Section EndTransaction.

Context {PT : PackageTypes} {PK : Package}.

(** [Commit] and [Rollback] on the session that [Begin] returned go to the
    transaction that [BeginTx] opened, never to the executor the transaction
    was begun on: whatever they end in, each has sent its one call to that
    transaction, or nothing at all. *)
Theorem Commit_Rollback_end_the_transaction :
  ∀ (o : orm) (ctx : context) (opts : option TxOptions) (w w1 : world) (s : txOrm),
    BeginWithCtxAndOpts o ctx opts w = (Ret (inl s), w1) →
    ∃ t tx d h,
      as_txer (db (orm_ormBase o)) = Some t
      ∧ BeginTx t ctx opts (w_db w) (w_heap w) = (Ret (tx, None), d, h)
      ∧ ∀ w2 w3 r,
          (Commit s w2 = (r, w3) → w3 = w2 ∨ sent w2 w3 [EvCommit (TxDB tx)])
          ∧ (Rollback s w2 = (r, w3) → w3 = w2 ∨ sent w2 w3 [EvRollback (TxDB tx)]).
Proof.
  intros o ctx opts w w1 s. unfold BeginWithCtxAndOpts.
  destruct (as_txer (db (orm_ormBase o))) as [t|] eqn:Ht; [|discriminate].
  unfold m_bind, call.
  destruct (BeginTx t ctx opts (w_db w) (w_heap w)) as [[[[tx [e|]]|p|] d] h] eqn:Hbegin;
    try discriminate.
  intros [= <- _]. exists t, tx, d, h.
  split; [reflexivity|]. split; [exact Hbegin|].
  intros w2 w3 r. unfold Commit, Rollback. cbn [txOrm_ormBase db].
  destruct (as_txEnder (TxDB tx)) as [e|].
  - split; intros Hrun; right; eapply call_sent; exact Hrun.
  - split; intros [= _ <-]; left; reflexivity.
Qed.

End EndTransaction.

(** Committing the transaction opened on the pooled connection. *)
Lemma Commit_Rollback_end_the_transaction_witness :
  let s := {| txOrm_ormBase := {| ormBase_alias := Toy.al; db := TxDB 7%nat |} |} in
  let w1 := snd (Begin (PK := Toy.package) Toy.session Toy.w0) in
  fst (Begin (PK := Toy.package) Toy.session Toy.w0) = Ret (inl s)
  ∧ ∃ tx, sent w1 (snd (Commit (PK := Toy.package) s w1)) [EvCommit (TxDB tx)].
Proof.
  intros s w1. split; [reflexivity|].
  destruct (Commit_Rollback_end_the_transaction (PK := Toy.package) Toy.session
              Background None Toy.w0 w1 s eq_refl) as (t & tx & d & h & _ & _ & Hend).
  destruct (Hend w1 (snd (Commit (PK := Toy.package) s w1))
              (fst (Commit (PK := Toy.package) s w1))) as [Hcommit _].
  exists tx. destruct (Hcommit eq_refl) as [Hsame|Hsent]; [|exact Hsent].
  apply (f_equal (fun x => length (w_trace x))) in Hsame. discriminate Hsame.
Defined.
